(** * Verification of the audio processor module (audio_processor.cpp)

    A shallow embedding of the WAV codec, the float buffer primitives and
    the scratch arena they share, followed by the properties of the
    specification that were checked against it.

    Modelling conventions.
    - The module is built for a 32-bit WebAssembly target: [size_t] and
      pointers are 32 bits wide, [int] is 32 bits wide.  Unsigned integers
      are values of [Z] with the wrap-around written out ([u16], [u32]).
    - [float] is IEEE 754 binary32 and [double] is binary64, both given by
      the standard library's [SpecFloat] operations (round to nearest,
      ties to even).
    - Memory is typed.  The arena block holds either bytes (a WAV image) or
      float cells; a cell is [None] while no call has defined its value.
    - Undefined behaviour of the C program (reads or writes outside an
      object, division by zero, a float to integer conversion out of range)
      is the outcome [None] of the state monad [M]. *)

From Stdlib Require Import ZArith List Bool Lia.
From Stdlib Require Import Floats.SpecFloat.
Import ListNotations.

Local Open Scope Z_scope.

(** ** Machine integers *)

Definition u16 (x : Z) : Z := x mod 65536.
Definition u32 (x : Z) : Z := x mod 4294967296.

(** Little-endian bytes of the [n] low-order bytes of [x]. *)
Fixpoint le_bytes (n : nat) (x : Z) : list Z :=
  match n with
  | O => []
  | S n' => Z.land x 255 :: le_bytes n' (Z.shiftr x 8)
  end.

(** Unsigned little-endian value of a byte list. *)
Fixpoint le_value (bs : list Z) : Z :=
  match bs with
  | [] => 0
  | b :: bs' => b + 256 * le_value bs'
  end.

(** Reinterpretation of an unsigned [w]-bit value as a signed one. *)
Definition signed (w : Z) (x : Z) : Z :=
  if x <? 2 ^ (w - 1) then x else x - 2 ^ w.

(** ** Floating point *)

Module F32.
Definition prec : Z := 24.
Definition emax : Z := 128.
Definition t := spec_float.

Definition of_Z (z : Z) : t := binary_normalize prec emax z 0 false.
Definition mul : t -> t -> t := SFmul prec emax.
Definition add : t -> t -> t := SFadd prec emax.
Definition sub : t -> t -> t := SFsub prec emax.
Definition div : t -> t -> t := SFdiv prec emax.
Definition ltb : t -> t -> bool := SFltb.
Definition valid (x : t) : bool := valid_binary prec emax x.

Definition one : t := of_Z 1.
Definition minus_one : t := of_Z (-1).
Definition zero : t := S754_zero false.
Definition half : t := div one (of_Z 2).
End F32.

Module F64.
Definition prec : Z := 53.
Definition emax : Z := 1024.
Definition t := spec_float.

Definition of_Z (z : Z) : t := binary_normalize prec emax z 0 false.
Definition mul : t -> t -> t := SFmul prec emax.
Definition add : t -> t -> t := SFadd prec emax.
Definition sub : t -> t -> t := SFsub prec emax.
Definition div : t -> t -> t := SFdiv prec emax.

(** [(float)d]: rounding of a double to binary32. *)
Definition to_f32 (d : t) : F32.t :=
  match d with
  | S754_finite s m e => binary_round F32.prec F32.emax s m e
  | _ => d
  end.

(** [(double)f]: every binary32 value is a binary64 value. *)
Definition of_f32 (f : F32.t) : t :=
  match f with
  | S754_finite s m e => binary_round prec emax s m e
  | _ => f
  end.
End F64.

Definition is_nan (x : spec_float) : bool :=
  match x with S754_nan => true | _ => false end.

Definition signbit (x : spec_float) : bool :=
  match x with
  | S754_zero s | S754_infinity s | S754_finite s _ _ => s
  | S754_nan => false
  end.

(** [fminf] and [fmaxf] of the C library: a NaN argument yields the other
    argument, zeros of different sign are ordered by sign. *)
Definition fminf (x y : F32.t) : F32.t :=
  if is_nan x then y
  else if is_nan y then x
  else if negb (Bool.eqb (signbit x) (signbit y)) then (if signbit x then x else y)
  else if F32.ltb x y then x else y.

Definition fmaxf (x y : F32.t) : F32.t :=
  if is_nan x then y
  else if is_nan y then x
  else if negb (Bool.eqb (signbit x) (signbit y)) then (if signbit x then y else x)
  else if F32.ltb x y then y else x.

(** Integral part of a float, rounded toward zero; [None] for NaN and the
    infinities. *)
Definition trunc (x : spec_float) : option Z :=
  match x with
  | S754_zero _ => Some 0
  | S754_finite s m e =>
      let a := match e with
               | Zneg p => Z.shiftr (Zpos m) (Zpos p)
               | _ => Z.shiftl (Zpos m) e
               end in
      Some (if s then - a else a)
  | _ => None
  end.

(** A float to integer cast: the truncated value when it is in the range
    [lo..hi] of the target type, undefined otherwise. *)
Definition cast_int (lo hi : Z) (x : spec_float) : option Z :=
  match trunc x with
  | Some z => if (lo <=? z) && (z <=? hi) then Some z else None
  | None => None
  end.

Definition to_int16 : spec_float -> option Z := cast_int (-32768) 32767.
Definition to_int32 : spec_float -> option Z := cast_int (-2147483648) 2147483647.
Definition to_uint32 : spec_float -> option Z := cast_int 0 4294967295.

(** ** Data model *)

(** The canonical 44-byte header ([WAVHeader], a packed struct). *)
Record WAVHeader := {
  riff : list Z;
  file_size : Z;
  wave : list Z;
  fmt : list Z;
  fmt_size : Z;
  audio_format : Z;
  hdr_channels : Z;
  hdr_sample_rate : Z;
  byte_rate : Z;
  block_align : Z;
  bits_per_sample : Z;
  data_tag : list Z;
  data_size : Z
}.

Definition RIFF : list Z := [82; 73; 70; 70].
Definition WAVE : list Z := [87; 65; 86; 69].
Definition FMT_ : list Z := [102; 109; 116; 32].
Definition DATA : list Z := [100; 97; 116; 97].

(** The bytes of a header in memory order. *)
Definition header_bytes (h : WAVHeader) : list Z :=
  riff h ++ le_bytes 4 (file_size h) ++ wave h ++ fmt h
    ++ le_bytes 4 (fmt_size h) ++ le_bytes 2 (audio_format h)
    ++ le_bytes 2 (hdr_channels h) ++ le_bytes 4 (hdr_sample_rate h)
    ++ le_bytes 4 (byte_rate h) ++ le_bytes 2 (block_align h)
    ++ le_bytes 2 (bits_per_sample h) ++ data_tag h
    ++ le_bytes 4 (data_size h).

(** A [float*].  Host memory is given by the floats found from the pointer
    on; the arena base is a pointer into the shared arena, so what it
    designates changes with the arena. *)
Inductive fptr :=
| NullPtr
| HostMem (cells : list F32.t)
| ArenaBase.

(** [AudioBuffer]: a view, it does not own [data]. *)
Record AudioBuffer := {
  data : fptr;
  length : Z;
  num_channels : Z;
  sample_rate : Z
}.

(** What the arena block holds, from offset 0 on.  [None] cells have no
    defined value. *)
Inductive payload :=
| Indeterminate
| WavBytes (bs : list (option Z))
| Samples (fs : list (option F32.t)).

(** A heap block: the number of bytes allocated and its contents. *)
Record block := { blk_size : Z; blk_data : payload }.

(** [MemoryBuffer]: [buffer] is [None] for the null pointer. *)
Record MemoryBuffer := {
  buffer : option block;
  size : Z;
  capacity : Z
}.

(** [MemoryBuffer g_memory_buffer = {NULL, 0, 0};] *)
Definition g_memory_buffer_init : MemoryBuffer :=
  {| buffer := None; size := 0; capacity := 0 |}.

(** ** A state and error monad over the global arena *)

Definition M (A : Type) : Type := MemoryBuffer -> option (A * MemoryBuffer).

Definition ret {A} (a : A) : M A := fun g => Some (a, g).
Definition bind {A B} (c : M A) (k : A -> M B) : M B :=
  fun g => match c g with
           | Some (a, g') => k a g'
           | None => None
           end.
Definition trap {A} : M A := fun _ => None.
Definition get : M MemoryBuffer := fun g => Some (g, g).
Definition put (g : MemoryBuffer) : M unit := fun _ => Some (tt, g).
Definition lift {A} (o : option A) : M A :=
  fun g => match o with Some a => Some (a, g) | None => None end.

Declare Scope arena_scope.
Delimit Scope arena_scope with arena.
Notation "x <- c ;; k" := (bind c (fun x => k))
  (at level 61, c at next level, right associativity) : arena_scope.
Notation "c ;; k" := (bind c (fun _ => k))
  (at level 61, right associativity) : arena_scope.
Local Open Scope arena_scope.

(** [for (i = i0; i < i0 + n; i++) s = body(i, s);] *)
Fixpoint for_loop {S} (n : nat) (i : Z) (body : Z -> S -> M S) (s : S) : M S :=
  match n with
  | O => ret s
  | Datatypes.S n' => s' <- body i s ;; for_loop n' (i + 1) body s'
  end.

(** ** Typed memory accesses *)

(** Overwrite the cells [off, off + |vs|) of a cell array, which grows when
    the write reaches past its known end. *)
Definition write_at {A} (a : list (option A)) (off : nat) (vs : list A)
  : list (option A) :=
  firstn off (a ++ repeat None (off - List.length a))
    ++ map Some vs ++ skipn (off + List.length vs) a.

Definition byte_view (p : payload) : list (option Z) :=
  match p with WavBytes bs => bs | _ => [] end.

Definition float_view (p : payload) : list (option F32.t) :=
  match p with Samples fs => fs | _ => [] end.

(** Store bytes at byte offset [off] of the arena block. *)
Definition store_bytes (off : Z) (vs : list Z) : M unit :=
  match vs with
  | [] => ret tt
  | _ =>
    g <- get ;;
    match buffer g with
    | None => trap
    | Some b =>
      if off + Z.of_nat (List.length vs) <=? blk_size b then
        put {| buffer := Some {| blk_size := blk_size b;
                                 blk_data := WavBytes (write_at (byte_view (blk_data b))
                                                                (Z.to_nat off) vs) |};
               size := size g; capacity := capacity g |}
      else trap
    end
  end.

(** Store floats at float index [off] of the arena block. *)
Definition store_floats (off : Z) (vs : list F32.t) : M unit :=
  match vs with
  | [] => ret tt
  | _ =>
    g <- get ;;
    match buffer g with
    | None => trap
    | Some b =>
      if 4 * (off + Z.of_nat (List.length vs)) <=? blk_size b then
        put {| buffer := Some {| blk_size := blk_size b;
                                 blk_data := Samples (write_at (float_view (blk_data b))
                                                               (Z.to_nat off) vs) |};
               size := size g; capacity := capacity g |}
      else trap
    end
  end.

(** The float cells of the arena as a pointer to them sees them. *)
Definition arena_floats (g : MemoryBuffer) : list (option F32.t) :=
  match buffer g with
  | Some b => firstn (Z.to_nat (blk_size b / 4)) (float_view (blk_data b))
  | None => []
  end.

Definition arena_bytes (g : MemoryBuffer) : list (option Z) :=
  match buffer g with
  | Some b => firstn (Z.to_nat (blk_size b)) (byte_view (blk_data b))
  | None => []
  end.

(** All the cells of a list are defined. *)
Fixpoint defined {A} (l : list (option A)) : option (list A) :=
  match l with
  | [] => Some []
  | Some a :: l' => match defined l' with Some r => Some (a :: r) | None => None end
  | None :: _ => None
  end.

(** Load [n] floats starting at index [off] from a pointer. *)
Definition load_floats (p : fptr) (off : Z) (n : Z) : M (list F32.t) :=
  if n =? 0 then ret []
  else
    match p with
    | NullPtr => trap
    | HostMem cells =>
        if off + n <=? Z.of_nat (List.length cells)
        then ret (firstn (Z.to_nat n) (skipn (Z.to_nat off) cells))
        else trap
    | ArenaBase =>
        g <- get ;;
        let fs := arena_floats g in
        if off + n <=? Z.of_nat (List.length fs)
        then lift (defined (firstn (Z.to_nat n) (skipn (Z.to_nat off) fs)))
        else trap
    end.

Definition load_float (p : fptr) (i : Z) : M F32.t :=
  l <- load_floats p i 1 ;;
  match l with
  | [x] => ret x
  | _ => trap
  end.

(** Store floats through a pointer: into host memory (the updated pointer
    value is returned) or into the arena. *)
Definition store_float (p : fptr) (i : Z) (v : F32.t) : M fptr :=
  match p with
  | NullPtr => trap
  | HostMem cells =>
      if i <? Z.of_nat (List.length cells)
      then ret (HostMem (firstn (Z.to_nat i) cells ++ v :: skipn (Datatypes.S (Z.to_nat i)) cells))
      else trap
  | ArenaBase => store_floats i [v] ;; ret ArenaBase
  end.

(** [memcpy(arena + dst, src + soff, nbytes)] on float cells; [nbytes] is a
    multiple of 4. *)
Definition memcpy_floats (dst : Z) (src : fptr) (soff : Z) (nbytes : Z) : M unit :=
  vs <- load_floats src soff (nbytes / 4) ;;
  store_floats dst vs.

(** Bytes [off, off + n) of a byte buffer in host memory. *)
Definition load_bytes (mem : list Z) (off : Z) (n : nat) : option (list Z) :=
  if off + Z.of_nat n <=? Z.of_nat (List.length mem)
  then Some (firstn n (skipn (Z.to_nat off) mem))
  else None.

(** ** The allocator *)

Section Allocator.

(** Whether the allocator grants a request of [n] bytes. *)
Variable heap_grants : Z -> bool.

Definition malloc (n : Z) : option block :=
  if heap_grants n then Some {| blk_size := n; blk_data := Indeterminate |}
  else None.

(** [realloc] keeps the contents of the old block. *)
Definition realloc (old : option block) (n : Z) : option block :=
  if heap_grants n then
    Some {| blk_size := n;
            blk_data := match old with Some b => blk_data b | None => Indeterminate end |}
  else None.

(** The growth step every producing operation starts with:
    [if (n > capacity) { realloc; if (!new_buffer) return 0; ... }].
    The result is [false] when the caller has to return 0. *)
Definition reserve (n : Z) : M bool :=
  g <- get ;;
  if n >? capacity g then
    match realloc (buffer g) n with
    | None => ret false
    | Some b => put {| buffer := Some b; size := size g; capacity := n |} ;; ret true
    end
  else ret true.

Definition set_size (n : Z) : M unit :=
  g <- get ;;
  put {| buffer := buffer g; size := n; capacity := capacity g |}.

(** ** Arena life cycle *)

Definition wasm_init_memory (size_ : Z) : M Z :=
  g <- get ;;
  (* the old block is freed; the pointer is overwritten by malloc's result *)
  match malloc size_ with
  | None => put {| buffer := None; size := size g; capacity := capacity g |} ;; ret 0
  | Some b => put {| buffer := Some b; size := 0; capacity := size_ |} ;; ret size_
  end.

Definition wasm_get_memory_buffer : M (option block) :=
  g <- get ;; ret (buffer g).

Definition wasm_cleanup : M unit :=
  put {| buffer := None; size := 0; capacity := 0 |}.

Definition wasm_get_buffer_size : M Z :=
  g <- get ;; ret (size g).

(** ** WAV codec *)

(** [fmaxf(-1.0f, fminf(1.0f, sample))] *)
Definition clamp (sample : F32.t) : F32.t :=
  fmaxf F32.minus_one (fminf F32.one sample).

(** [sample < 0 ? sample * neg : sample * pos], in single precision. *)
Definition scale (neg pos : Z) (sample : F32.t) : F32.t :=
  if F32.ltb sample (F32.of_Z 0)
  then F32.mul sample (F32.of_Z neg)
  else F32.mul sample (F32.of_Z pos).

(** The integer code of one sample, 16-bit and 24-bit. *)
Definition encode_sample16 (sample : F32.t) : option Z :=
  to_int16 (scale 32768 32767 (clamp sample)).

Definition encode_sample24 (sample : F32.t) : option Z :=
  to_int32 (scale 8388608 8388607 (clamp sample)).

Definition wasm_audio_buffer_to_wav
    (audio_data : fptr) (length_ num_channels_ sample_rate_ bits_per_sample_ : Z)
  : M Z :=
  let bytes_per_sample := u16 (bits_per_sample_ / 8) in
  let block_align_ := u16 (num_channels_ * bytes_per_sample) in
  let data_size_ := u32 (length_ * block_align_) in
  let total_size := u32 (44 + data_size_) in
  ok <- reserve total_size ;;
  if negb ok then ret 0 else
  store_bytes 0 (header_bytes
    {| riff := RIFF; file_size := u32 (total_size - 8); wave := WAVE;
       fmt := FMT_; fmt_size := 16; audio_format := 1;
       hdr_channels := num_channels_; hdr_sample_rate := sample_rate_;
       byte_rate := u32 (sample_rate_ * block_align_);
       block_align := block_align_; bits_per_sample := bits_per_sample_;
       data_tag := DATA; data_size := data_size_ |}) ;;
  (if bits_per_sample_ =? 16 then
     for_loop (Z.to_nat (u32 (length_ * num_channels_))) 0
       (fun i _ =>
          sample <- load_float audio_data i ;;
          v <- lift (encode_sample16 sample) ;;
          store_bytes (44 + 2 * i) (le_bytes 2 v)) tt
   else if bits_per_sample_ =? 24 then
     for_loop (Z.to_nat (u32 (length_ * num_channels_))) 0
       (fun i _ =>
          sample <- load_float audio_data i ;;
          int_sample <- lift (encode_sample24 sample) ;;
          store_bytes (44 + u32 (i * 3)) [Z.land int_sample 255] ;;
          store_bytes (44 + u32 (i * 3 + 1)) [Z.land (Z.shiftr int_sample 8) 255] ;;
          store_bytes (44 + u32 (i * 3 + 2)) [Z.land (Z.shiftr int_sample 16) 255]) tt
   else ret tt) ;;
  set_size total_size ;;
  ret total_size.

(** [memcmp(a, b, 4) != 0] is [negb (tag_eqb a b)]. *)
Definition tag_eqb (a b : list Z) : bool :=
  if list_eq_dec Z.eq_dec a b then true else false.

(** An unsigned little-endian field of the header. *)
Definition field (wav_data : list Z) (off : Z) (n : nat) : option Z :=
  match load_bytes wav_data off n with
  | Some bs => Some (le_value bs)
  | None => None
  end.

(** [(float)v / (v < 0 ? neg : pos)], in single precision. *)
Definition decode_sample (neg pos : Z) (v : Z) : F32.t :=
  F32.div (F32.of_Z v) (F32.of_Z (if v <? 0 then neg else pos)).

Definition wasm_wav_to_audio_buffer
    (wav_data : list Z) (wav_size : Z) (output : AudioBuffer)
  : M (Z * AudioBuffer) :=
  if wav_size <? 44 then ret (0, output) else
  riff_ <- lift (load_bytes wav_data 0 4) ;;
  if negb (tag_eqb riff_ RIFF) then ret (0, output) else
  wave_ <- lift (load_bytes wav_data 8 4) ;;
  if negb (tag_eqb wave_ WAVE) then ret (0, output) else
  fmt_ <- lift (load_bytes wav_data 12 4) ;;
  if negb (tag_eqb fmt_ FMT_) then ret (0, output) else
  bits_per_sample_ <- lift (field wav_data 34 2) ;;
  num_channels_ <- lift (field wav_data 22 2) ;;
  sample_rate_ <- lift (field wav_data 24 4) ;;
  let bytes_per_sample := u16 (bits_per_sample_ / 8) in
  data_size_ <- lift (field wav_data 40 4) ;;
  if num_channels_ * bytes_per_sample =? 0 then trap else
  let num_samples := data_size_ / (num_channels_ * bytes_per_sample) in
  let buffer_size := u32 (num_samples * num_channels_ * 4) in
  ok <- reserve buffer_size ;;
  if negb ok then ret (0, output) else
  let output' := {| data := ArenaBase; length := num_samples;
                    num_channels := num_channels_; sample_rate := sample_rate_ |} in
  (if bits_per_sample_ =? 16 then
     for_loop (Z.to_nat (u32 (num_samples * num_channels_))) 0
       (fun i _ =>
          bs <- lift (load_bytes wav_data (44 + 2 * i) 2) ;;
          store_floats i [decode_sample 32768 32767 (signed 16 (le_value bs))]) tt
   else if bits_per_sample_ =? 24 then
     for_loop (Z.to_nat (u32 (num_samples * num_channels_))) 0
       (fun i _ =>
          b0 <- lift (field wav_data (44 + u32 (i * 3)) 1) ;;
          b1 <- lift (field wav_data (44 + u32 (i * 3 + 1)) 1) ;;
          b2 <- lift (field wav_data (44 + u32 (i * 3 + 2)) 1) ;;
          let int_sample :=
            Z.lor (Z.lor b0 (Z.shiftl b1 8)) (Z.shiftl (signed 8 b2) 16) in
          store_floats i [decode_sample 8388608 8388607 int_sample]) tt
   else ret tt) ;;
  set_size buffer_size ;;
  ret (num_samples, output').

(** ** Float buffer primitives *)

Definition wasm_slice_audio (source : AudioBuffer) (start_sample slice_length : Z)
  : M Z :=
  let slice_length :=
    if u32 (start_sample + slice_length) >? length source
    then u32 (length source - start_sample)
    else slice_length in
  let buffer_size := u32 (slice_length * num_channels source * 4) in
  ok <- reserve buffer_size ;;
  if negb ok then ret 0 else
  for_loop (Z.to_nat (num_channels source)) 0
    (fun ch _ =>
       memcpy_floats (u32 (ch * slice_length))
                     (data source) (u32 (ch * length source) + start_sample)
                     (u32 (slice_length * 4))) tt ;;
  set_size buffer_size ;;
  ret slice_length.

(** The first loop of the merge: [None] when a buffer differs in format
    (the function returns 0), the wrapped sum of the lengths otherwise. *)
Fixpoint merge_total (buffers : list AudioBuffer) (n : nat) (i : nat)
    (num_channels_ sample_rate_ total_length : Z) : M (option Z) :=
  match n with
  | O => ret (Some total_length)
  | Datatypes.S n' =>
      b <- lift (nth_error buffers i) ;;
      if negb (num_channels b =? num_channels_) || negb (sample_rate b =? sample_rate_)
      then ret None
      else merge_total buffers n' (Datatypes.S i) num_channels_ sample_rate_
                       (u32 (total_length + length b))
  end.

Definition wasm_merge_audio_buffers
    (buffers : list AudioBuffer) (num_buffers : Z) (output : AudioBuffer)
  : M (Z * AudioBuffer) :=
  if num_buffers =? 0 then ret (0, output) else
  b0 <- lift (nth_error buffers 0) ;;
  let num_channels_ := num_channels b0 in
  let sample_rate_ := sample_rate b0 in
  t <- merge_total buffers (Z.to_nat num_buffers) 0 num_channels_ sample_rate_ 0 ;;
  match t with
  | None => ret (0, output)
  | Some total_length =>
    let buffer_size := u32 (total_length * num_channels_ * 4) in
    ok <- reserve buffer_size ;;
    if negb ok then ret (0, output) else
    let output' := {| data := ArenaBase; length := total_length;
                      num_channels := num_channels_; sample_rate := sample_rate_ |} in
    for_loop (Z.to_nat num_buffers) 0
      (fun i offset =>
         b <- lift (nth_error buffers (Z.to_nat i)) ;;
         for_loop (Z.to_nat num_channels_) 0
           (fun ch _ =>
              memcpy_floats (u32 (ch * total_length) + offset)
                            (data b) (u32 (ch * length b))
                            (u32 (length b * 4))) tt ;;
         ret (u32 (offset + length b))) 0 ;;
    set_size buffer_size ;;
    ret (total_length, output')
  end.

(** [(uint32_t)(source->length * ratio)] with
    [ratio = (double)target_sample_rate / source->sample_rate]. *)
Definition resample_ratio (source_rate target_rate : Z) : F64.t :=
  F64.div (F64.of_Z target_rate) (F64.of_Z source_rate).

Definition resample_length (length_ source_rate target_rate : Z) : option Z :=
  to_uint32 (F64.mul (F64.of_Z length_) (resample_ratio source_rate target_rate)).

Definition wasm_resample_audio
    (source : AudioBuffer) (target_sample_rate : Z) (output : AudioBuffer)
  : M (Z * AudioBuffer) :=
  if sample_rate source =? target_sample_rate then ret (length source, output) else
  let ratio := resample_ratio (sample_rate source) target_sample_rate in
  target_length <- lift (resample_length (length source) (sample_rate source)
                                         target_sample_rate) ;;
  let buffer_size := u32 (target_length * num_channels source * 4) in
  ok <- reserve buffer_size ;;
  if negb ok then ret (0, output) else
  let output' := {| data := ArenaBase; length := target_length;
                    num_channels := num_channels source;
                    sample_rate := target_sample_rate |} in
  for_loop (Z.to_nat (num_channels source)) 0
    (fun ch _ =>
       let src := u32 (ch * length source) in
       let dst := u32 (ch * target_length) in
       for_loop (Z.to_nat target_length) 0
         (fun i _ =>
            let src_pos := F64.div (F64.of_Z i) ratio in
            src_idx <- lift (to_uint32 src_pos) ;;
            let frac := F64.sub src_pos (F64.of_Z src_idx) in
            if src_idx >=? u32 (length source - 1) then
              x <- load_float (data source) (src + u32 (length source - 1)) ;;
              store_floats (dst + i) [x]
            else
              x0 <- load_float (data source) (src + src_idx) ;;
              x1 <- load_float (data source) (src + u32 (src_idx + 1)) ;;
              store_floats (dst + i)
                [F64.to_f32 (F64.add (F64.mul (F64.of_f32 x0) (F64.sub (F64.of_Z 1) frac))
                                     (F64.mul (F64.of_f32 x1) frac))]) tt) tt ;;
  set_size buffer_size ;;
  ret (target_length, output').

(** The descriptor is returned with the pointer value after the update:
    host memory is a value of the model. *)
Definition wasm_adjust_volume (buffer_ : AudioBuffer) (volume : F32.t)
  : M AudioBuffer :=
  let total_samples := u32 (length buffer_ * num_channels buffer_) in
  p <- for_loop (Z.to_nat total_samples) 0
         (fun i p =>
            x <- load_float p i ;;
            store_float p i (fmaxf F32.minus_one (fminf F32.one (F32.mul x volume))))
         (data buffer_) ;;
  ret {| data := p; length := length buffer_;
         num_channels := num_channels buffer_; sample_rate := sample_rate buffer_ |}.

Definition wasm_cross_fade
    (buffer1 buffer2 : AudioBuffer) (fade_length : Z) (output : AudioBuffer)
  : M (Z * AudioBuffer) :=
  let total_length := u32 (length buffer1 + length buffer2 - fade_length) in
  let num_channels_ := num_channels buffer1 in
  let buffer_size := u32 (total_length * num_channels_ * 4) in
  ok <- reserve buffer_size ;;
  if negb ok then ret (0, output) else
  let output' := {| data := ArenaBase; length := total_length;
                    num_channels := num_channels_;
                    sample_rate := sample_rate buffer1 |} in
  let head := u32 (length buffer1 - fade_length) in
  for_loop (Z.to_nat num_channels_) 0
    (fun ch _ =>
       memcpy_floats (u32 (ch * total_length))
                     (data buffer1) (u32 (ch * length buffer1))
                     (u32 (head * 4))) tt ;;
  for_loop (Z.to_nat fade_length) 0
    (fun i _ =>
       let fade_out := F32.div (F32.of_Z i) (F32.of_Z fade_length) in
       let fade_in := F32.sub F32.one fade_out in
       for_loop (Z.to_nat num_channels_) 0
         (fun ch _ =>
            src1 <- load_float (data buffer1) (u32 (ch * length buffer1) + head + i) ;;
            src2 <- load_float (data buffer2) (u32 (ch * length buffer2) + i) ;;
            store_floats (u32 (ch * total_length) + head + i)
              [F32.add (F32.mul src1 fade_out) (F32.mul src2 fade_in)]) tt) tt ;;
  let offset := u32 (head + fade_length) in
  for_loop (Z.to_nat num_channels_) 0
    (fun ch _ =>
       memcpy_floats (u32 (ch * total_length) + offset)
                     (data buffer2) (u32 (ch * length buffer2) + fade_length)
                     (u32 (u32 (length buffer2 - fade_length) * 4))) tt ;;
  set_size buffer_size ;;
  ret (total_length, output').

End Allocator.

(** ** Specification-level predicates and the inputs of the examples *)

(** The arena invariant of the specification: [used <= capacity], and the
    storage pointer is null exactly when the capacity is 0. *)
Definition arena_invariant (g : MemoryBuffer) : Prop :=
  0 <= size g <= capacity g /\ (buffer g = None <-> capacity g = 0).

(** The recorded capacity is backed by the block: writes below [capacity]
    stay inside the allocation. *)
Definition arena_consistent (g : MemoryBuffer) : Prop :=
  match buffer g with
  | Some b => 0 <= capacity g <= blk_size b
  | None => capacity g = 0
  end.

(** The value of cell [i] of a cell array, [None] when undefined. *)
Definition cell_at {A} (a : list (option A)) (i : nat) : option A :=
  match nth_error a i with
  | Some c => c
  | None => None
  end.

(** An allocator that grants every request, and one of a 16 MiB heap. *)
Definition grant_all (n : Z) : bool := true.
Definition grant_16MiB (n : Z) : bool := n <=? 16777216.

Definition no_output : AudioBuffer :=
  {| data := NullPtr; length := 0; num_channels := 0; sample_rate := 0 |}.

Definition mono (cells : list F32.t) (rate : Z) : AudioBuffer :=
  {| data := HostMem cells; length := Z.of_nat (List.length cells);
     num_channels := 1; sample_rate := rate |}.

(** An arena of 1024 bytes right after a successful [wasm_init_memory]. *)
Definition arena_1024 : MemoryBuffer :=
  {| buffer := Some {| blk_size := 1024; blk_data := Indeterminate |};
     size := 0; capacity := 1024 |}.

(** The float, or the byte, that a reader finds at index [i] of the arena. *)
Definition fcell (g : MemoryBuffer) (i : Z) : option F32.t :=
  cell_at (arena_floats g) (Z.to_nat i).

Definition bcell (g : MemoryBuffer) (i : Z) : option Z :=
  cell_at (arena_bytes g) (Z.to_nat i).

(** The call [c] returns from state [g], with a result and a final state
    that satisfy [Q]. *)
Definition returns {A} (c : M A) (g : MemoryBuffer)
    (Q : A -> MemoryBuffer -> Prop) : Prop :=
  exists a g', c g = Some (a, g') /\ Q a g'.

(** Only the contents of the arena block differ between [g] and [g']. *)
Definition same_frame (g g' : MemoryBuffer) : Prop :=
  size g' = size g /\ capacity g' = capacity g
  /\ option_map blk_size (buffer g') = option_map blk_size (buffer g).

(** The arena block exists and holds at least [n] bytes. *)
Definition room (g : MemoryBuffer) (n : Z) : Prop :=
  exists b, buffer g = Some b /\ n <= blk_size b.

(** The buffers of the crossfade scenario, and the mix the fade loop
    computes at local index [i] of a fade of [n] frames. *)
Definition four_ones : list F32.t := map F32.of_Z [1; 1; 1; 1].
Definition four_zeros : list F32.t := map F32.of_Z [0; 0; 0; 0].

Definition fade_mix (a b : F32.t) (i n : Z) : F32.t :=
  let fade_out := F32.div (F32.of_Z i) (F32.of_Z n) in
  let fade_in := F32.sub F32.one fade_out in
  F32.add (F32.mul a fade_out) (F32.mul b fade_in).

(** ** Quantization, specification side *)

(** For a finite float of mantissa [m] and exponent [e <= 0] and an integer
    [K]: the floor and the ceiling of the exact product [m * 2^e * K]. *)
Definition floor_scaled (m : positive) (e K : Z) : Z := Zpos m * K / 2 ^ (- e).
Definition ceil_scaled (m : positive) (e K : Z) : Z := - (- (Zpos m * K) / 2 ^ (- e)).

(** Truncation toward zero of [P * 2^e], for [0 <= P]. *)
Definition scaled_trunc (P e : Z) : Z :=
  if 0 <=? e then P * 2 ^ e else P / 2 ^ (- e).

(** The code of a clamped sample [c] in the words of the specification:
    a negative sample is scaled by [2^(bits-1)], a non-negative one by
    [2^(bits-1) - 1], and the exact product is truncated toward zero. *)
Definition spec_quantize (bits : Z) (c : F32.t) : Z :=
  match c with
  | S754_finite true m e => - scaled_trunc (Zpos m * 2 ^ (bits - 1)) e
  | S754_finite false m e => scaled_trunc (Zpos m * (2 ^ (bits - 1) - 1)) e
  | _ => 0
  end.

(** [P / 2^n] rounded to the nearest integer, ties to even. *)
Definition nearest_even (P n : Z) : Z :=
  let q := P / 2 ^ n in
  match 2 * (P mod 2 ^ n) ?= 2 ^ n with
  | Lt => q
  | Eq => if Z.even q then q else q + 1
  | Gt => q + 1
  end.

(** The exact product [P * 2^e <= 2^24] rounded to 24 significant bits, to
    nearest and ties to even, and then truncated toward zero: the
    [log2 P - 23] low-order bits of [P] are rounded away first. *)
Definition round_trunc (P e : Z) : Z :=
  let n := Z.max (Z.log2 P - 23) 0 in
  nearest_even P n / 2 ^ (- (e + n)).

(** The code of a clamped sample [c] in the words of the amended claim, in
    integer arithmetic: the product of a negative sample and [2^(bits-1)]
    is exact and truncated toward zero; the product of a non-negative
    sample and [2^(bits-1) - 1] is rounded to single precision before it is
    truncated. *)
Definition quantize (bits : Z) (c : F32.t) : Z :=
  match c with
  | S754_finite true m e => - scaled_trunc (Zpos m * 2 ^ (bits - 1)) e
  | S754_finite false m e => round_trunc (Zpos m * (2 ^ (bits - 1) - 1)) e
  | _ => 0
  end.

(** The sample lies in [-1, 1]. *)
Definition unit_range (c : F32.t) : Prop :=
  match c with
  | S754_zero _ => True
  | S754_finite _ m e => -149 <= e <= -23 /\ Zpos m <= 2 ^ (- e) /\ Zpos m < 2 ^ 24
  | _ => False
  end.

(** What [k] steps of the shift keep of a mantissa [P]. *)
Definition shifted (P k : Z) (mrs : shr_record) : Prop :=
  shr_m mrs = P / 2 ^ k /\
  (shr_r mrs || shr_s mrs = true -> P mod 2 ^ k <> 0).

(** What [k] steps of the shift keep of a mantissa [P], and what they
    record of the bits they drop. *)
Definition lost_bits (P k : Z) (mrs : shr_record) : Prop :=
  shr_m mrs = P / 2 ^ k
  /\ shr_r mrs = (2 ^ k <=? 2 * (P mod 2 ^ k))
  /\ shr_s mrs = negb (2 * (P mod 2 ^ k) mod 2 ^ k =? 0).

(** ** Merge, specification side *)

(** The floats a descriptor of host memory designates. *)
Definition host_cells (b : AudioBuffer) : list F32.t :=
  match data b with
  | HostMem cells => cells
  | _ => []
  end.

(** A descriptor of host memory that holds all the samples it announces. *)
Definition host_buffer (b : AudioBuffer) : Prop :=
  data b = HostMem (host_cells b)
  /\ 0 <= length b /\ 0 <= num_channels b
  /\ length b * num_channels b <= Z.of_nat (List.length (host_cells b)).

Definition total_frames (bs : list AudioBuffer) : Z :=
  fold_right (fun b acc => length b + acc) 0 bs.

(** [offset_k]: the frames of the buffers before buffer [k]. *)
Definition offset_of (bs : list AudioBuffer) (k : nat) : Z :=
  total_frames (firstn k bs).

(** Channel [c] of a planar buffer, and the concatenation of channel [c]
    across a list of buffers. *)
Definition channel (b : AudioBuffer) (c : Z) : list F32.t :=
  firstn (Z.to_nat (length b)) (skipn (Z.to_nat (c * length b)) (host_cells b)).

Definition merged_channel (bs : list AudioBuffer) (c : Z) : list F32.t :=
  flat_map (fun b => channel b c) bs.


(** The two buffers of the merge scenario. *)
Definition three_frames : AudioBuffer := mono (map F32.of_Z [1; 2; 3]) 44100.
Definition five_frames : AudioBuffer := mono (map F32.of_Z [4; 5; 6; 7; 8]) 44100.


(** ** WAV encoding, specification side *)

(** The bytes [bs] stand at offset [off] of the arena. *)
Definition bytes_at (g : MemoryBuffer) (off : Z) (bs : list Z) : Prop :=
  forall j, (j < List.length bs)%nat -> bcell g (off + Z.of_nat j) = nth_error bs j.

(** The header of the specification for [L] frames of [C] channels at rate
    [R] and [bits] bits per sample ([byte_rate] modulo 2^32). *)
Definition wav_header (L C R bits : Z) : WAVHeader :=
  {| riff := RIFF; file_size := 44 + L * C * (bits / 8) - 8; wave := WAVE;
     fmt := FMT_; fmt_size := 16; audio_format := 1;
     hdr_channels := C; hdr_sample_rate := R;
     byte_rate := u32 (R * (C * (bits / 8)));
     block_align := C * (bits / 8); bits_per_sample := bits;
     data_tag := DATA; data_size := L * (C * (bits / 8)) |}.

(** The integer code of a sample at a supported bit depth. *)
Definition sample_code (bits : Z) (x : F32.t) : option Z :=
  if bits =? 16 then encode_sample16 x else encode_sample24 x.


(** The payload the two encoding loops leave behind, [w] bytes per
    sample. *)
Definition payload_written (code : F32.t -> option Z) (w : nat) (cells : list F32.t)
    (n : Z) (g : MemoryBuffer) : Prop :=
  forall k, 0 <= k < n ->
    exists x z, nth_error cells (Z.to_nat k) = Some x /\ code x = Some z
                /\ bytes_at g (44 + Z.of_nat w * k) (le_bytes w z).


(** ** WAV decoding, specification side *)

(** The three tags the decoder compares, at their canonical offsets. *)
Definition magic_ok (wav_data : list Z) : bool :=
  match load_bytes wav_data 0 4, load_bytes wav_data 8 4, load_bytes wav_data 12 4 with
  | Some r, Some w, Some f => tag_eqb r RIFF && tag_eqb w WAVE && tag_eqb f FMT_
  | _, _, _ => false
  end.

(** A 48-byte file: 8 bits per sample, sample rate 0, four bytes of data. *)
Definition eight_bit_wav : list Z :=
  header_bytes
    {| riff := RIFF; file_size := 40; wave := WAVE; fmt := FMT_; fmt_size := 16;
       audio_format := 1; hdr_channels := 1; hdr_sample_rate := 0; byte_rate := 0;
       block_align := 1; bits_per_sample := 8; data_tag := DATA; data_size := 4 |}
    ++ [128; 128; 128; 128].


(** The contents of the arena block; a null arena holds nothing. *)
Definition arena_payload (g : MemoryBuffer) : payload :=
  match buffer g with
  | Some b => blk_data b
  | None => Indeterminate
  end.

(** The float the decoder computes for sample [i] of a 16-bit or a 24-bit
    payload. *)
Definition pcm_sample (bits : Z) (wav_data : list Z) (i : Z) : option F32.t :=
  if bits =? 16 then
    match load_bytes wav_data (44 + 2 * i) 2 with
    | Some bs => Some (decode_sample 32768 32767 (signed 16 (le_value bs)))
    | None => None
    end
  else
    match field wav_data (44 + 3 * i) 1, field wav_data (44 + 3 * i + 1) 1,
          field wav_data (44 + 3 * i + 2) 1 with
    | Some b0, Some b1, Some b2 =>
        Some (decode_sample 8388608 8388607
                (Z.lor (Z.lor b0 (Z.shiftl b1 8)) (Z.shiftl (signed 8 b2) 16)))
    | _, _, _ => None
    end.


(** ** Resampling, specification side *)

(** The position in the source of output frame [i] converts to [uint32]. *)
Definition position_converts (source_rate target_rate i : Z) : Prop :=
  to_uint32 (F64.div (F64.of_Z i) (resample_ratio source_rate target_rate)) <> None.


(** 400 frames of silence at 8000 Hz, and the four frames of the resampling
    scenario at 1000 Hz. *)
Definition silence_400 : AudioBuffer :=
  {| data := HostMem (repeat F32.zero 400); length := 400;
     num_channels := 1; sample_rate := 8000 |}.

Definition zero_one_zero_one : AudioBuffer := mono (map F32.of_Z [0; 1; 0; 1]) 1000.


(** A computation that, when it returns, has changed at most the contents
    of the arena block. *)
Definition frame_preserving {A} (c : M A) : Prop :=
  forall g a g', c g = Some (a, g') -> same_frame g g'.

(** A computation that, when it returns, has set [size] to [n] and changed
    otherwise at most the contents of the arena block. *)
Definition sets_size {A} (n : Z) (c : M A) : Prop :=
  forall g a g', c g = Some (a, g') ->
    size g' = n /\ capacity g' = capacity g
    /\ option_map blk_size (buffer g') = option_map blk_size (buffer g).

(** ** Calls, images and the inputs of further examples *)

(** A call of one of the exported functions, with its arguments. *)
Inductive call :=
| InitMemory (size_ : Z)
| GetMemoryBuffer
| Cleanup
| AudioBufferToWav (audio_data : fptr)
    (length_ num_channels_ sample_rate_ bits_per_sample_ : Z)
| WavToAudioBuffer (wav_data : list Z) (wav_size : Z) (output : AudioBuffer)
| SliceAudio (source : AudioBuffer) (start_sample slice_length : Z)
| MergeAudioBuffers (buffers : list AudioBuffer) (num_buffers : Z)
    (output : AudioBuffer)
| ResampleAudio (source : AudioBuffer) (target_sample_rate : Z)
    (output : AudioBuffer)
| AdjustVolume (buffer_ : AudioBuffer) (volume : F32.t)
| CrossFade (buffer1 buffer2 : AudioBuffer) (fade_length : Z)
    (output : AudioBuffer)
| GetBufferSize.

(** The effect of a call on the arena, its result dropped. *)
Definition run (heap_grants : Z -> bool) (c : call) : M unit :=
  match c with
  | InitMemory n => wasm_init_memory heap_grants n ;; ret tt
  | GetMemoryBuffer => wasm_get_memory_buffer ;; ret tt
  | Cleanup => wasm_cleanup
  | AudioBufferToWav p l c r b => wasm_audio_buffer_to_wav heap_grants p l c r b ;; ret tt
  | WavToAudioBuffer w n o => wasm_wav_to_audio_buffer heap_grants w n o ;; ret tt
  | SliceAudio s a l => wasm_slice_audio heap_grants s a l ;; ret tt
  | MergeAudioBuffers bs n o => wasm_merge_audio_buffers heap_grants bs n o ;; ret tt
  | ResampleAudio s t o => wasm_resample_audio heap_grants s t o ;; ret tt
  | AdjustVolume b v => wasm_adjust_volume b v ;; ret tt
  | CrossFade b1 b2 f o => wasm_cross_fade heap_grants b1 b2 f o ;; ret tt
  | GetBufferSize => wasm_get_buffer_size ;; ret tt
  end.

(** A sequence of calls, one after the other. *)
Fixpoint run_all (heap_grants : Z -> bool) (cs : list call) : M unit :=
  match cs with
  | [] => ret tt
  | c :: cs' => run heap_grants c ;; run_all heap_grants cs'
  end.

(** A call of [wasm_init_memory] asks for a nonzero size that the allocator
    grants; the other calls are not restricted. *)
Definition init_granted (heap_grants : Z -> bool) (c : call) : Prop :=
  match c with
  | InitMemory n => 0 < n /\ heap_grants n = true
  | _ => True
  end.

(** The calls that leave a result in the arena. *)
Definition producing (c : call) : bool :=
  match c with
  | AudioBufferToWav _ _ _ _ _ | WavToAudioBuffer _ _ _ | SliceAudio _ _ _
  | MergeAudioBuffers _ _ _ | ResampleAudio _ _ _ | CrossFade _ _ _ _ => true
  | _ => false
  end.

(** An allocator with no memory left. *)
Definition heap_exhausted (n : Z) : bool := false.

(** A canonical header that announces no channels, followed by four bytes
    of data. *)
Definition no_channel_wav : list Z :=
  header_bytes
    {| riff := RIFF; file_size := 40; wave := WAVE; fmt := FMT_; fmt_size := 16;
       audio_format := 1; hdr_channels := 0; hdr_sample_rate := 8000; byte_rate := 0;
       block_align := 0; bits_per_sample := 16; data_tag := DATA; data_size := 4 |}
    ++ [0; 0; 0; 0].

(** The cells of a host buffer once the first [k] have been scaled. *)
Definition scaled_prefix (volume : F32.t) (k : nat) (cells : list F32.t)
  : list F32.t :=
  map (fun x => clamp (F32.mul x volume)) (firstn k cells) ++ skipn k cells.

(** [P] holds of the [n] integers from [v] on. *)
Fixpoint all_codes (n : nat) (v : Z) (P : Z -> bool) : bool :=
  match n with
  | O => true
  | S n' => P v && all_codes n' (v + 1) P
  end.

(** The decoded 16-bit sample is a float of [-1, 1] whose code is [v]. *)
Definition round_trips16 (v : Z) : bool :=
  let x := decode_sample 32768 32767 v in
  F32.valid x && negb (is_nan x)
  && SFleb F32.minus_one x && SFleb x F32.one
  && match encode_sample16 x with
     | Some z => z =? v
     | None => false
     end.

(** The first [n] bytes of the arena as the host copies them out of it. *)
Definition arena_image (g : MemoryBuffer) (n : Z) : option (list Z) :=
  defined (firstn (Z.to_nat n) (arena_bytes g)).

(** The float the decoder computes from the code [z] of a sample. *)
Definition sample_value (bits z : Z) : F32.t :=
  if bits =? 16 then decode_sample 32768 32767 z
  else decode_sample 8388608 8388607 z.

(** The value of output frame [i] of channel [c]: the last frame of the
    channel when the source position is at or behind it, the linear
    interpolation of the two neighbours in double precision otherwise. *)
Definition interpolated (cells : list F32.t) (L : Z) (ratio : F64.t) (c i : Z)
  : option F32.t :=
  let src_pos := F64.div (F64.of_Z i) ratio in
  match to_uint32 src_pos with
  | None => None
  | Some src_idx =>
      let frac := F64.sub src_pos (F64.of_Z src_idx) in
      if src_idx >=? L - 1 then nth_error cells (Z.to_nat (c * L + (L - 1)))
      else
        match nth_error cells (Z.to_nat (c * L + src_idx)),
              nth_error cells (Z.to_nat (c * L + (src_idx + 1))) with
        | Some x0, Some x1 =>
            Some (F64.to_f32
                    (F64.add (F64.mul (F64.of_f32 x0) (F64.sub (F64.of_Z 1) frac))
                             (F64.mul (F64.of_f32 x1) frac)))
        | _, _ => None
        end
  end.

(** A 16-bit mono header that announces four samples, followed by one. *)
Definition truncated_wav : list Z :=
  header_bytes
    {| riff := RIFF; file_size := 44; wave := WAVE; fmt := FMT_; fmt_size := 16;
       audio_format := 1; hdr_channels := 1; hdr_sample_rate := 8000;
       byte_rate := 16000; block_align := 2; bits_per_sample := 16;
       data_tag := DATA; data_size := 8 |}
    ++ [0; 64].

(** A buffer that announces the sample rate 0, as the decoder passes it on
    from a header without a check. *)
Definition rate_zero_frames : AudioBuffer :=
  {| data := HostMem (map F32.of_Z [1; 2; 3]); length := 3;
     num_channels := 1; sample_rate := 0 |}.

(** A sample just above one half: [8388864 * 2^-24]. *)
Definition above_half : F32.t := S754_finite false 8388864 (-24).

(** * Properties *)

Local Open Scope arena_scope.

(** ** Arena life cycle *)

Lemma arena_invariant_init : arena_invariant g_memory_buffer_init.
Proof. unfold arena_invariant; simpl; split; [lia | tauto]. Qed.

Lemma arena_invariant_cleanup g :
  exists g', wasm_cleanup g = Some (tt, g') /\ arena_invariant g'.
Proof.
  eexists; split; [reflexivity |].
  unfold arena_invariant; simpl; split; [lia | tauto].
Qed.

(** C9 (the code breaks it).  The arena invariant does not survive the
    allocation-failure path of [wasm_init_memory]: starting from a
    1024-byte arena, which satisfies the invariant, a request the allocator
    refuses returns 0 and leaves a null storage pointer next to the old
    capacity 1024. *)
Theorem init_memory_failure_breaks_invariant :
  arena_invariant arena_1024 /\
  exists g',
    wasm_init_memory grant_16MiB 4294967295 arena_1024 = Some (0, g') /\
    buffer g' = None /\ capacity g' = 1024 /\
    ~ arena_invariant g'.
Proof.
  split.
  - unfold arena_invariant; simpl; split; [lia | split; intro H; discriminate H].
  - eexists; split; [reflexivity |]; simpl.
    repeat split.
    intros [_ [H _]]. simpl in H. specialize (H eq_refl). discriminate H.
Qed.

(** ** Merge with no buffers *)

(** C10.  [merge_audio_buffers] with [num_buffers = 0] returns 0 and
    leaves the arena (storage, used, capacity) and the caller's output
    descriptor unchanged. *)
Theorem merge_no_buffers heap_grants buffers output g :
  wasm_merge_audio_buffers heap_grants buffers 0 output g = Some ((0, output), g).
Proof. reflexivity. Qed.

(** ** Resampling at the source rate *)

(** C5 (the code misses it).  When the target rate equals the source rate
    the call returns [source.length] at once: nothing is copied, the
    caller's output descriptor and the arena are left as they were. *)
Theorem resample_same_rate_copies_nothing heap_grants source output g :
  wasm_resample_audio heap_grants source (sample_rate source) output g
  = Some ((length source, output), g).
Proof.
  unfold wasm_resample_audio. rewrite Z.eqb_refl. reflexivity.
Qed.

(** At a one-frame source the returned count is 1 while the output
    descriptor still has length 0 and no data. *)
Example resample_same_rate_example :
  wasm_resample_audio grant_all (mono [F32.half] 44100) 44100 no_output
                      g_memory_buffer_init
  = Some ((1, no_output), g_memory_buffer_init)
  /\ length no_output <> length (mono [F32.half] 44100)
  /\ arena_floats g_memory_buffer_init = [].
Proof. repeat split. discriminate. Qed.

(** ** Slice bounds *)

(** C2 (the code misses it).  A start frame past the end is not clamped
    to zero frames: [source.length - start_frame] wraps around.  With 4
    frames and start frame 4 + 2^30 the call returns 3221225472 frames;
    with start frame 5 it asks for 4294967292 bytes and returns 0 through
    the allocation-failure path, [size] being left as it was. *)
Theorem slice_start_past_end_wraps :
  let source := mono [F32.zero; F32.one; F32.zero; F32.one] 1000 in
  wasm_slice_audio grant_16MiB source 1073741828 1 g_memory_buffer_init
  = Some (3221225472, g_memory_buffer_init)
  /\ wasm_slice_audio grant_16MiB source 5 1 (Build_MemoryBuffer (buffer arena_1024) 64 1024)
     = Some (0, Build_MemoryBuffer (buffer arena_1024) 64 1024)
  /\ wasm_slice_audio grant_all source 5 1 g_memory_buffer_init = None.
Proof. vm_compute. repeat split. Qed.

(** ** Reasoning about cells, stores and loops *)

Lemma cell_at_write_at {A} (a : list (option A)) off vs i :
  cell_at (write_at a off vs) i =
  if (off <=? i)%nat && (i <? off + List.length vs)%nat
  then nth_error vs (i - off)
  else cell_at a i.
Proof.
  unfold cell_at, write_at.
  set (pad := a ++ repeat None (off - List.length a)).
  assert (Hpad : List.length (firstn off pad) = off).
  { rewrite length_firstn. unfold pad. rewrite length_app, repeat_length. lia. }
  destruct (Nat.leb_spec off i) as [Hle | Hlt]; simpl.
  - rewrite nth_error_app2 by lia. rewrite Hpad.
    destruct (Nat.ltb_spec i (off + List.length vs)) as [Hin | Hout].
    + rewrite nth_error_app1 by (rewrite length_map; lia).
      rewrite nth_error_map. destruct (nth_error vs (i - off)); reflexivity.
    + rewrite nth_error_app2 by (rewrite length_map; lia).
      rewrite length_map, nth_error_skipn.
      replace (off + List.length vs + (i - off - List.length vs))%nat with i by lia.
      reflexivity.
  - rewrite nth_error_app1 by lia.
    rewrite nth_error_firstn.
    destruct (Nat.ltb_spec i off) as [_ | Hge]; [| lia].
    unfold pad. rewrite nth_error_app.
    destruct (Nat.ltb_spec i (List.length a)) as [Hia | Hia]; [reflexivity |].
    rewrite nth_error_repeat by lia.
    destruct (nth_error a i) eqn:E; [| reflexivity].
    apply nth_error_None in Hia. congruence.
Qed.

Lemma cell_at_firstn {A} (a : list (option A)) n i :
  cell_at (firstn n a) i = if (i <? n)%nat then cell_at a i else None.
Proof.
  unfold cell_at. rewrite nth_error_firstn.
  destruct (i <? n)%nat; reflexivity.
Qed.

(** *** The rules of [returns] *)

Lemma returns_ret {A} (a : A) g (Q : A -> MemoryBuffer -> Prop) :
  Q a g -> returns (ret a) g Q.
Proof. intro H. exists a, g. split; [reflexivity | exact H]. Qed.

Lemma returns_bind {A B} (c : M A) (k : A -> M B) g Q :
  returns c g (fun a g' => returns (k a) g' Q) -> returns (bind c k) g Q.
Proof.
  intros (a & g' & Hc & b & g'' & Hk & HQ).
  exists b, g''. split; [| exact HQ].
  unfold bind. rewrite Hc. exact Hk.
Qed.

Lemma returns_weaken {A} (c : M A) g (Q Q' : A -> MemoryBuffer -> Prop) :
  returns c g Q -> (forall a g', Q a g' -> Q' a g') -> returns c g Q'.
Proof.
  intros (a & g' & Hc & HQ) Himp. exists a, g'. split; [exact Hc | auto].
Qed.

Lemma returns_lift {A} (o : option A) (a : A) g (Q : A -> MemoryBuffer -> Prop) :
  o = Some a -> Q a g -> returns (lift o) g Q.
Proof. intros -> H. exists a, g. split; [reflexivity | exact H]. Qed.

Lemma returns_get g (Q : MemoryBuffer -> MemoryBuffer -> Prop) :
  Q g g -> returns get g Q.
Proof. intro H. exists g, g. split; [reflexivity | exact H]. Qed.

Lemma returns_put g0 g (Q : unit -> MemoryBuffer -> Prop) :
  Q tt g0 -> returns (put g0) g Q.
Proof. intro H. exists tt, g0. split; [reflexivity | exact H]. Qed.

(** A loop that keeps an invariant returns, and the invariant holds at the
    end. *)
Lemma returns_for_loop {S} (I : Z -> S -> MemoryBuffer -> Prop)
    (body : Z -> S -> M S) :
  forall n i0 s g,
    I i0 s g ->
    (forall i s g, i0 <= i < i0 + Z.of_nat n -> I i s g ->
                   returns (body i s) g (fun s' g' => I (i + 1) s' g')) ->
    returns (for_loop n i0 body s) g (fun s' g' => I (i0 + Z.of_nat n) s' g').
Proof.
  induction n as [| n IH]; intros i0 s g H0 Hstep.
  - simpl. apply returns_ret. rewrite Z.add_0_r. exact H0.
  - simpl for_loop. apply returns_bind.
    eapply returns_weaken; [apply Hstep; [lia | exact H0] |].
    intros s' g' H1. cbv beta.
    replace (i0 + Z.of_nat (Datatypes.S n)) with ((i0 + 1) + Z.of_nat n) by lia.
    apply IH; [exact H1 |].
    intros i s1 g1 Hi. apply Hstep. lia.
Qed.

(** *** Frames *)

Lemma same_frame_refl g : same_frame g g.
Proof. unfold same_frame; auto. Qed.

Lemma same_frame_trans g1 g2 g3 :
  same_frame g1 g2 -> same_frame g2 g3 -> same_frame g1 g3.
Proof. unfold same_frame. intros (? & ? & ?) (? & ? & ?). repeat split; congruence. Qed.

Lemma room_same_frame g g' n : same_frame g g' -> room g n -> room g' n.
Proof.
  intros (_ & _ & Hb) (b & Hbuf & Hn). unfold room.
  rewrite Hbuf in Hb. destruct (buffer g') as [b' |]; [| discriminate].
  simpl in Hb. injection Hb as Hb. exists b'. split; [reflexivity | lia].
Qed.

Lemma room_le g n m : m <= n -> room g n -> room g m.
Proof. intros Hle (b & Hb & Hn). exists b. split; [exact Hb | lia]. Qed.

(** *** Stores and loads *)

Lemma in_range_nat off i n :
  0 <= off -> 0 <= i ->
  ((Z.to_nat off <=? Z.to_nat i)%nat && (Z.to_nat i <? Z.to_nat off + n)%nat)
  = ((off <=? i) && (i <? off + Z.of_nat n)).
Proof.
  intros Hoff Hi.
  destruct (Z.leb_spec off i), (Z.ltb_spec i (off + Z.of_nat n)),
    (Nat.leb_spec (Z.to_nat off) (Z.to_nat i)),
    (Nat.ltb_spec (Z.to_nat i) (Z.to_nat off + n)); simpl; try reflexivity; lia.
Qed.

Lemma in_range_empty off i : (off <=? i) && (i <? off + Z.of_nat 0) = false.
Proof.
  destruct (Z.leb_spec off i), (Z.ltb_spec i (off + Z.of_nat 0)); simpl;
    try reflexivity; lia.
Qed.

Lemma store_floats_returns off vs g :
  0 <= off ->
  vs = [] \/ room g (4 * (off + Z.of_nat (List.length vs))) ->
  returns (store_floats off vs) g
    (fun _ g' =>
       same_frame g g' /\
       forall i, 0 <= i ->
         fcell g' i =
         if (off <=? i) && (i <? off + Z.of_nat (List.length vs))
         then nth_error vs (Z.to_nat (i - off))
         else fcell g i).
Proof.
  intros Hoff Hroom.
  destruct vs as [| v vs'].
  - apply returns_ret. split; [apply same_frame_refl |].
    intros i Hi. cbn [List.length]. rewrite in_range_empty. reflexivity.
  - destruct Hroom as [Hnil | (b & Hb & Hroom)]; [discriminate Hnil |].
    set (ws := v :: vs') in *.
    unfold store_floats. fold ws.
    change (match ws with [] => ret tt | _ :: _ => ?k end) with k.
    unfold returns, bind, get, put. rewrite Hb.
    destruct (Z.leb_spec (4 * (off + Z.of_nat (List.length ws))) (blk_size b)) as [_ | Hbad];
      [| lia].
    eexists; eexists; split; [reflexivity |].
    split; [unfold same_frame; cbn [size capacity buffer]; rewrite Hb; auto |].
    intros i Hi. unfold fcell, arena_floats. cbn [buffer blk_size blk_data float_view].
    rewrite Hb.
    rewrite !cell_at_firstn, cell_at_write_at, in_range_nat by lia.
    assert (Hq : off + Z.of_nat (List.length ws) <= blk_size b / 4)
      by (apply Z.div_le_lower_bound; lia).
    destruct ((off <=? i) && (i <? off + Z.of_nat (List.length ws))) eqn:Hin.
    + apply andb_prop in Hin. destruct Hin as [H1 H2].
      apply Z.leb_le in H1. apply Z.ltb_lt in H2.
      destruct (Nat.ltb_spec (Z.to_nat i) (Z.to_nat (blk_size b / 4))) as [_ | H3]; [| lia].
      f_equal. lia.
    + reflexivity.
Qed.

Lemma store_bytes_returns off vs g :
  0 <= off ->
  vs = [] \/ room g (off + Z.of_nat (List.length vs)) ->
  returns (store_bytes off vs) g
    (fun _ g' =>
       same_frame g g' /\
       forall i, 0 <= i ->
         bcell g' i =
         if (off <=? i) && (i <? off + Z.of_nat (List.length vs))
         then nth_error vs (Z.to_nat (i - off))
         else bcell g i).
Proof.
  intros Hoff Hroom.
  destruct vs as [| v vs'].
  - apply returns_ret. split; [apply same_frame_refl |].
    intros i Hi. cbn [List.length]. rewrite in_range_empty. reflexivity.
  - destruct Hroom as [Hnil | (b & Hb & Hroom)]; [discriminate Hnil |].
    set (ws := v :: vs') in *.
    unfold store_bytes. fold ws.
    change (match ws with [] => ret tt | _ :: _ => ?k end) with k.
    unfold returns, bind, get, put. rewrite Hb.
    destruct (Z.leb_spec (off + Z.of_nat (List.length ws)) (blk_size b)) as [_ | Hbad];
      [| lia].
    eexists; eexists; split; [reflexivity |].
    split; [unfold same_frame; cbn [size capacity buffer]; rewrite Hb; auto |].
    intros i Hi. unfold bcell, arena_bytes. cbn [buffer blk_size blk_data byte_view].
    rewrite Hb.
    rewrite !cell_at_firstn, cell_at_write_at, in_range_nat by lia.
    destruct ((off <=? i) && (i <? off + Z.of_nat (List.length ws))) eqn:Hin.
    + apply andb_prop in Hin. destruct Hin as [H1 H2].
      apply Z.leb_le in H1. apply Z.ltb_lt in H2.
      destruct (Nat.ltb_spec (Z.to_nat i) (Z.to_nat (blk_size b))) as [_ | H3]; [| lia].
      f_equal. lia.
    + reflexivity.
Qed.

(** Loading from host memory leaves the arena alone. *)
Lemma load_floats_host cells off n g :
  0 <= off -> 0 <= n -> off + n <= Z.of_nat (List.length cells) ->
  load_floats (HostMem cells) off n g
  = Some (firstn (Z.to_nat n) (skipn (Z.to_nat off) cells), g).
Proof.
  intros Hoff Hn Hlen. unfold load_floats.
  destruct (Z.eqb_spec n 0) as [-> | Hn0]; [reflexivity |].
  destruct (Z.leb_spec (off + n) (Z.of_nat (List.length cells))); [reflexivity | lia].
Qed.

Lemma load_float_host cells i g x :
  0 <= i -> nth_error cells (Z.to_nat i) = Some x ->
  load_float (HostMem cells) i g = Some (x, g).
Proof.
  intros Hi Hx. unfold load_float, bind.
  assert (Hlen : (Z.to_nat i < List.length cells)%nat)
    by (apply nth_error_Some; congruence).
  rewrite load_floats_host by lia.
  change (Z.to_nat 1) with 1%nat.
  destruct (skipn (Z.to_nat i) cells) as [| y rest] eqn:E.
  - apply (f_equal (@List.length _)) in E. rewrite length_skipn in E. simpl in E. lia.
  - assert (Hy : nth_error (skipn (Z.to_nat i) cells) 0 = Some y) by (rewrite E; reflexivity).
    rewrite nth_error_skipn, Nat.add_0_r, Hx in Hy. injection Hy as ->.
    reflexivity.
Qed.

Lemma nth_error_firstn_skipn {A} (l : list A) off n k :
  (k < n)%nat -> nth_error (firstn n (skipn off l)) k = nth_error l (off + k).
Proof.
  intro Hk. rewrite nth_error_firstn.
  destruct (Nat.ltb_spec k n); [| lia]. apply nth_error_skipn.
Qed.

(** Copying [n] floats of host memory into the arena. *)
Lemma memcpy_floats_host dst cells soff n g :
  0 <= dst -> 0 <= soff -> 0 <= n ->
  soff + n <= Z.of_nat (List.length cells) ->
  n = 0 \/ room g (4 * (dst + n)) ->
  returns (memcpy_floats dst (HostMem cells) soff (4 * n)) g
    (fun _ g' =>
       same_frame g g' /\
       forall i, 0 <= i ->
         fcell g' i =
         if (dst <=? i) && (i <? dst + n)
         then nth_error cells (Z.to_nat (soff + (i - dst)))
         else fcell g i).
Proof.
  intros Hdst Hsoff Hn Hlen Hroom.
  unfold memcpy_floats. apply returns_bind.
  replace (4 * n / 4) with n by (rewrite Z.mul_comm, Z.div_mul; lia).
  unfold returns at 1. rewrite load_floats_host by lia.
  eexists; eexists; split; [reflexivity |].
  set (vs := firstn (Z.to_nat n) (skipn (Z.to_nat soff) cells)).
  assert (Hvs : Z.of_nat (List.length vs) = n).
  { unfold vs. rewrite length_firstn, length_skipn. lia. }
  eapply returns_weaken.
  - apply store_floats_returns; [lia |].
    destruct Hroom as [-> | Hroom].
    + left. unfold vs. reflexivity.
    + right. rewrite Hvs. exact Hroom.
  - intros _ g' [Hf Hcells]. split; [exact Hf |].
    intros i Hi. rewrite Hcells by lia. rewrite Hvs.
    destruct ((dst <=? i) && (i <? dst + n)) eqn:Hin; [| reflexivity].
    apply andb_prop in Hin. destruct Hin as [H1 H2].
    apply Z.leb_le in H1. apply Z.ltb_lt in H2.
    unfold vs. rewrite nth_error_firstn_skipn by lia.
    f_equal. lia.
Qed.

(** *** The growth step *)

Lemma reserve_returns heap_grants n g :
  0 <= n -> arena_consistent g ->
  returns (reserve heap_grants n) g
    (fun ok g' =>
       if ok then
         (n <= capacity g \/ heap_grants n = true)
         /\ arena_consistent g' /\ size g' = size g
         /\ capacity g' = Z.max n (capacity g)
         /\ (n = 0 \/ room g' n)
       else
         g' = g /\ capacity g < n /\ heap_grants n = false).
Proof.
  intros Hn Hc. unfold reserve, realloc. apply returns_bind, returns_get.
  unfold arena_consistent in Hc.
  destruct (Z.gtb_spec n (capacity g)) as [Hgt | Hle].
  - destruct (heap_grants n) eqn:Hh.
    + apply returns_bind, returns_put, returns_ret.
      unfold arena_consistent, room. cbn [buffer size capacity blk_size].
      repeat split; try lia; auto.
      right. eexists. split; [reflexivity |]. cbn [blk_size]. lia.
    + apply returns_ret. repeat split; auto; lia.
  - apply returns_ret. repeat split; auto; try lia.
    destruct (buffer g) as [b |] eqn:Hb.
    + right. exists b. split; [exact Hb | lia].
    + left. lia.
Qed.

Lemma set_size_returns n g (Q : unit -> MemoryBuffer -> Prop) :
  Q tt {| buffer := buffer g; size := n; capacity := capacity g |} ->
  returns (set_size n) g Q.
Proof. intro H. unfold set_size. apply returns_bind, returns_get, returns_put, H. Qed.

Lemma returns_load_float_host cells i x g (Q : F32.t -> MemoryBuffer -> Prop) :
  0 <= i -> nth_error cells (Z.to_nat i) = Some x -> Q x g ->
  returns (load_float (HostMem cells) i) g Q.
Proof.
  intros Hi Hx HQ. exists x, g. split; [apply load_float_host; assumption | exact HQ].
Qed.

Ltac mstep :=
  lazymatch goal with
  | |- returns (bind _ _) _ _ => apply returns_bind
  | |- returns (ret _) _ _ => apply returns_ret
  | |- returns (set_size _) _ _ => apply set_size_returns
  end; cbv beta.
Ltac msteps := repeat mstep.

(** ** The crossfade scenario *)

(** C4, as stated: 6 frames with samples [1, 1, 0, 1, 0, 0].  The code does
    not produce them: the second mixed frame is 1/2, not 1. *)
Lemma cross_fade_scenario_refuted :
  ~ returns (wasm_cross_fade grant_all (mono four_ones 44100) (mono four_zeros 44100)
                             2 no_output)
            g_memory_buffer_init
            (fun r g' =>
               fst r = 6 /\
               map (fcell g') [0; 1; 2; 3; 4; 5]
               = map Some (map F32.of_Z [1; 1; 0; 1; 0; 0])).
Proof.
  intros (r & g' & Hrun & _ & Hcells).
  vm_compute in Hrun. injection Hrun as <- <-.
  vm_compute in Hcells. discriminate Hcells.
Qed.

(** C4, amended.  Crossfading mono A = [1,1,1,1] with mono B = [0,0,0,0]
    at equal sample rates with [fade_length = 2] returns 6 frames whose
    samples are [1, 1, 0, 1/2, 0, 0]: the mixed region follows the rule
    [fade_out = i / fade_length] on A's tail and [fade_in = 1 - fade_out] on
    B's head, which gives weights 0 and 1/2 (not 0 and 1) for [i = 0, 1]. *)
Theorem cross_fade_scenario heap_grants rate output g :
  arena_consistent g ->
  24 <= capacity g \/ heap_grants 24 = true ->
  returns (wasm_cross_fade heap_grants (mono four_ones rate) (mono four_zeros rate)
                           2 output) g
    (fun r g' =>
       r = (6, {| data := ArenaBase; length := 6; num_channels := 1;
                  sample_rate := rate |})
       /\ size g' = 24
       /\ map (fcell g') [0; 1; 2; 3; 4; 5]
          = map Some [F32.one; F32.one; fade_mix F32.one F32.zero 0 2;
                      fade_mix F32.one F32.zero 1 2; F32.zero; F32.zero]
       /\ fade_mix F32.one F32.zero 0 2 = F32.zero
       /\ fade_mix F32.one F32.zero 1 2 = F32.half).
Proof.
  intros Hc Hg.
  unfold wasm_cross_fade.
  change (length (mono four_ones rate)) with 4.
  change (length (mono four_zeros rate)) with 4.
  change (num_channels (mono four_ones rate)) with 1.
  change (data (mono four_ones rate)) with (HostMem four_ones).
  change (data (mono four_zeros rate)) with (HostMem four_zeros).
  change (sample_rate (mono four_ones rate)) with rate.
  change (u32 (4 + 4 - 2)) with 6.
  change (u32 (6 * 1 * 4)) with 24.
  change (u32 (4 - 2)) with 2.
  cbv zeta.
  apply returns_bind.
  eapply returns_weaken; [apply reserve_returns; [lia | exact Hc] |].
  intros ok g1 H1. cbv beta in H1 |- *.
  destruct ok; [| destruct H1 as (_ & ? & ?); destruct Hg; [lia | congruence]].
  destruct H1 as (_ & Hc1 & Hs1 & Hcap1 & [Hz | Hroom]); [lia |].
  cbn [negb].
  change (Z.to_nat 1) with 1%nat. change (Z.to_nat 2) with 2%nat.
  cbn [for_loop].
  change (u32 (0 * 6)) with 0. change (u32 (0 * 4)) with 0.
  change (u32 (2 * 4)) with (4 * 2). change (u32 (2 + 2)) with 4.
  change (0 + 2 + 0) with 2. change (0 + 2 + (0 + 1)) with 3. change (0 + 0) with 0.
  change (0 + (0 + 1)) with 1. change (0 + 4) with 4. change (0 + 2) with 2.
  change (0 + 1) with 1.
  (* the head of A *)
  msteps.
  eapply returns_weaken;
    [apply memcpy_floats_host; try (cbn; lia); right; eapply room_le; [| exact Hroom]; lia |].
  intros [] g2 [Hf2 Hcell2]. msteps.
  (* the two mixed frames *)
  eapply returns_load_float_host; [lia | reflexivity |]. msteps.
  eapply returns_load_float_host; [lia | reflexivity |].
  eapply returns_weaken;
    [apply store_floats_returns; [lia |]; right;
     eapply room_le; [| eapply room_same_frame; [exact Hf2 | exact Hroom]]; cbn; lia |].
  intros [] g3 [Hf3 Hcell3]. msteps.
  eapply returns_load_float_host; [lia | reflexivity |]. msteps.
  eapply returns_load_float_host; [lia | reflexivity |].
  pose proof (same_frame_trans _ _ _ Hf2 Hf3) as Hf13.
  eapply returns_weaken;
    [apply store_floats_returns; [lia |]; right;
     eapply room_le; [| eapply room_same_frame; [exact Hf13 | exact Hroom]]; cbn; lia |].
  intros [] g4 [Hf4 Hcell4]. msteps.
  pose proof (same_frame_trans _ _ _ Hf13 Hf4) as Hf14.
  (* the tail of B *)
  eapply returns_weaken;
    [apply memcpy_floats_host; try (cbn; lia); right;
     eapply room_le; [| eapply room_same_frame; [exact Hf14 | exact Hroom]]; lia |].
  intros [] g5 [Hf5 Hcell5]. msteps.
  split; [reflexivity |]. split; [reflexivity |].
  split; [| split; reflexivity].
  unfold fcell, arena_floats in *. cbn [buffer map].
  rewrite !Hcell5, !Hcell4, !Hcell3, !Hcell2 by lia.
  reflexivity.
Qed.

Lemma cross_fade_scenario_witness :
  arena_consistent g_memory_buffer_init /\
  (24 <= capacity g_memory_buffer_init \/ grant_all 24 = true) /\
  returns (wasm_cross_fade grant_all (mono four_ones 44100) (mono four_zeros 44100)
                           2 no_output) g_memory_buffer_init
    (fun r g' =>
       r = (6, {| data := ArenaBase; length := 6; num_channels := 1;
                  sample_rate := 44100 |})
       /\ size g' = 24
       /\ map (fcell g') [0; 1; 2; 3; 4; 5]
          = map Some [F32.one; F32.one; fade_mix F32.one F32.zero 0 2;
                      fade_mix F32.one F32.zero 1 2; F32.zero; F32.zero]
       /\ fade_mix F32.one F32.zero 0 2 = F32.zero
       /\ fade_mix F32.one F32.zero 1 2 = F32.half).
Proof.
  split; [reflexivity |]. split; [right; reflexivity |].
  apply (cross_fade_scenario grant_all 44100 no_output g_memory_buffer_init);
    [reflexivity | right; reflexivity].
Defined.

(** ** Single-precision rounding *)

Lemma digits2_pos_bounds m :
  2 ^ (Zpos (digits2_pos m) - 1) <= Zpos m < 2 ^ Zpos (digits2_pos m).
Proof.
  induction m as [p IH | p IH |]; cbn [digits2_pos].
  - rewrite Pos2Z.inj_succ.
    replace (Z.succ (Zpos (digits2_pos p)) - 1) with (Z.succ (Zpos (digits2_pos p) - 1)) by lia.
    rewrite !Z.pow_succ_r by lia. lia.
  - rewrite Pos2Z.inj_succ.
    replace (Z.succ (Zpos (digits2_pos p)) - 1) with (Z.succ (Zpos (digits2_pos p) - 1)) by lia.
    rewrite !Z.pow_succ_r by lia. lia.
  - simpl. lia.
Qed.

(** One step of the right shift halves the mantissa and records what is lost. *)
Lemma shr_1_halves mrs :
  0 <= shr_m mrs ->
  shr_1 mrs = {| shr_m := shr_m mrs / 2;
                 shr_r := Z.odd (shr_m mrs);
                 shr_s := shr_r mrs || shr_s mrs |}.
Proof.
  destruct mrs as [m r s]. cbn [shr_m shr_r shr_s]. intro Hm.
  destruct m as [| p | p]; [reflexivity | | lia].
  destruct p as [q | q |]; cbn [shr_1].
  - f_equal. rewrite Pos2Z.inj_xI. symmetry.
    replace (2 * Z.pos q + 1) with (1 + Z.pos q * 2) by lia.
    rewrite Z.div_add by lia. reflexivity.
  - f_equal. rewrite Pos2Z.inj_xO. symmetry.
    rewrite Z.mul_comm, Z.div_mul by lia. reflexivity.
  - reflexivity.
Qed.


Lemma shifted_step P k mrs :
  0 <= P -> 0 <= k -> shifted P k mrs -> shifted P (k + 1) (shr_1 mrs).
Proof.
  intros HP Hk [Hm Hrs].
  assert (Hpow : 0 < 2 ^ k) by (apply Z.pow_pos_nonneg; lia).
  assert (Hm0 : 0 <= shr_m mrs) by (rewrite Hm; apply Z.div_pos; lia).
  rewrite shr_1_halves by exact Hm0. unfold shifted. cbn [shr_m shr_r shr_s].
  rewrite Z.pow_add_r, Z.pow_1_r by lia.
  split.
  - rewrite Hm, Z.div_div by lia. reflexivity.
  - rewrite Z.rem_mul_r by lia. intro H.
    apply orb_prop in H. destruct H as [Hodd | Hold].
    + rewrite Hm in Hodd. rewrite Zodd_mod in Hodd.
      apply Z.eqb_eq in Hodd.
      pose proof (Z.mod_pos_bound P (2 ^ k) Hpow). nia.
    + specialize (Hrs Hold).
      pose proof (Z.mod_pos_bound P (2 ^ k) Hpow).
      pose proof (Z.mod_pos_bound (P / 2 ^ k) 2 ltac:(lia)). nia.
Qed.

Lemma iter_pos_shifted P p : forall k mrs,
  0 <= P -> 0 <= k -> shifted P k mrs ->
  shifted P (k + Zpos p) (iter_pos shr_1 p mrs).
Proof.
  induction p as [q IH | q IH |]; intros k mrs HP Hk H; cbn [iter_pos].
  - replace (k + Z.pos q~1) with (((k + 1) + Zpos q) + Zpos q) by lia.
    apply IH; [lia | lia |]. apply IH; [lia | lia |].
    apply shifted_step; assumption.
  - replace (k + Z.pos q~0) with ((k + Zpos q) + Zpos q) by lia.
    apply IH; [lia | lia |]. apply IH; assumption.
  - apply shifted_step; assumption.
Qed.

(** The shift to the canonical exponent, on a mantissa given exactly. *)
Lemma shr_exact_shifted P e n :
  0 <= P ->
  let '(mrs, e') := shr (shr_record_of_loc P loc_Exact) e n in
  e' = e + Z.max n 0 /\ shifted P (Z.max n 0) mrs.
Proof.
  intro HP. unfold shr. cbn [shr_record_of_loc].
  assert (H0 : shifted P 0 {| shr_m := P; shr_r := false; shr_s := false |}).
  { split; cbn; [rewrite Z.div_1_r; reflexivity | discriminate]. }
  destruct n as [| p | p].
  - split; [cbn; lia | exact H0].
  - split; [lia |]. replace (Z.max (Zpos p) 0) with (0 + Zpos p) by lia.
    apply iter_pos_shifted; [lia | lia | exact H0].
  - split; [cbn; lia | exact H0].
Qed.

Lemma round_nearest_even_cases m mrs :
  round_nearest_even m (loc_of_shr_record mrs) = m \/
  (round_nearest_even m (loc_of_shr_record mrs) = m + 1 /\ shr_r mrs || shr_s mrs = true).
Proof.
  destruct mrs as [m0 [|] [|]]; cbn; auto.
  destruct (Z.even m); auto.
Qed.

Lemma Zdigits2_bounds m :
  0 <= m -> m < 2 ^ Zdigits2 m /\ (0 < m -> 2 ^ (Zdigits2 m - 1) <= m).
Proof.
  intro Hm. destruct m as [| p | p]; [cbn; lia | | lia].
  cbn [Zdigits2]. pose proof (digits2_pos_bounds p). lia.
Qed.

(** A mantissa that stays below [2^24] units of [2^u] is shifted to an
    exponent that is still at most [u]. *)
Lemma fexp_small m e u K :
  0 <= m -> e <= u -> -149 <= u -> K < 2 ^ 24 -> m <= K * 2 ^ (u - e) ->
  fexp 24 128 (Zdigits2 m + e) <= u.
Proof.
  intros Hm He Hu HK Hle.
  destruct (Zdigits2_bounds m Hm) as [_ Hlow].
  unfold fexp, emin.
  assert (Zdigits2 m + e <= 24 + u); [| lia].
  destruct (Z.eq_dec m 0) as [-> | Hm0]; [change (Zdigits2 0) with 0; lia |].
  specialize (Hlow ltac:(lia)).
  assert (Hp : 0 < 2 ^ (u - e)) by (apply Z.pow_pos_nonneg; lia).
  assert (Hlt : 2 ^ (Zdigits2 m - 1) < 2 ^ (24 + (u - e))).
  { rewrite Z.pow_add_r by lia. nia. }
  apply Z.pow_lt_mono_r_iff in Hlt; lia.
Qed.

(** The shift of [binary_round_aux] applied to an exact mantissa between
    [J] and [K] units of [2^u]: the bounds carry over to the new exponent,
    strictly above when bits were lost. *)
Lemma shr_fexp_bounds m e u J K :
  0 <= m -> e <= u -> -149 <= u -> K < 2 ^ 24 ->
  J * 2 ^ (u - e) <= m <= K * 2 ^ (u - e) ->
  let '(mrs, e') := shr_fexp 24 128 m e loc_Exact in
  e <= e' <= u /\
  J * 2 ^ (u - e') <= shr_m mrs <= K * 2 ^ (u - e') /\
  0 <= shr_m mrs /\
  (shr_r mrs || shr_s mrs = true -> shr_m mrs < K * 2 ^ (u - e')).
Proof.
  intros Hm He Hu HK [HJ HKm].
  pose proof (fexp_small m e u K Hm He Hu HK HKm) as Hfexp.
  unfold shr_fexp.
  set (n := fexp 24 128 (Zdigits2 m + e) - e) in *.
  pose proof (shr_exact_shifted m e n Hm) as Hshr.
  destruct (shr (shr_record_of_loc m loc_Exact) e n) as [mrs e'].
  destruct Hshr as [He' [Hsm Hrs]].
  set (t := Z.max n 0) in *.
  assert (Ht : 0 <= t) by lia.
  assert (He'0 : e' <= u) by lia.
  assert (Hpt : 0 < 2 ^ t) by (apply Z.pow_pos_nonneg; lia).
  assert (Hpe' : 0 < 2 ^ (u - e')) by (apply Z.pow_pos_nonneg; lia).
  assert (Hsplit : 2 ^ (u - e) = 2 ^ (u - e') * 2 ^ t).
  { rewrite <- Z.pow_add_r by lia. f_equal. lia. }
  rewrite Hsplit in HJ, HKm.
  split; [lia |].
  rewrite Hsm.
  assert (Hlow : J * 2 ^ (u - e') <= m / 2 ^ t) by (apply Z.div_le_lower_bound; nia).
  assert (Hup : m / 2 ^ t <= K * 2 ^ (u - e')) by (apply Z.div_le_upper_bound; nia).
  split; [lia |]. split; [apply Z.div_pos; lia |].
  intro Hlost. specialize (Hrs Hlost).
  pose proof (Z.div_mod m (2 ^ t) ltac:(lia)) as Hdm.
  pose proof (Z.mod_pos_bound m (2 ^ t) Hpt) as Hmod.
  nia.
Qed.

(** The rounding of an exact product that lies between [J] and [K] units
    of [2^u], for integers below [2^24], stays between them. *)
Lemma round_bounds sx P E u J K :
  E <= u -> -149 <= u <= 104 -> 0 <= J -> K < 2 ^ 24 ->
  J * 2 ^ (u - E) <= Zpos P <= K * 2 ^ (u - E) ->
  match binary_round_aux 24 128 sx (Zpos P) E loc_Exact with
  | S754_zero s' => s' = sx /\ J = 0
  | S754_finite s' m e =>
      s' = sx /\ e <= u /\ J * 2 ^ (u - e) <= Zpos m <= K * 2 ^ (u - e)
  | _ => False
  end.
Proof.
  intros HE Hu HJ HK Hb.
  unfold binary_round_aux.
  pose proof (shr_fexp_bounds (Zpos P) E u J K ltac:(lia) HE ltac:(lia) HK Hb) as H1.
  destruct (shr_fexp 24 128 (Zpos P) E loc_Exact) as [mrs1 e1].
  destruct H1 as (He1 & Hb1 & Hpos1 & Hstrict1).
  set (m2 := round_nearest_even (shr_m mrs1) (loc_of_shr_record mrs1)).
  assert (Hb2 : J * 2 ^ (u - e1) <= m2 <= K * 2 ^ (u - e1) /\ 0 <= m2).
  { destruct (round_nearest_even_cases (shr_m mrs1) mrs1) as [Heq | [Heq Hlost]];
      fold m2 in Heq; rewrite Heq.
    - lia.
    - specialize (Hstrict1 Hlost). lia. }
  destruct Hb2 as [Hb2 Hpos2].
  pose proof (shr_fexp_bounds m2 e1 u J K Hpos2 ltac:(lia) ltac:(lia) HK Hb2) as H2.
  destruct (shr_fexp 24 128 m2 e1 loc_Exact) as [mrs2 e2].
  destruct H2 as (He2 & Hb3 & Hpos3 & _).
  destruct (shr_m mrs2) as [| m3 | m3] eqn:Hm3.
  - split; [reflexivity |].
    assert (0 < 2 ^ (u - e2)) by (apply Z.pow_pos_nonneg; lia). nia.
  - destruct (Z.leb_spec e2 (128 - 24)) as [_ | Hbig]; [| lia].
    repeat split; lia.
  - lia.
Qed.

Lemma SFcompare_finite s1 m1 e1 s2 m2 e2 :
  SFcompare (S754_finite s1 m1 e1) (S754_finite s2 m2 e2)
  = Some match s1, s2 with
         | true, false => Lt
         | false, true => Gt
         | false, false =>
             match e1 ?= e2 with
             | Lt => Lt
             | Gt => Gt
             | Eq => Zpos m1 ?= Zpos m2
             end
         | true, true =>
             match e1 ?= e2 with
             | Lt => Gt
             | Gt => Lt
             | Eq => CompOpp (Zpos m1 ?= Zpos m2)
             end
         end.
Proof. reflexivity. Qed.




Lemma valid_finite sg m e :
  F32.valid (S754_finite sg m e) = true -> -149 <= e /\ Zpos m < 2 ^ 24.
Proof.
  unfold F32.valid, valid_binary, bounded, canonical_mantissa, fexp, emin.
  intro H. apply andb_prop in H. destruct H as [Hc _].
  apply Z.eqb_eq in Hc.
  change (3 - F32.emax - F32.prec) with (-149) in Hc.
  change F32.prec with 24 in Hc.
  split; [lia |].
  pose proof (digits2_pos_bounds m) as [_ Hup].
  assert (Hd : Zpos (digits2_pos m) <= 24) by lia.
  apply (Z.pow_le_mono_r 2) in Hd; lia.
Qed.

Lemma pow2_ge_24 e : e <= -24 -> 2 ^ 24 <= 2 ^ (- e).
Proof. intro H. apply Z.pow_le_mono_r; lia. Qed.

Lemma unit_range_one : unit_range (S754_finite false 8388608 (-23)).
Proof. vm_compute. repeat split; discriminate. Qed.

Lemma unit_range_minus_one : unit_range (S754_finite true 8388608 (-23)).
Proof. vm_compute. repeat split; discriminate. Qed.

Lemma clamp_unit_range s : F32.valid s = true -> unit_range (clamp s).
Proof.
  intro Hv. destruct s as [b | b | | sg m e].
  - destruct b; exact I.
  - destruct b; [apply unit_range_minus_one | apply unit_range_one].
  - apply unit_range_one.
  - destruct (valid_finite sg m e Hv) as [Hemin Hm].
    unfold clamp, fminf, fmaxf.
    change F32.one with (S754_finite false 8388608 (-23)).
    change F32.minus_one with (S754_finite true 8388608 (-23)).
    destruct sg; cbn [is_nan signbit Bool.eqb negb].
    + (* negative *)
      unfold F32.ltb, SFltb. rewrite SFcompare_finite.
      destruct (Z.compare_spec (-23) e) as [He | He | He].
      * assert (Hp : 2 ^ (- e) = 8388608) by (rewrite <- He; vm_compute; reflexivity).
        destruct (Z.compare_spec 8388608 (Zpos m)) as [Hm' | Hm' | Hm']; cbn [CompOpp].
        -- apply unit_range_minus_one.
        -- apply unit_range_minus_one.
        -- unfold unit_range. rewrite Hp. clear Hp. lia.
      * apply unit_range_minus_one.
      * unfold unit_range. pose proof (pow2_ge_24 e ltac:(lia)). lia.
    + (* positive *)
      unfold F32.ltb, SFltb. rewrite SFcompare_finite.
      destruct (Z.compare_spec (-23) e) as [He | He | He].
      * assert (Hp : 2 ^ (- e) = 8388608) by (rewrite <- He; vm_compute; reflexivity).
        destruct (Z.compare_spec 8388608 (Zpos m)) as [Hm' | Hm' | Hm'];
          cbn [is_nan signbit Bool.eqb negb].
        -- unfold unit_range. rewrite Hp. clear Hp. lia.
        -- apply unit_range_one.
        -- unfold unit_range. rewrite Hp. clear Hp. lia.
      * apply unit_range_one.
      * cbn [is_nan signbit Bool.eqb negb].
        unfold unit_range. pose proof (pow2_ge_24 e ltac:(lia)). lia.
Qed.

Lemma trunc_finite sg m e :
  e <= 0 ->
  trunc (S754_finite sg m e)
  = Some (if sg then - (Zpos m / 2 ^ (- e)) else Zpos m / 2 ^ (- e)).
Proof.
  intro He. unfold trunc. destruct e as [| p | p]; [| lia |].
  - change (2 ^ (- 0)) with 1. rewrite Z.shiftl_0_r, Z.div_1_r. reflexivity.
  - rewrite Z.shiftr_div_pow2 by lia. reflexivity.
Qed.

Lemma floor_le_ceil_scaled m e K :
  e <= 0 -> 0 <= K ->
  0 <= floor_scaled m e K <= ceil_scaled m e K.
Proof.
  intros He HK. unfold floor_scaled, ceil_scaled.
  assert (Hd : 0 < 2 ^ (- e)) by (apply Z.pow_pos_nonneg; lia).
  pose proof (Z.mul_div_le (Zpos m * K) _ Hd).
  pose proof (Z.mul_div_le (- (Zpos m * K)) _ Hd).
  split; [apply Z.div_pos; nia | nia].
Qed.

Lemma ceil_scaled_le m e K :
  e <= 0 -> 0 <= K -> Zpos m <= 2 ^ (- e) -> ceil_scaled m e K <= K.
Proof.
  intros He HK Hm. unfold ceil_scaled.
  assert (Hd : 0 < 2 ^ (- e)) by (apply Z.pow_pos_nonneg; lia).
  assert (- K <= - (Zpos m * K) / 2 ^ (- e)); [| lia].
  apply Z.div_le_lower_bound; [lia | nia].
Qed.

(** A sample of magnitude at most 1 times a positive integer constant
    below [2^24]: the truncated single-precision product lies between the
    floor and the ceiling of the exact product. *)
Lemma mul_const_trunc sg m e K mk ek :
  e <= 0 -> Zpos m <= 2 ^ (- e) ->
  ek <= 0 -> 0 < K < 2 ^ 24 -> Zpos mk = K * 2 ^ (- ek) ->
  exists a,
    trunc (F32.mul (S754_finite sg m e) (S754_finite false mk ek))
    = Some (if sg then - a else a)
    /\ floor_scaled m e K <= a <= ceil_scaled m e K.
Proof.
  intros He Hm Hek HK Hmk.
  unfold F32.mul, SFmul. rewrite xorb_false_r.
  pose proof (floor_le_ceil_scaled m e K He ltac:(lia)) as Hfc.
  pose proof (ceil_scaled_le m e K He ltac:(lia) Hm) as Hc.
  assert (Hd : 0 < 2 ^ (- e)) by (apply Z.pow_pos_nonneg; lia).
  assert (Hw : 0 < 2 ^ (- ek)) by (apply Z.pow_pos_nonneg; lia).
  assert (Hb : floor_scaled m e K * 2 ^ (0 - (e + ek)) <= Zpos (m * mk)
               <= ceil_scaled m e K * 2 ^ (0 - (e + ek))).
  { replace (0 - (e + ek)) with (- e + - ek) by lia.
    rewrite Z.pow_add_r, Pos2Z.inj_mul, Hmk by lia.
    unfold floor_scaled, ceil_scaled.
    pose proof (Z.mul_div_le (Zpos m * K) _ Hd).
    pose proof (Z.mul_div_le (- (Zpos m * K)) _ Hd).
    split; nia. }
  pose proof (round_bounds sg (m * mk) (e + ek) 0
                (floor_scaled m e K) (ceil_scaled m e K)
                ltac:(lia) ltac:(lia) ltac:(lia) ltac:(lia) Hb) as Hr.
  change F32.prec with 24. change F32.emax with 128.
  destruct (binary_round_aux 24 128 sg (Z.pos (m * mk)) (e + ek) loc_Exact)
    as [s' | s' | | s' m' e']; try contradiction.
  - destruct Hr as [_ HJ]. exists 0. split; [destruct sg; reflexivity | lia].
  - destruct Hr as (-> & He' & Hlo & Hhi).
    rewrite Z.sub_0_l in Hlo, Hhi.
    assert (Hd' : 0 < 2 ^ (- e')) by (apply Z.pow_pos_nonneg; lia).
    rewrite trunc_finite by lia.
    exists (Zpos m' / 2 ^ (- e')). split; [reflexivity |].
    split; [apply Z.div_le_lower_bound; lia | apply Z.div_le_upper_bound; lia].
Qed.

Lemma div_pow_cancel m a q :
  0 <= a -> 0 <= q -> m * 2 ^ a / 2 ^ (a + q) = m / 2 ^ q.
Proof.
  intros Ha Hq. rewrite Z.pow_add_r, (Z.mul_comm m) by lia.
  apply Z.div_mul_cancel_l; apply Z.pow_nonzero; lia.
Qed.

(** A sample of magnitude at most 1 times a power of two: the product is
    exact. *)
Lemma mul_pow2_trunc sg m e k :
  -149 <= e -> e + k <= 0 -> 0 <= k <= 23 -> Zpos m < 2 ^ 24 ->
  trunc (F32.mul (S754_finite sg m e) (S754_finite false 8388608 (k - 23)))
  = Some (if sg then - floor_scaled m e (2 ^ k) else floor_scaled m e (2 ^ k)).
Proof.
  intros He Hek Hk Hm.
  unfold F32.mul, SFmul. rewrite xorb_false_r.
  change F32.prec with 24. change F32.emax with 128.
  assert (Hb : Zpos m * 2 ^ (e + k - (e + (k - 23))) <= Zpos (m * 8388608)
               <= Zpos m * 2 ^ (e + k - (e + (k - 23)))).
  { replace (e + k - (e + (k - 23))) with 23 by lia.
    rewrite Pos2Z.inj_mul. replace (2 ^ 23) with 8388608 by (vm_compute; reflexivity).
    lia. }
  pose proof (round_bounds sg (m * 8388608) (e + (k - 23)) (e + k) (Zpos m) (Zpos m)
                ltac:(lia) ltac:(lia) ltac:(lia) Hm Hb) as Hr.
  destruct (binary_round_aux 24 128 sg (Z.pos (m * 8388608)) (e + (k - 23)) loc_Exact)
    as [s' | s' | | s' m' e']; try contradiction.
  - destruct Hr as [_ HJ]. lia.
  - destruct Hr as (-> & He' & Hlo & Hhi).
    rewrite trunc_finite by lia.
    assert (Hm' : Zpos m' = Zpos m * 2 ^ (e + k - e')) by lia.
    assert (Heq : Zpos m' / 2 ^ (- e') = floor_scaled m e (2 ^ k)).
    { unfold floor_scaled. rewrite Hm'.
      replace (- e') with ((e + k - e') + (- (e + k))) by lia.
      rewrite div_pow_cancel by lia.
      replace (2 ^ (- e)) with (2 ^ (k + (- (e + k)))) by (f_equal; lia).
      rewrite div_pow_cancel by lia. reflexivity. }
    rewrite Heq. reflexivity.
Qed.

Lemma lost_bits_step P k mrs :
  0 <= P -> 0 <= k -> lost_bits P k mrs -> lost_bits P (k + 1) (shr_1 mrs).
Proof.
  intros HP Hk (Hm & Hr & Hs).
  assert (Hpow : 0 < 2 ^ k) by (apply Z.pow_pos_nonneg; lia).
  assert (Hm0 : 0 <= shr_m mrs) by (rewrite Hm; apply Z.div_pos; lia).
  rewrite shr_1_halves by exact Hm0. unfold lost_bits. cbn [shr_m shr_r shr_s].
  rewrite Z.pow_add_r, Z.pow_1_r by lia.
  pose proof (Z.mod_pos_bound P (2 ^ k) Hpow) as Hrho.
  pose proof (Z.mod_pos_bound (P / 2 ^ k) 2 ltac:(lia)) as Hbeta.
  assert (Hsplit : P mod (2 ^ k * 2) = P mod 2 ^ k + 2 ^ k * ((P / 2 ^ k) mod 2))
    by (apply Z.rem_mul_r; lia).
  split; [| split].
  - rewrite Hm, Z.div_div by lia. reflexivity.
  - rewrite Hm, Zodd_mod, Hsplit.
    destruct (Z.eqb_spec ((P / 2 ^ k) mod 2) 1) as [H1 | H1];
      destruct (Z.leb_spec (2 ^ k * 2) (2 * (P mod 2 ^ k + 2 ^ k * ((P / 2 ^ k) mod 2))));
      try reflexivity; nia.
  - rewrite Hr, Hs.
    rewrite Hsplit, (Z.mul_comm (2 ^ k) 2).
    rewrite Z.mul_mod_distr_l by lia.
    rewrite (Z.mul_comm (2 ^ k)), Z.mod_add, Z.mod_mod by lia.
    destruct (Z.eqb_spec (2 * (P mod 2 ^ k)) 0) as [H0 | H0].
    + assert (Hz : P mod 2 ^ k = 0) by lia. rewrite Hz.
      change (2 * 0) with 0. rewrite Z.mod_0_l by lia.
      destruct (Z.leb_spec (2 ^ k) 0); [lia | reflexivity].
    + cbn [negb].
      destruct (Z.leb_spec (2 ^ k) (2 * (P mod 2 ^ k))) as [Hle | Hlt]; [reflexivity |].
      rewrite Z.mod_small by lia.
      destruct (Z.eqb_spec (2 * (P mod 2 ^ k)) 0); [lia | reflexivity].
Qed.

Lemma iter_pos_lost_bits P p : forall k mrs,
  0 <= P -> 0 <= k -> lost_bits P k mrs ->
  lost_bits P (k + Zpos p) (iter_pos shr_1 p mrs).
Proof.
  induction p as [q IH | q IH |]; intros k mrs HP Hk H; cbn [iter_pos].
  - replace (k + Z.pos q~1) with (((k + 1) + Zpos q) + Zpos q) by lia.
    apply IH; [lia | lia |]. apply IH; [lia | lia |].
    apply lost_bits_step; assumption.
  - replace (k + Z.pos q~0) with ((k + Zpos q) + Zpos q) by lia.
    apply IH; [lia | lia |]. apply IH; assumption.
  - apply lost_bits_step; assumption.
Qed.

(** The shift to the canonical exponent, on a mantissa given exactly. *)
Lemma shr_exact_lost_bits P e n :
  0 <= P ->
  let '(mrs, e') := shr (shr_record_of_loc P loc_Exact) e n in
  e' = e + Z.max n 0 /\ lost_bits P (Z.max n 0) mrs.
Proof.
  intro HP. unfold shr. cbn [shr_record_of_loc].
  assert (H0 : lost_bits P 0 {| shr_m := P; shr_r := false; shr_s := false |}).
  { unfold lost_bits. cbn [shr_m shr_r shr_s].
    change (2 ^ 0) with 1. rewrite Z.div_1_r, Z.mod_1_r. repeat split. }
  destruct n as [| p | p].
  - split; [cbn; lia | exact H0].
  - split; [lia |]. replace (Z.max (Zpos p) 0) with (0 + Zpos p) by lia.
    apply iter_pos_lost_bits; [lia | lia | exact H0].
  - split; [cbn; lia | exact H0].
Qed.

(** Rounding on the record of the dropped bits is rounding to nearest,
    ties to even. *)
Lemma round_nearest_even_lost_bits P k mrs :
  0 <= P -> 0 <= k -> lost_bits P k mrs ->
  round_nearest_even (shr_m mrs) (loc_of_shr_record mrs) = nearest_even P k.
Proof.
  intros HP Hk (Hm & Hr & Hs).
  assert (Hpow : 0 < 2 ^ k) by (apply Z.pow_pos_nonneg; lia).
  pose proof (Z.mod_pos_bound P (2 ^ k) Hpow) as Hrho.
  destruct mrs as [m r s]. cbn [shr_m shr_r shr_s] in *. subst m.
  unfold nearest_even.
  destruct (Z.leb_spec (2 ^ k) (2 * (P mod 2 ^ k))) as [Hle | Hlt].
  - subst r.
    destruct (Z.eqb_spec (2 * (P mod 2 ^ k) mod 2 ^ k) 0) as [H0 | H0]; subst s;
      cbn [negb loc_of_shr_record round_nearest_even].
    + assert (Heq : 2 * (P mod 2 ^ k) = 2 ^ k).
      { pose proof (Z.div_mod (2 * (P mod 2 ^ k)) (2 ^ k) ltac:(lia)) as Hdm.
        rewrite H0 in Hdm.
        assert (2 * (P mod 2 ^ k) / 2 ^ k = 1); [| lia].
        symmetry. apply Z.div_unique with (r := 2 * (P mod 2 ^ k) - 2 ^ k); lia. }
      rewrite Heq, Z.compare_refl. reflexivity.
    + assert (Hgt : 2 ^ k < 2 * (P mod 2 ^ k)).
      { destruct (Z.eq_dec (2 * (P mod 2 ^ k)) (2 ^ k)) as [Heq | Hne]; [| lia].
        rewrite Heq, Z.mod_same in H0 by lia. contradiction. }
      apply Z.compare_gt_iff in Hgt. rewrite Hgt. reflexivity.
  - subst r. apply Z.compare_lt_iff in Hlt. rewrite Hlt.
    destruct s; reflexivity.
Qed.

Lemma Zdigits2_log2 P : 0 < P -> Zdigits2 P = Z.log2 P + 1.
Proof.
  intro HP. destruct (Zdigits2_bounds P ltac:(lia)) as [Hup Hlow].
  specialize (Hlow HP).
  assert (Hd : 1 <= Zdigits2 P) by (destruct P; try lia; cbn; lia).
  assert (Z.log2 P = Zdigits2 P - 1); [| lia].
  apply Z.log2_unique; [lia |].
  replace (Z.succ (Zdigits2 P - 1)) with (Zdigits2 P) by lia. lia.
Qed.

Lemma Zdigits2_below m : 0 <= m -> m < 2 ^ 24 -> Zdigits2 m <= 24.
Proof.
  intros Hm Hlt. destruct (Zdigits2_bounds m Hm) as [_ Hlow].
  destruct (Z.eq_dec m 0) as [-> | Hne]; [cbn; lia |].
  specialize (Hlow ltac:(lia)).
  assert (H : 2 ^ (Zdigits2 m - 1) < 2 ^ 24) by lia.
  apply Z.pow_lt_mono_r_iff in H; lia.
Qed.

(** The single-precision rounding of an exact product [P * 2^E] that is at
    most [K < 2^24], truncated toward zero: [k] low-order bits of [P] are
    dropped, to nearest and ties to even, so that 24 significant bits are
    left. *)
Lemma round_aux_trunc sx P E K :
  E <= 0 -> K < 2 ^ 24 -> Zpos P <= K * 2 ^ (- E) ->
  let k := Z.max (fexp 24 128 (Zdigits2 (Zpos P) + E) - E) 0 in
  E + k <= 0 /\
  trunc (binary_round_aux 24 128 sx (Zpos P) E loc_Exact)
  = Some (if sx then - (nearest_even (Zpos P) k / 2 ^ (- (E + k)))
          else nearest_even (Zpos P) k / 2 ^ (- (E + k))).
Proof.
  intros HE HK Hb k.
  assert (Hb' : 0 * 2 ^ (0 - E) <= Zpos P <= K * 2 ^ (0 - E)).
  { rewrite Z.sub_0_l. lia. }
  unfold binary_round_aux.
  pose proof (shr_fexp_bounds (Zpos P) E 0 0 K ltac:(lia) HE ltac:(lia) HK Hb') as H1.
  pose proof (shr_exact_lost_bits (Zpos P) E
                (fexp 24 128 (Zdigits2 (Zpos P) + E) - E) ltac:(lia)) as H1'.
  fold k in H1'.
  change (shr (shr_record_of_loc (Zpos P) loc_Exact) E
              (fexp 24 128 (Zdigits2 (Zpos P) + E) - E))
    with (shr_fexp 24 128 (Zpos P) E loc_Exact) in H1'.
  destruct (shr_fexp 24 128 (Zpos P) E loc_Exact) as [mrs1 e1].
  destruct H1 as (He1 & Hb1 & Hpos1 & Hstrict1).
  destruct H1' as (He1' & Hlost).
  assert (Hk : 0 <= k) by (unfold k; lia).
  split; [lia |].
  assert (Hemin : -149 <= e1).
  { subst e1. unfold k, fexp, emin. lia. }
  assert (Hm1 : shr_m mrs1 < 2 ^ 24).
  { destruct Hlost as (-> & _).
    destruct (Zdigits2_bounds (Zpos P) ltac:(lia)) as [Hup _].
    apply Z.div_lt_upper_bound; [apply Z.pow_pos_nonneg; lia |].
    rewrite <- Z.pow_add_r by lia.
    eapply Z.lt_le_trans; [exact Hup |].
    apply Z.pow_le_mono_r; [lia |]. unfold k, fexp, emin. lia. }
  pose proof (round_nearest_even_cases (shr_m mrs1) mrs1) as Hcases.
  rewrite (round_nearest_even_lost_bits (Zpos P) k mrs1 ltac:(lia) Hk Hlost) in Hcases |- *.
  set (m2 := nearest_even (Zpos P) k) in *.
  assert (Hm2 : 0 <= m2 <= 2 ^ 24 /\ m2 <= K * 2 ^ (0 - e1)).
  { destruct Hcases as [-> | [-> Hl]]; [lia |]. specialize (Hstrict1 Hl). lia. }
  destruct Hm2 as [Hm2 Hm2K].
  replace (- (E + k)) with (- e1) by lia.
  pose proof (shr_exact_shifted m2 e1 (fexp 24 128 (Zdigits2 m2 + e1) - e1)
                ltac:(lia)) as H2.
  change (shr (shr_record_of_loc m2 loc_Exact) e1
              (fexp 24 128 (Zdigits2 m2 + e1) - e1))
    with (shr_fexp 24 128 m2 e1 loc_Exact) in H2.
  destruct (shr_fexp 24 128 m2 e1 loc_Exact) as [mrs2 e2].
  destruct H2 as (He2 & Hsm2 & _).
  destruct (Z.eq_dec m2 (2 ^ 24)) as [Hcarry | Hnot].
  - (* the rounding carries into a 25th bit *)
    assert (He1neg : e1 <= -1).
    { destruct (Z.le_gt_cases 0 e1) as [Hpos | Hneg]; [| lia].
      assert (Hz : e1 = 0) by lia. rewrite Hz in Hm2K.
      change (2 ^ (0 - 0)) with 1 in Hm2K. lia. }
    rewrite Hcarry in He2, Hsm2.
    change (Zdigits2 (2 ^ 24)) with 25 in He2, Hsm2.
    assert (Ht : Z.max (fexp 24 128 (25 + e1) - e1) 0 = 1)
      by (unfold fexp, emin; lia).
    rewrite Ht in He2, Hsm2.
    change (2 ^ 24 / 2 ^ 1) with 8388608 in Hsm2. rewrite Hsm2.
    destruct (Z.leb_spec e2 (128 - 24)) as [_ | Hbig]; [| lia].
    rewrite trunc_finite by lia.
    assert (Heq : 8388608 / 2 ^ (- e2) = m2 / 2 ^ (- e1)).
    { rewrite Hcarry. replace (- e1) with (1 + (- e2)) by lia.
      change (2 ^ 24) with (8388608 * 2 ^ 1).
      rewrite div_pow_cancel by lia. reflexivity. }
    change (Z.pos 8388608) with 8388608. rewrite Heq. reflexivity.
  - (* 24 bits are enough *)
    pose proof (Zdigits2_below m2 ltac:(lia) ltac:(lia)) as Hd2.
    assert (Ht : Z.max (fexp 24 128 (Zdigits2 m2 + e1) - e1) 0 = 0)
      by (unfold fexp, emin; lia).
    rewrite Ht in He2, Hsm2.
    change (2 ^ 0) with 1 in Hsm2. rewrite Z.div_1_r in Hsm2.
    rewrite Hsm2.
    destruct m2 as [| m3 | m3]; [| | lia].
    + destruct sx; reflexivity.
    + destruct (Z.leb_spec e2 (128 - 24)) as [_ | Hbig]; [| lia].
      rewrite trunc_finite by lia.
      replace e2 with e1 by lia. reflexivity.
Qed.

Lemma nearest_even_scale P n j :
  0 <= n -> 0 <= j -> nearest_even (P * 2 ^ j) (n + j) = nearest_even P n.
Proof.
  intros Hn Hj. unfold nearest_even.
  assert (Hpj : 0 < 2 ^ j) by (apply Z.pow_pos_nonneg; lia).
  assert (Hpn : 0 < 2 ^ n) by (apply Z.pow_pos_nonneg; lia).
  rewrite (Z.pow_add_r 2 n j) by lia.
  rewrite Z.div_mul_cancel_r by lia.
  rewrite Z.mul_mod_distr_r by lia.
  rewrite Z.mul_assoc, <- Zmult_compare_compat_r by lia.
  reflexivity.
Qed.

Lemma nearest_even_exact P j k :
  0 <= k <= j -> nearest_even (P * 2 ^ j) k = P * 2 ^ (j - k).
Proof.
  intros Hk. unfold nearest_even.
  assert (Hpk : 0 < 2 ^ k) by (apply Z.pow_pos_nonneg; lia).
  replace (2 ^ j) with (2 ^ (j - k) * 2 ^ k)
    by (rewrite <- Z.pow_add_r by lia; f_equal; lia).
  rewrite Z.mul_assoc, Z.mod_mul, Z.div_mul by lia.
  change (2 * 0) with 0.
  apply Z.compare_lt_iff in Hpk. rewrite Hpk. reflexivity.
Qed.

(** A sample of magnitude at most 1 times a positive integer constant
    below [2^24]: the single-precision product, truncated. *)
Lemma mul_const_exact sg m e K mk ek :
  -149 <= e <= 0 -> Zpos m <= 2 ^ (- e) ->
  ek <= 0 -> 0 < K < 2 ^ 24 -> Zpos mk = K * 2 ^ (- ek) ->
  trunc (F32.mul (S754_finite sg m e) (S754_finite false mk ek))
  = Some (if sg then - round_trunc (Zpos m * K) e else round_trunc (Zpos m * K) e).
Proof.
  intros He Hm Hek HK Hmk.
  unfold F32.mul, SFmul. rewrite xorb_false_r.
  change F32.prec with 24. change F32.emax with 128.
  assert (Hd : 0 < 2 ^ (- e)) by (apply Z.pow_pos_nonneg; lia).
  assert (Hw : 0 < 2 ^ (- ek)) by (apply Z.pow_pos_nonneg; lia).
  assert (HP : 0 < Zpos m * K) by lia.
  assert (Hprod : Zpos (m * mk) = Zpos m * K * 2 ^ (- ek))
    by (rewrite Pos2Z.inj_mul, Hmk; ring).
  assert (Hb : Zpos (m * mk) <= K * 2 ^ (- (e + ek))).
  { replace (- (e + ek)) with (- e + - ek) by lia.
    rewrite Z.pow_add_r, Hprod by lia. nia. }
  destruct (round_aux_trunc sg (m * mk) (e + ek) K ltac:(lia) ltac:(lia) Hb)
    as [Hk Ht].
  rewrite Ht. clear Ht.
  assert (Hdig : Zdigits2 (Zpos (m * mk)) = - ek + Z.log2 (Zpos m * K) + 1).
  { rewrite Zdigits2_log2 by lia. rewrite Hprod, Z.log2_mul_pow2 by lia. reflexivity. }
  rewrite Hdig in Hk |- *.
  set (k := Z.max (fexp 24 128 (- ek + Z.log2 (Zpos m * K) + 1 + (e + ek)) - (e + ek)) 0)
    in *.
  assert (Heq : nearest_even (Zpos (m * mk)) k / 2 ^ (- (e + ek + k))
                = round_trunc (Zpos m * K) e).
  { unfold round_trunc. rewrite Hprod.
    destruct (Z.le_gt_cases 23 (Z.log2 (Zpos m * K))) as [Hbig | Hsmall].
    - assert (Hkn : k = Z.max (Z.log2 (Zpos m * K) - 23) 0 + - ek)
        by (unfold k, fexp, emin; lia).
      rewrite Hkn, nearest_even_scale by lia.
      f_equal. f_equal. lia.
    - assert (Hkj : 0 <= k <= - ek) by (unfold k, fexp, emin; lia).
      rewrite nearest_even_exact by lia.
      replace (Z.max (Z.log2 (Zpos m * K) - 23) 0) with 0 by lia.
      replace (0 + - ek) with (- ek) by lia.
      replace (- (e + ek + k)) with ((- ek - k) + (- e)) by lia.
      rewrite div_pow_cancel by lia.
      replace (Zpos m * K) with (Zpos m * K * 2 ^ 0) at 2 by (change (2 ^ 0) with 1; lia).
      rewrite (nearest_even_exact (Zpos m * K) 0 0) by lia.
      change (2 ^ (0 - 0)) with 1. rewrite Z.mul_1_r, Z.add_0_r. reflexivity. }
  rewrite Heq. reflexivity.
Qed.

Lemma ceil_le_floor_succ m e K :
  e <= 0 -> ceil_scaled m e K <= floor_scaled m e K + 1.
Proof.
  intro He. unfold ceil_scaled, floor_scaled.
  assert (Hd : 0 < 2 ^ (- e)) by (apply Z.pow_pos_nonneg; lia).
  pose proof (Z.div_mod (Zpos m * K) (2 ^ (- e)) ltac:(lia)) as Hdm.
  pose proof (Z.mod_pos_bound (Zpos m * K) _ Hd) as Hr.
  assert (- (Zpos m * K / 2 ^ (- e)) - 1 <= - (Zpos m * K) / 2 ^ (- e)); [| lia].
  apply Z.div_le_lower_bound; [lia | nia].
Qed.

Lemma scaled_trunc_floor m e K : e <= 0 -> scaled_trunc (Zpos m * K) e = floor_scaled m e K.
Proof.
  intro He. unfold scaled_trunc, floor_scaled.
  destruct (Z.leb_spec 0 e) as [H0 | H0]; [| reflexivity].
  replace e with 0 by lia. change (2 ^ (- 0)) with 1. change (2 ^ 0) with 1.
  rewrite Z.div_1_r. lia.
Qed.

(** The truncated scaled value of a sample of the unit range. *)
Lemma scale_unit_range neg pos bits mp ep c :
  unit_range c ->
  1 <= bits <= 24 -> neg = 2 ^ (bits - 1) -> pos = 2 ^ (bits - 1) - 1 ->
  F32.of_Z neg = S754_finite false 8388608 (bits - 24) ->
  0 < pos -> ep <= 0 -> Zpos mp = pos * 2 ^ (- ep) ->
  F32.of_Z pos = S754_finite false mp ep ->
  trunc (scale neg pos c) = Some (quantize bits c)
  /\ - neg <= quantize bits c <= pos
  /\ spec_quantize bits c <= quantize bits c <= spec_quantize bits c + 1
  /\ (signbit c = true -> quantize bits c = spec_quantize bits c).
Proof.
  intros Hc Hk Hneg Hpos Hfn Hpos0 Hep Hmp Hfp.
  assert (Hnpos : 0 < neg) by (subst neg; apply Z.pow_pos_nonneg; lia).
  assert (Hp24 : pos < 2 ^ 24).
  { assert (2 ^ (bits - 1) <= 2 ^ 23) by (apply Z.pow_le_mono_r; lia).
    assert (2 ^ 23 < 2 ^ 24) by reflexivity. lia. }
  unfold scale. rewrite Hfn, Hfp.
  change (F32.of_Z 0) with (S754_zero false).
  destruct c as [b | b | | sg m e]; try contradiction.
  - destruct b; cbn; repeat split; lia.
  - destruct Hc as ([He1 He2] & Hm1 & Hm24).
    unfold quantize, spec_quantize. rewrite <- Hpos, <- Hneg.
    rewrite !scaled_trunc_floor by lia.
    destruct sg.
    + change (F32.ltb (S754_finite true m e) (S754_zero false)) with true. cbv iota.
      replace (bits - 24) with (bits - 1 - 23) by lia.
      rewrite mul_pow2_trunc by lia. rewrite <- Hneg.
      pose proof (floor_le_ceil_scaled m e neg ltac:(lia) ltac:(lia)).
      pose proof (ceil_scaled_le m e neg ltac:(lia) ltac:(lia) Hm1).
      split; [reflexivity |]. split; [lia |]. split; [lia | reflexivity].
    + change (F32.ltb (S754_finite false m e) (S754_zero false)) with false. cbv iota.
      destruct (mul_const_trunc false m e pos mp ep ltac:(lia) Hm1 Hep ltac:(lia) Hmp)
        as (a & Ha & Hlo & Hhi).
      pose proof (mul_const_exact false m e pos mp ep ltac:(lia) Hm1 Hep ltac:(lia) Hmp)
        as Hex.
      rewrite Hex.
      assert (Haeq : round_trunc (Zpos m * pos) e = a) by congruence.
      rewrite Haeq.
      pose proof (floor_le_ceil_scaled m e pos ltac:(lia) ltac:(lia)).
      pose proof (ceil_scaled_le m e pos ltac:(lia) ltac:(lia) Hm1).
      pose proof (ceil_le_floor_succ m e pos ltac:(lia)).
      split; [reflexivity |]. split; [lia |]. split; [lia | discriminate].
Qed.

Lemma cast_int_in_range lo hi x z :
  trunc x = Some z -> lo <= z <= hi -> cast_int lo hi x = Some z.
Proof.
  intros Ht Hz. unfold cast_int. rewrite Ht.
  destruct (Z.leb_spec lo z), (Z.leb_spec z hi); try lia. reflexivity.
Qed.

Lemma encode_sample16_exact s :
  F32.valid s = true ->
  encode_sample16 s = Some (quantize 16 (clamp s))
  /\ -32768 <= quantize 16 (clamp s) <= 32767
  /\ spec_quantize 16 (clamp s) <= quantize 16 (clamp s) <= spec_quantize 16 (clamp s) + 1
  /\ (signbit (clamp s) = true -> quantize 16 (clamp s) = spec_quantize 16 (clamp s)).
Proof.
  intro Hv.
  destruct (scale_unit_range 32768 32767 16 16776704 (-9) (clamp s)
              (clamp_unit_range s Hv)) as (Hz & Hr & Hs);
    try reflexivity; try lia.
  split; [| split; [lia | exact Hs]].
  apply cast_int_in_range; [exact Hz | lia].
Qed.

Lemma encode_sample24_exact s :
  F32.valid s = true ->
  encode_sample24 s = Some (quantize 24 (clamp s))
  /\ -8388608 <= quantize 24 (clamp s) <= 8388607
  /\ spec_quantize 24 (clamp s) <= quantize 24 (clamp s) <= spec_quantize 24 (clamp s) + 1
  /\ (signbit (clamp s) = true -> quantize 24 (clamp s) = spec_quantize 24 (clamp s)).
Proof.
  intro Hv.
  destruct (scale_unit_range 8388608 8388607 24 16777214 (-1) (clamp s)
              (clamp_unit_range s Hv)) as (Hz & Hr & Hs);
    try reflexivity; try lia.
  split; [| split; [lia | exact Hs]].
  apply cast_int_in_range; [exact Hz | lia].
Qed.

Lemma encode_sample16_defined s :
  F32.valid s = true ->
  exists z, encode_sample16 s = Some z
            /\ z = quantize 16 (clamp s) /\ -32768 <= z <= 32767.
Proof.
  intro Hv. destruct (encode_sample16_exact s Hv) as (Hz & Hr & _).
  eexists. split; [exact Hz |]. split; [reflexivity | exact Hr].
Qed.

Lemma encode_sample24_defined s :
  F32.valid s = true ->
  exists z, encode_sample24 s = Some z
            /\ z = quantize 24 (clamp s) /\ -8388608 <= z <= 8388607.
Proof.
  intro Hv. destruct (encode_sample24_exact s Hv) as (Hz & Hr & _).
  eexists. split; [exact Hz |]. split; [reflexivity | exact Hr].
Qed.


Lemma clamp_above s : SFleb F32.one s = true -> clamp s = F32.one.
Proof.
  change F32.one with (S754_finite false 8388608 (-23)).
  destruct s as [b | b | | sg m e]; try discriminate.
  - destruct b; [discriminate | reflexivity].
  - unfold SFleb. rewrite SFcompare_finite.
    destruct sg; [discriminate |].
    intro H. unfold clamp, fminf, fmaxf.
    change F32.one with (S754_finite false 8388608 (-23)).
    change F32.minus_one with (S754_finite true 8388608 (-23)).
    cbn [is_nan signbit Bool.eqb negb].
    unfold F32.ltb, SFltb. rewrite SFcompare_finite.
    destruct (Z.compare_spec (-23) e) as [He | He | He]; try discriminate.
    + destruct (Z.compare_spec 8388608 (Zpos m)) as [Hm | Hm | Hm]; try discriminate.
      * injection Hm as <-. subst e. reflexivity.
      * reflexivity.
    + reflexivity.
Qed.

Lemma clamp_below s : SFleb s F32.minus_one = true -> clamp s = F32.minus_one.
Proof.
  change F32.minus_one with (S754_finite true 8388608 (-23)).
  destruct s as [b | b | | sg m e]; try discriminate.
  - destruct b; [reflexivity | discriminate].
  - unfold SFleb. rewrite SFcompare_finite.
    destruct sg; [| discriminate].
    intro H. unfold clamp, fminf, fmaxf.
    change F32.one with (S754_finite false 8388608 (-23)).
    change F32.minus_one with (S754_finite true 8388608 (-23)).
    cbn [is_nan signbit Bool.eqb negb].
    unfold F32.ltb, SFltb. rewrite SFcompare_finite.
    rewrite (Z.compare_antisym e (-23)).
    rewrite (Z.compare_antisym (Zpos m) 8388608).
    destruct (Z.compare_spec e (-23)) as [He | He | He]; try discriminate; cbn [CompOpp].
    + destruct (Z.compare_spec (Zpos m) 8388608) as [Hm | Hm | Hm];
        try discriminate; reflexivity.
    + reflexivity.
Qed.

Lemma clamp_inside s :
  SFltb F32.minus_one s = true -> SFltb s F32.one = true -> clamp s = s.
Proof.
  change F32.one with (S754_finite false 8388608 (-23)).
  change F32.minus_one with (S754_finite true 8388608 (-23)).
  destruct s as [b | b | | sg m e]; try discriminate.
  - destruct b; reflexivity.
  - destruct b; discriminate.
  - unfold SFltb. rewrite !SFcompare_finite.
    intros Hlo Hhi. unfold clamp, fminf, fmaxf.
    change F32.one with (S754_finite false 8388608 (-23)).
    change F32.minus_one with (S754_finite true 8388608 (-23)).
    destruct sg; cbn [is_nan signbit Bool.eqb negb];
      unfold F32.ltb, SFltb; rewrite SFcompare_finite.
    + destruct (Z.compare_spec (-23) e) as [He | He | He]; try discriminate.
      * destruct (Z.compare_spec 8388608 (Zpos m)) as [Hm | Hm | Hm];
          try discriminate; reflexivity.
      * reflexivity.
    + rewrite (Z.compare_antisym e (-23)).
      rewrite (Z.compare_antisym (Zpos m) 8388608).
      destruct (Z.compare_spec e (-23)) as [He | He | He]; try discriminate;
        cbn [CompOpp is_nan signbit Bool.eqb negb].
      * destruct (Z.compare_spec (Zpos m) 8388608) as [Hm | Hm | Hm];
          try discriminate; reflexivity.
      * reflexivity.
Qed.

(** ** Merge *)

Lemma u32_small x : 0 <= x < 4294967296 -> u32 x = x.
Proof. intro H. unfold u32. apply Z.mod_small. exact H. Qed.

Lemma total_frames_nonneg bs :
  Forall host_buffer bs -> 0 <= total_frames bs.
Proof.
  induction 1 as [| b bs Hb _ IH]; simpl; [lia |].
  destruct Hb as (_ & Hl & _). lia.
Qed.

Lemma total_frames_app bs1 bs2 :
  total_frames (bs1 ++ bs2) = total_frames bs1 + total_frames bs2.
Proof. induction bs1 as [| b bs1 IH]; simpl; [reflexivity | rewrite IH; lia]. Qed.

Lemma offset_of_succ bs k b :
  nth_error bs k = Some b -> offset_of bs (S k) = offset_of bs k + length b.
Proof.
  unfold offset_of. revert k. induction bs as [| a bs IH]; intros k Hk.
  - destruct k; discriminate.
  - destruct k as [| k].
    + injection Hk as ->. cbn [firstn total_frames fold_right]. lia.
    + cbn [nth_error] in Hk. specialize (IH k Hk).
      cbn [firstn total_frames fold_right] in IH |- *.
      fold (total_frames (firstn k bs)).
      fold (total_frames (firstn k bs)) in IH.
      destruct bs as [| a' bs']; [destruct k; discriminate Hk |].
      cbn [firstn total_frames fold_right] in IH |- *.
      fold (total_frames (firstn k bs')) in IH |- *. lia.
Qed.

Lemma offset_of_le bs k :
  Forall host_buffer bs -> 0 <= offset_of bs k <= total_frames bs.
Proof.
  intro H. unfold offset_of.
  rewrite <- (firstn_skipn k bs) at 3. rewrite total_frames_app.
  pose proof (total_frames_nonneg (firstn k bs)) as H1.
  pose proof (total_frames_nonneg (skipn k bs)) as H2.
  rewrite <- (firstn_skipn k bs) in H. apply Forall_app in H. destruct H as [Ha Hb].
  specialize (H1 Ha). specialize (H2 Hb). lia.
Qed.

Lemma offset_of_all bs : offset_of bs (List.length bs) = total_frames bs.
Proof. unfold offset_of. rewrite firstn_all. reflexivity. Qed.

(** The first loop of the merge on buffers of one format. *)
Lemma merge_total_uniform bs C R g : forall n i acc,
  (i + n <= List.length bs)%nat ->
  Forall (fun b => host_buffer b /\ num_channels b = C /\ sample_rate b = R) bs ->
  acc = offset_of bs i ->
  total_frames bs < 4294967296 ->
  merge_total bs n i C R acc g = Some (Some (offset_of bs (i + n)), g).
Proof.
  induction n as [| n IH]; intros i acc Hlen Hall Hacc Htot.
  - simpl. rewrite Nat.add_0_r, Hacc. reflexivity.
  - cbn [merge_total]. unfold bind, lift.
    destruct (nth_error bs i) as [b |] eqn:Hb;
      [| apply nth_error_None in Hb; lia].
    pose proof Hall as Hall'. rewrite Forall_forall in Hall'.
    destruct (Hall' b (nth_error_In _ _ Hb)) as (Hhost & HC & HR).
    rewrite HC, HR, !Z.eqb_refl. cbn [negb orb].
    replace (i + S n)%nat with (S i + n)%nat by lia.
    apply IH; [lia | exact Hall | | exact Htot].
    rewrite (offset_of_succ bs i b Hb), Hacc.
    apply u32_small.
    assert (Hh : Forall host_buffer bs).
    { apply Forall_forall. intros x Hx. apply (Hall' x Hx). }
    pose proof (offset_of_le bs (S i) Hh) as Hle.
    rewrite (offset_of_succ bs i b Hb) in Hle. lia.
Qed.

(** The first loop stops at a buffer of another format. *)
Lemma merge_total_mismatch bs C R g : forall n i acc,
  (i + n <= List.length bs)%nat ->
  (exists k b, (i <= k < i + n)%nat /\ nth_error bs k = Some b
               /\ (num_channels b <> C \/ sample_rate b <> R)) ->
  merge_total bs n i C R acc g = Some (None, g).
Proof.
  induction n as [| n IH]; intros i acc Hlen (k & b & Hk & Hb & Hdiff).
  - lia.
  - cbn [merge_total]. unfold bind, lift.
    destruct (nth_error bs i) as [bi |] eqn:Hbi;
      [| apply nth_error_None in Hbi; lia].
    destruct (negb (num_channels bi =? C) || negb (sample_rate bi =? R)) eqn:Hm;
      [reflexivity |].
    apply orb_false_elim in Hm. destruct Hm as [H1 H2].
    apply negb_false_iff in H1, H2. apply Z.eqb_eq in H1, H2.
    apply IH; [lia |].
    exists k, b. repeat split; try assumption; try lia.
    destruct (Nat.eq_dec k i) as [-> | Hne]; [| lia].
    rewrite Hbi in Hb. injection Hb as <-. tauto.
Qed.

Lemma channel_length b c :
  host_buffer b -> 0 <= c < num_channels b ->
  List.length (channel b c) = Z.to_nat (length b).
Proof.
  intros (_ & Hl & _ & Hcells) Hc. unfold channel.
  rewrite length_firstn, length_skipn.
  assert (c * length b + length b <= Z.of_nat (List.length (host_cells b))) by nia.
  assert (0 <= c * length b) by nia.
  lia.
Qed.

Lemma channel_nth b c j :
  host_buffer b -> 0 <= c < num_channels b -> 0 <= j < length b ->
  nth_error (channel b c) (Z.to_nat j)
  = nth_error (host_cells b) (Z.to_nat (c * length b + j)).
Proof.
  intros (_ & Hl & _ & Hcells) Hc Hj. unfold channel.
  rewrite nth_error_firstn_skipn by lia.
  f_equal. assert (0 <= c * length b) by nia. lia.
Qed.

Lemma merged_channel_nth C c : forall bs k b j,
  Forall (fun b => host_buffer b /\ num_channels b = C) bs ->
  0 <= c < C ->
  nth_error bs k = Some b -> 0 <= j < length b ->
  nth_error (merged_channel bs c) (Z.to_nat (offset_of bs k + j))
  = nth_error (channel b c) (Z.to_nat j).
Proof.
  induction bs as [| a bs IH]; intros k b j Hall Hc Hk Hj.
  - destruct k; discriminate.
  - inversion Hall as [| ? ? [Ha HaC] Hrest]; subst.
    unfold merged_channel. cbn [flat_map]. fold (merged_channel bs c).
    pose proof (channel_length a c Ha ltac:(lia)) as Hlen.
    destruct Ha as (_ & Hla & _).
    destruct k as [| k].
    + injection Hk as ->.
      change (offset_of (b :: bs) 0) with 0.
      rewrite nth_error_app1 by (rewrite Hlen; lia).
      reflexivity.
    + cbn [nth_error] in Hk.
      assert (Hoff : offset_of (a :: bs) (S k) = length a + offset_of bs k)
        by reflexivity.
      assert (Hrest' : Forall host_buffer bs).
      { eapply Forall_impl; [| exact Hrest]. intros x [Hx _]. exact Hx. }
      pose proof (offset_of_le bs k Hrest') as Hole.
      rewrite Hoff, nth_error_app2 by (rewrite Hlen; lia).
      rewrite Hlen.
      replace (Z.to_nat (length a + offset_of bs k + j) - Z.to_nat (length a))%nat
        with (Z.to_nat (offset_of bs k + j)) by lia.
      apply IH; assumption.
Qed.

Lemma fcell_set_size g n i :
  fcell {| buffer := buffer g; size := n; capacity := capacity g |} i = fcell g i.
Proof. reflexivity. Qed.

Lemma planar_rows c ch L :
  0 <= L -> 0 <= c < ch -> 0 <= c * L /\ c * L + L <= ch * L.
Proof. intros HL Hc. nia. Qed.

Lemma planar_row_nonneg c L : 0 <= L -> 0 <= c -> 0 <= c * L.
Proof. intros. nia. Qed.

Lemma merge_uniform heap_grants bs output g C R :
  bs <> [] ->
  Forall (fun b => host_buffer b /\ num_channels b = C /\ sample_rate b = R) bs ->
  C < 65536 ->
  total_frames bs < 4294967296 ->
  total_frames bs * C * 4 < 4294967296 ->
  arena_consistent g ->
  total_frames bs * C * 4 <= capacity g
    \/ heap_grants (total_frames bs * C * 4) = true ->
  returns (wasm_merge_audio_buffers heap_grants bs (Z.of_nat (List.length bs)) output) g
    (fun r g' =>
       r = (total_frames bs,
            {| data := ArenaBase; length := total_frames bs;
               num_channels := C; sample_rate := R |})
       /\ size g' = total_frames bs * C * 4
       /\ forall c p, 0 <= c < C -> 0 <= p < total_frames bs ->
            fcell g' (c * total_frames bs + p)
            = nth_error (merged_channel bs c) (Z.to_nat p)).
Proof.
  intros Hne Hall HC HL Hsize Hcons Halloc.
  set (L := total_frames bs) in *.
  assert (Hhost : Forall host_buffer bs).
  { eapply Forall_impl; [| exact Hall]. intros x (Hx & _). exact Hx. }
  assert (HallC : Forall (fun b => host_buffer b /\ num_channels b = C) bs).
  { eapply Forall_impl; [| exact Hall]. intros x (Hx & Hc & _). auto. }
  assert (HL0 : 0 <= L) by (apply total_frames_nonneg; exact Hhost).
  pose proof Hall as Hall'. rewrite Forall_forall in Hall'.
  assert (Hlen : (0 < List.length bs)%nat)
    by (destruct bs; [contradiction | cbn [List.length]; lia]).
  destruct (nth_error bs 0) as [b0 |] eqn:Hb0;
    [| apply nth_error_None in Hb0; lia].
  destruct (Hall' b0 (nth_error_In _ _ Hb0)) as (Hhost0 & HC0 & HR0).
  assert (HC0' : 0 <= C) by (destruct Hhost0 as (_ & _ & ? & _); lia).
  assert (HLC : 0 <= L * C) by (apply Z.mul_nonneg_nonneg; lia).
  unfold wasm_merge_audio_buffers.
  destruct (Z.eqb_spec (Z.of_nat (List.length bs)) 0) as [Hz | _]; [lia |].
  apply returns_bind. eapply returns_lift; [exact Hb0 |].
  rewrite HC0, HR0, Nat2Z.id.
  apply returns_bind.
  exists (Some (offset_of bs (0 + List.length bs))), g. split.
  { apply merge_total_uniform; [lia | exact Hall | reflexivity | exact HL]. }
  cbn [Nat.add]. rewrite offset_of_all. fold L.
  rewrite (u32_small (L * C * 4)) by lia.
  apply returns_bind.
  eapply returns_weaken; [apply reserve_returns; [lia | exact Hcons] |].
  intros ok g1 H1. cbv beta in H1 |- *.
  destruct ok; [| destruct H1 as (_ & ? & ?); destruct Halloc; [lia | congruence]].
  destruct H1 as (_ & Hc1 & Hs1 & Hcap1 & Hroom).
  cbn [negb].
  apply returns_bind.
  eapply returns_weaken.
  - apply (returns_for_loop
             (fun i offset g' =>
                same_frame g1 g' /\ offset = offset_of bs (Z.to_nat i)
                /\ forall c p, 0 <= c < C -> 0 <= p < offset ->
                     fcell g' (c * L + p)
                     = nth_error (merged_channel bs c) (Z.to_nat p))).
    + split; [apply same_frame_refl |]. split; [reflexivity |].
      intros c p _ Hp. change (offset_of bs (Z.to_nat 0)) with 0 in Hp. lia.
    + intros i offset g2 Hi (Hf2 & Hoff & Hcells2).
      destruct (nth_error bs (Z.to_nat i)) as [b |] eqn:Hb;
        [| apply nth_error_None in Hb; lia].
      destruct (Hall' b (nth_error_In _ _ Hb)) as (Hhostb & HCb & HRb).
      pose proof Hhostb as (Hdata & Hlb & _ & Hcellsb).
      pose proof (offset_of_succ bs _ b Hb) as Hsucc.
      pose proof (offset_of_le bs (S (Z.to_nat i)) Hhost) as Hle. fold L in Hle.
      pose proof (offset_of_le bs (Z.to_nat i) Hhost) as Hle0. fold L in Hle0.
      rewrite Hsucc, <- Hoff in Hle. rewrite <- Hoff in Hle0.
      apply returns_bind. eapply returns_lift; [reflexivity |].
      apply returns_bind.
      eapply returns_weaken.
      * apply (returns_for_loop
                 (fun ch (_ : unit) g' =>
                    same_frame g1 g'
                    /\ forall c p, 0 <= c < C ->
                         0 <= p < (if c <? ch then offset + length b else offset) ->
                         fcell g' (c * L + p)
                         = nth_error (merged_channel bs c) (Z.to_nat p))).
        -- split; [exact Hf2 |]. intros c p Hc Hp.
           destruct (Z.ltb_spec c 0); [lia |]. apply Hcells2; lia.
        -- intros ch [] g3 Hch (Hf3 & Hcells3).
           rewrite Z2Nat.id in Hch by lia.
           rewrite Hdata.
           destruct (planar_rows ch C L HL0 ltac:(lia)) as [HchL HchL'].
           destruct (planar_rows ch C (length b) Hlb ltac:(lia)) as [Hchb Hchb'].
           rewrite HCb in Hcellsb.
           rewrite (Z.mul_comm (length b) C) in Hcellsb.
           rewrite (Z.mul_comm L C) in Hsize, HLC.
           assert (HbL : C * length b <= C * L)
             by (apply Z.mul_le_mono_nonneg_l; lia).
           rewrite (u32_small (ch * L)) by lia.
           rewrite (u32_small (ch * length b)) by lia.
           rewrite (u32_small (length b * 4)) by lia.
           rewrite (Z.mul_comm (length b) 4).
           eapply returns_weaken.
           ++ apply memcpy_floats_host; try lia.
              destruct (Z.eq_dec (length b) 0) as [Hz | Hnz]; [left; exact Hz | right].
              destruct Hroom as [Hz | Hroom]; [lia |].
              eapply room_le; [| eapply room_same_frame; [exact Hf3 | exact Hroom]].
              lia.
           ++ intros [] g4 (Hf4 & Hcells4). cbv beta.
              split; [eapply same_frame_trans; eassumption |].
              intros c p Hc Hp.
              pose proof (planar_row_nonneg c L HL0 ltac:(lia)) as HcL.
              rewrite Hcells4 by lia.
              destruct (Z.lt_trichotomy c ch) as [Hlt | [-> | Hgt]].
              ** destruct (planar_rows c ch L HL0 ltac:(lia)) as [_ Hrow].
                 destruct (Z.ltb_spec c ch) as [_ | ?]; [| lia].
                 destruct (Z.ltb_spec c (ch + 1)) as [_ | ?]; [| lia].
                 destruct (Z.leb_spec (ch * L + offset) (c * L + p)) as [? | _]; [lia |].
                 cbn [andb]. apply Hcells3; [exact Hc |].
                 destruct (Z.ltb_spec c ch); lia.
              ** destruct (Z.ltb_spec ch (ch + 1)) as [_ | ?]; [| lia].
                 destruct (Z.ltb_spec ch ch) as [? | _]; [lia |].
                 destruct (Z.leb_spec (ch * L + offset) (ch * L + p)) as [Hin1 | Hin1];
                   cbn [andb].
                 --- destruct (Z.ltb_spec (ch * L + p) (ch * L + offset + length b))
                       as [_ | ?]; [| lia].
                     replace (ch * length b + (ch * L + p - (ch * L + offset)))
                       with (ch * length b + (p - offset)) by lia.
                     rewrite <- (channel_nth b ch (p - offset))
                       by (try assumption; lia).
                     rewrite <- (merged_channel_nth C ch bs (Z.to_nat i) b (p - offset))
                       by (try assumption; lia).
                     rewrite <- Hoff. f_equal. f_equal. lia.
                 --- apply Hcells3; [exact Hc |].
                     destruct (Z.ltb_spec ch ch); lia.
              ** destruct (planar_rows ch c L HL0 ltac:(lia)) as [_ Hrow].
                 destruct (Z.ltb_spec c ch) as [? | _]; [lia |].
                 destruct (Z.ltb_spec c (ch + 1)) as [? | _]; [lia |].
                 destruct (Z.ltb_spec (c * L + p) (ch * L + offset + length b))
                   as [? | _]; [lia |].
                 rewrite andb_false_r. apply Hcells3; [exact Hc |].
                 destruct (Z.ltb_spec c ch); lia.
      * intros [] g3 (Hf3 & Hcells3). cbv beta.
        apply returns_ret.
        rewrite Z2Nat.id in Hcells3 by lia.
        split; [exact Hf3 |].
        replace (Z.to_nat (i + 1)) with (S (Z.to_nat i)) by lia.
        rewrite Hsucc, <- Hoff.
        split; [apply u32_small; lia |].
        intros c p Hc Hp. rewrite u32_small in Hp by lia.
        apply Hcells3; [exact Hc |].
        destruct (Z.ltb_spec c (0 + C)); lia.
  - intros offset g2 (Hf2 & Hoff & Hcells2). cbv beta.
    apply returns_bind, set_size_returns, returns_ret.
    split; [reflexivity |].
    split; [reflexivity |].
    intros c p Hc Hp. rewrite fcell_set_size.
    apply Hcells2; [exact Hc |].
    rewrite Hoff. cbn [Z.add]. rewrite Nat2Z.id, offset_of_all. exact Hp.
Qed.

Lemma merge_mismatch heap_grants bs output g :
  bs <> [] ->
  (exists b, In b bs
             /\ (num_channels b <> num_channels (hd no_output bs)
                 \/ sample_rate b <> sample_rate (hd no_output bs))) ->
  wasm_merge_audio_buffers heap_grants bs (Z.of_nat (List.length bs)) output g
  = Some ((0, output), g).
Proof.
  intros Hne (b & Hin & Hdiff).
  destruct bs as [| b0 rest]; [contradiction |].
  unfold wasm_merge_audio_buffers.
  destruct (Z.eqb_spec (Z.of_nat (List.length (b0 :: rest))) 0) as [Hz | _];
    [cbn [List.length] in Hz; lia |].
  unfold bind at 1. cbn [nth_error lift hd] in *.
  unfold bind at 1. rewrite Nat2Z.id.
  apply In_nth_error in Hin. destruct Hin as [k Hk].
  rewrite (merge_total_mismatch (b0 :: rest) _ _ g (List.length (b0 :: rest)) 0 0).
  - reflexivity.
  - lia.
  - exists k, b. split; [| split; [exact Hk | exact Hdiff]].
    assert (k < List.length (b0 :: rest))%nat by (apply nth_error_Some; congruence).
    lia.
Qed.

(** C7.  For every nonempty array of descriptors of host memory that all
    share the same channels and sample rate, [merge_audio_buffers] returns
    the sum [L] of the input lengths, and in the planar output with stride
    [L] channel [c] of the result is the concatenation of channel [c] across
    the inputs in order: channel [c] of buffer [k] occupies
    [output[c*L + offset_k .. c*L + offset_k + length_k]], [offset_k] being
    the sum of the preceding lengths.  If a descriptor differs in channels
    or sample rate the call returns 0.  (The sizes fit in 32 bits and the
    arena allocation succeeds.) *)
Theorem merge_concatenates heap_grants bs output g :
  bs <> [] ->
  ((exists b, In b bs
              /\ (num_channels b <> num_channels (hd no_output bs)
                  \/ sample_rate b <> sample_rate (hd no_output bs))) ->
   wasm_merge_audio_buffers heap_grants bs (Z.of_nat (List.length bs)) output g
   = Some ((0, output), g))
  /\
  (forall C R,
     Forall (fun b => host_buffer b /\ num_channels b = C /\ sample_rate b = R) bs ->
     C < 65536 ->
     total_frames bs < 4294967296 ->
     total_frames bs * C * 4 < 4294967296 ->
     arena_consistent g ->
     total_frames bs * C * 4 <= capacity g
       \/ heap_grants (total_frames bs * C * 4) = true ->
     returns (wasm_merge_audio_buffers heap_grants bs (Z.of_nat (List.length bs)) output) g
       (fun r g' =>
          r = (total_frames bs,
               {| data := ArenaBase; length := total_frames bs;
                  num_channels := C; sample_rate := R |})
          /\ size g' = total_frames bs * C * 4
          /\ (forall c p, 0 <= c < C -> 0 <= p < total_frames bs ->
                fcell g' (c * total_frames bs + p)
                = nth_error (merged_channel bs c) (Z.to_nat p))
          /\ (forall k b c j,
                nth_error bs k = Some b -> 0 <= c < C -> 0 <= j < length b ->
                fcell g' (c * total_frames bs + offset_of bs k + j)
                = nth_error (host_cells b) (Z.to_nat (c * length b + j))))).
Proof.
  intro Hne. split; [apply merge_mismatch; exact Hne |].
  intros C R Hall HC HL Hsize Hcons Halloc.
  eapply returns_weaken;
    [apply (merge_uniform heap_grants bs output g C R); assumption |].
  intros r g' (Hr & Hs & Hcells). cbv beta.
  split; [exact Hr |]. split; [exact Hs |]. split; [exact Hcells |].
  intros k b c j Hk Hc Hj.
  assert (Hhost : Forall host_buffer bs).
  { eapply Forall_impl; [| exact Hall]. intros x (Hx & _). exact Hx. }
  assert (HallC : Forall (fun b => host_buffer b /\ num_channels b = C) bs).
  { eapply Forall_impl; [| exact Hall]. intros x (Hx & Hc' & _). auto. }
  rewrite Forall_forall in Hall.
  destruct (Hall b (nth_error_In _ _ Hk)) as (Hb & HCb & _).
  pose proof (offset_of_succ bs k b Hk) as Hsucc.
  pose proof (offset_of_le bs (S k) Hhost) as Hle.
  pose proof (offset_of_le bs k Hhost) as Hle0.
  rewrite <- Z.add_assoc.
  rewrite Hcells by lia.
  rewrite (merged_channel_nth C c bs k b j) by (try assumption; lia).
  apply channel_nth; [exact Hb | lia | exact Hj].
Qed.

Lemma merge_concatenates_witness :
  let bs := [three_frames; five_frames] in
  bs <> []
  /\ Forall (fun b => host_buffer b /\ num_channels b = 1 /\ sample_rate b = 44100) bs
  /\ returns (wasm_merge_audio_buffers grant_all bs 2 no_output) g_memory_buffer_init
       (fun r g' =>
          r = (total_frames bs,
               {| data := ArenaBase; length := total_frames bs;
                  num_channels := 1; sample_rate := 44100 |})
          /\ size g' = total_frames bs * 1 * 4
          /\ (forall c p, 0 <= c < 1 -> 0 <= p < total_frames bs ->
                fcell g' (c * total_frames bs + p)
                = nth_error (merged_channel bs c) (Z.to_nat p))
          /\ (forall k b c j,
                nth_error bs k = Some b -> 0 <= c < 1 -> 0 <= j < length b ->
                fcell g' (c * total_frames bs + offset_of bs k + j)
                = nth_error (host_cells b) (Z.to_nat (c * length b + j)))).
Proof.
  intro bs.
  assert (Hne : bs <> []) by discriminate.
  assert (Hall : Forall (fun b => host_buffer b /\ num_channels b = 1
                                  /\ sample_rate b = 44100) bs).
  { repeat constructor; cbn; lia. }
  split; [exact Hne |]. split; [exact Hall |].
  apply (proj2 (merge_concatenates grant_all bs no_output g_memory_buffer_init Hne)
               1 44100 Hall);
    [lia | cbn; lia | cbn; lia | reflexivity | right; reflexivity].
Defined.

(** ** WAV encoding *)

Lemma header_bytes_length h :
  List.length (riff h) = 4%nat -> List.length (wave h) = 4%nat ->
  List.length (fmt h) = 4%nat -> List.length (data_tag h) = 4%nat ->
  List.length (header_bytes h) = 44%nat.
Proof.
  intros H1 H2 H3 H4. unfold header_bytes.
  rewrite !length_app, H1, H2, H3, H4. reflexivity.
Qed.

Lemma bcell_set_size g n i :
  bcell {| buffer := buffer g; size := n; capacity := capacity g |} i = bcell g i.
Proof. reflexivity. Qed.

Lemma store_bytes_at off vs g :
  0 <= off -> room g (off + Z.of_nat (List.length vs)) ->
  returns (store_bytes off vs) g
    (fun _ g' =>
       same_frame g g' /\ bytes_at g' off vs
       /\ forall i, 0 <= i -> i < off \/ off + Z.of_nat (List.length vs) <= i ->
            bcell g' i = bcell g i).
Proof.
  intros Hoff Hroom.
  eapply returns_weaken; [apply store_bytes_returns; [exact Hoff | right; exact Hroom] |].
  intros [] g' (Hf & Hcells). cbv beta.
  split; [exact Hf |]. split.
  - intros j Hj. rewrite Hcells by lia.
    destruct (Z.leb_spec off (off + Z.of_nat j)) as [_ | ?]; [| lia].
    destruct (Z.ltb_spec (off + Z.of_nat j) (off + Z.of_nat (List.length vs)))
      as [_ | ?]; [| lia].
    cbn [andb]. f_equal. lia.
  - intros i Hi Hout. rewrite Hcells by lia.
    destruct (Z.leb_spec off i) as [? | ?], (Z.ltb_spec i (off + Z.of_nat (List.length vs)))
      as [? | ?]; cbn [andb]; try reflexivity; lia.
Qed.

Lemma bytes_at_defined g off bs i :
  bytes_at g off bs -> off <= i < off + Z.of_nat (List.length bs) ->
  bcell g i <> None.
Proof.
  intros Hb Hi. specialize (Hb (Z.to_nat (i - off)) ltac:(lia)).
  replace (off + Z.of_nat (Z.to_nat (i - off))) with i in Hb by lia.
  rewrite Hb. apply nth_error_Some. lia.
Qed.

Lemma bytes_at_frame g g' off bs :
  bytes_at g off bs -> 0 <= off ->
  (forall i, off <= i < off + Z.of_nat (List.length bs) -> bcell g' i = bcell g i) ->
  bytes_at g' off bs.
Proof.
  intros Hb Hoff Hsame j Hj. rewrite Hsame by lia. apply Hb. exact Hj.
Qed.

Lemma le_bytes_3 z :
  le_bytes 3 z = [Z.land z 255; Z.land (Z.shiftr z 8) 255; Z.land (Z.shiftr z 16) 255].
Proof. cbn [le_bytes]. rewrite Z.shiftr_shiftr by lia. reflexivity. Qed.

Lemma store_three off b0 b1 b2 g :
  0 <= off -> room g (off + 3) ->
  returns (store_bytes off [b0] ;; store_bytes (off + 1) [b1] ;;
           store_bytes (off + 2) [b2]) g
    (fun _ g' =>
       same_frame g g' /\ bytes_at g' off [b0; b1; b2]
       /\ forall i, 0 <= i -> i < off \/ off + 3 <= i -> bcell g' i = bcell g i).
Proof.
  intros Hoff Hroom.
  apply returns_bind.
  eapply returns_weaken;
    [apply store_bytes_at; [lia | eapply room_le; [| exact Hroom]; cbn; lia] |].
  intros [] g1 (Hf1 & Hb1 & Hk1). cbv beta.
  apply returns_bind.
  eapply returns_weaken;
    [apply store_bytes_at;
     [lia | eapply room_le; [| eapply room_same_frame; [exact Hf1 | exact Hroom]];
            cbn; lia] |].
  intros [] g2 (Hf2 & Hb2 & Hk2). cbv beta.
  pose proof (same_frame_trans _ _ _ Hf1 Hf2) as Hf12.
  eapply returns_weaken;
    [apply store_bytes_at;
     [lia | eapply room_le; [| eapply room_same_frame; [exact Hf12 | exact Hroom]];
            cbn; lia] |].
  intros [] g3 (Hf3 & Hb3 & Hk3). cbv beta.
  split; [eapply same_frame_trans; eassumption |].
  split.
  - intros j Hj. cbn [List.length] in Hj.
    destruct j as [| [| [| j]]]; [| | | lia].
    + rewrite Hk3, Hk2 by (cbn; lia). apply (Hb1 0%nat). cbn; lia.
    + rewrite Hk3 by (cbn; lia).
      specialize (Hb2 0%nat ltac:(cbn; lia)).
      replace (off + Z.of_nat 1) with (off + 1 + Z.of_nat 0) by lia. exact Hb2.
    + specialize (Hb3 0%nat ltac:(cbn; lia)).
      replace (off + Z.of_nat 2) with (off + 2 + Z.of_nat 0) by lia. exact Hb3.
  - intros i Hi Hout.
    rewrite Hk3, Hk2, Hk1 by (cbn; lia). reflexivity.
Qed.

Lemma encode_loop16 cells N g1 :
  0 <= N -> N <= Z.of_nat (List.length cells) ->
  Forall (fun x => F32.valid x = true) cells ->
  room g1 (44 + 2 * N) ->
  returns
    (for_loop (Z.to_nat N) 0
       (fun i _ =>
          sample <- load_float (HostMem cells) i ;;
          v <- lift (encode_sample16 sample) ;;
          store_bytes (44 + 2 * i) (le_bytes 2 v)) tt) g1
    (fun _ g' =>
       same_frame g1 g'
       /\ (forall i, 0 <= i < 44 -> bcell g' i = bcell g1 i)
       /\ payload_written encode_sample16 2 cells N g').
Proof.
  intros HN Hlen Hvalid Hroom.
  eapply returns_weaken.
  - apply (returns_for_loop
             (fun i (_ : unit) g' =>
                same_frame g1 g'
                /\ (forall j, 0 <= j < 44 -> bcell g' j = bcell g1 j)
                /\ payload_written encode_sample16 2 cells i g')).
    + split; [apply same_frame_refl |]. split; [reflexivity |].
      intros k Hk. lia.
    + intros i [] g2 Hi (Hf2 & Hh2 & Hp2).
      rewrite Z2Nat.id in Hi by lia.
      destruct (nth_error cells (Z.to_nat i)) as [x |] eqn:Hx;
        [| apply nth_error_None in Hx; lia].
      rewrite Forall_forall in Hvalid.
      destruct (encode_sample16_defined x (Hvalid x (nth_error_In _ _ Hx)))
        as (z & Hz & _).
      apply returns_bind. eapply returns_load_float_host; [lia | exact Hx |].
      apply returns_bind. eapply returns_lift; [exact Hz |].
      eapply returns_weaken.
      * apply store_bytes_at; [lia |].
        eapply room_le; [| eapply room_same_frame; [exact Hf2 | exact Hroom]].
        cbn [le_bytes List.length]. lia.
      * intros [] g3 (Hf3 & Hb3 & Hk3). cbv beta.
        cbn [le_bytes List.length] in Hk3.
        split; [eapply same_frame_trans; eassumption |].
        split; [intros j Hj; rewrite Hk3 by lia; apply Hh2; exact Hj |].
        intros k Hk.
        destruct (Z.eq_dec k i) as [-> | Hne].
        -- exists x, z. split; [exact Hx |]. split; [exact Hz |]. exact Hb3.
        -- destruct (Hp2 k ltac:(lia)) as (x' & z' & Hx' & Hz' & Hb').
           exists x', z'. split; [exact Hx' |]. split; [exact Hz' |].
           apply (bytes_at_frame g2); [exact Hb' | lia |].
           intros j Hj. cbn [le_bytes List.length] in Hj.
           apply Hk3; lia.
  - intros [] g' H. cbv beta. rewrite Z.add_0_l, Z2Nat.id in H by lia. exact H.
Qed.

Lemma encode_loop24 cells N g1 :
  0 <= N -> N <= Z.of_nat (List.length cells) ->
  Forall (fun x => F32.valid x = true) cells ->
  44 + 3 * N < 4294967296 ->
  room g1 (44 + 3 * N) ->
  returns
    (for_loop (Z.to_nat N) 0
       (fun i _ =>
          sample <- load_float (HostMem cells) i ;;
          int_sample <- lift (encode_sample24 sample) ;;
          store_bytes (44 + u32 (i * 3)) [Z.land int_sample 255] ;;
          store_bytes (44 + u32 (i * 3 + 1)) [Z.land (Z.shiftr int_sample 8) 255] ;;
          store_bytes (44 + u32 (i * 3 + 2)) [Z.land (Z.shiftr int_sample 16) 255]) tt)
    g1
    (fun _ g' =>
       same_frame g1 g'
       /\ (forall i, 0 <= i < 44 -> bcell g' i = bcell g1 i)
       /\ payload_written encode_sample24 3 cells N g').
Proof.
  intros HN Hlen Hvalid Hfit Hroom.
  eapply returns_weaken.
  - apply (returns_for_loop
             (fun i (_ : unit) g' =>
                same_frame g1 g'
                /\ (forall j, 0 <= j < 44 -> bcell g' j = bcell g1 j)
                /\ payload_written encode_sample24 3 cells i g')).
    + split; [apply same_frame_refl |]. split; [reflexivity |].
      intros k Hk. lia.
    + intros i [] g2 Hi (Hf2 & Hh2 & Hp2).
      rewrite Z2Nat.id in Hi by lia.
      destruct (nth_error cells (Z.to_nat i)) as [x |] eqn:Hx;
        [| apply nth_error_None in Hx; lia].
      rewrite Forall_forall in Hvalid.
      destruct (encode_sample24_defined x (Hvalid x (nth_error_In _ _ Hx)))
        as (z & Hz & _).
      apply returns_bind. eapply returns_load_float_host; [lia | exact Hx |].
      apply returns_bind. eapply returns_lift; [exact Hz |].
      rewrite !u32_small by lia.
      replace (44 + (i * 3 + 1)) with (44 + i * 3 + 1) by lia.
      replace (44 + (i * 3 + 2)) with (44 + i * 3 + 2) by lia.
      eapply returns_weaken.
      * apply store_three; [lia |].
        eapply room_le; [| eapply room_same_frame; [exact Hf2 | exact Hroom]]. lia.
      * intros [] g3 (Hf3 & Hb3 & Hk3). cbv beta.
        split; [eapply same_frame_trans; eassumption |].
        split; [intros j Hj; rewrite Hk3 by lia; apply Hh2; exact Hj |].
        intros k Hk.
        destruct (Z.eq_dec k i) as [-> | Hne].
        -- exists x, z. split; [exact Hx |]. split; [exact Hz |].
           rewrite le_bytes_3.
           replace (44 + Z.of_nat 3 * i) with (44 + i * 3) by lia. exact Hb3.
        -- destruct (Hp2 k ltac:(lia)) as (x' & z' & Hx' & Hz' & Hb').
           exists x', z'. split; [exact Hx' |]. split; [exact Hz' |].
           apply (bytes_at_frame g2); [exact Hb' | lia |].
           intros j Hj. rewrite le_bytes_3 in Hj. cbn [List.length] in Hj.
           apply Hk3; lia.
  - intros [] g' H. cbv beta. rewrite Z.add_0_l, Z2Nat.id in H by lia. exact H.
Qed.

Lemma u16_small x : 0 <= x < 65536 -> u16 x = x.
Proof. intro H. unfold u16. apply Z.mod_small. exact H. Qed.

(** Every byte of a payload of [n] samples of [w] bytes is defined. *)
Lemma payload_written_defined code w cells n g i :
  (0 < w)%nat -> 0 <= n ->
  payload_written code w cells n g ->
  44 <= i < 44 + Z.of_nat w * n ->
  bcell g i <> None.
Proof.
  intros Hw Hn Hp Hi.
  set (k := (i - 44) / Z.of_nat w).
  pose proof (Z.div_mod (i - 44) (Z.of_nat w) ltac:(lia)) as Hdm.
  pose proof (Z.mod_pos_bound (i - 44) (Z.of_nat w) ltac:(lia)) as Hmod.
  fold k in Hdm.
  assert (Hk : 0 <= k < n).
  { split; [apply Z.div_pos; lia |].
    apply Z.div_lt_upper_bound; lia. }
  destruct (Hp k Hk) as (x & z & _ & _ & Hb).
  apply (bytes_at_defined g (44 + Z.of_nat w * k) (le_bytes w z)); [exact Hb |].
  assert (Hlen : List.length (le_bytes w z) = w).
  { clear. revert z. induction w as [| w IH]; intro z; cbn [le_bytes List.length];
      [reflexivity | rewrite IH; reflexivity]. }
  rewrite Hlen. lia.
Qed.

Lemma audio_buffer_to_wav_prefix heap_grants cells L C R bits g
    (Q : Z -> MemoryBuffer -> Prop) :
  arena_consistent g -> 0 <= L -> 0 <= C -> 0 <= bits < 65536 ->
  C * (bits / 8) < 65536 ->
  44 + L * C * (bits / 8) < 4294967296 ->
  44 + L * C * (bits / 8) <= capacity g
    \/ heap_grants (44 + L * C * (bits / 8)) = true ->
  (forall g2,
     room g2 (44 + L * C * (bits / 8)) ->
     bytes_at g2 0 (header_bytes (wav_header L C R bits)) ->
     returns
       ((if bits =? 16 then
           for_loop (Z.to_nat (u32 (L * C))) 0
             (fun i _ =>
                sample <- load_float (HostMem cells) i ;;
                v <- lift (encode_sample16 sample) ;;
                store_bytes (44 + 2 * i) (le_bytes 2 v)) tt
         else if bits =? 24 then
           for_loop (Z.to_nat (u32 (L * C))) 0
             (fun i _ =>
                sample <- load_float (HostMem cells) i ;;
                int_sample <- lift (encode_sample24 sample) ;;
                store_bytes (44 + u32 (i * 3)) [Z.land int_sample 255] ;;
                store_bytes (44 + u32 (i * 3 + 1)) [Z.land (Z.shiftr int_sample 8) 255] ;;
                store_bytes (44 + u32 (i * 3 + 2)) [Z.land (Z.shiftr int_sample 16) 255])
             tt
         else ret tt) ;;
        set_size (44 + L * C * (bits / 8)) ;;
        ret (44 + L * C * (bits / 8))) g2 Q) ->
  returns (wasm_audio_buffer_to_wav heap_grants (HostMem cells) L C R bits) g Q.
Proof.
  intros Hcons HL HC Hbits Hblock Hfit Halloc Hrest.
  set (bps := bits / 8) in *.
  assert (Hbps : 0 <= bps < 65536).
  { unfold bps. split; [apply Z.div_pos; lia | apply Z.div_lt_upper_bound; lia]. }
  assert (Hcb : 0 <= C * bps) by (apply Z.mul_nonneg_nonneg; lia).
  assert (Hlcb : 0 <= L * (C * bps)) by (apply Z.mul_nonneg_nonneg; lia).
  assert (Hassoc : L * C * bps = L * (C * bps)) by ring.
  unfold wasm_audio_buffer_to_wav. cbv zeta. fold bps.
  rewrite (u16_small bps) by lia.
  rewrite (u16_small (C * bps)) by lia.
  rewrite (u32_small (L * (C * bps))) by lia.
  rewrite (u32_small (44 + L * (C * bps))) by lia.
  rewrite (u32_small (44 + L * (C * bps) - 8)) by lia.
  rewrite <- Hassoc.
  apply returns_bind.
  eapply returns_weaken; [apply reserve_returns; [lia | exact Hcons] |].
  intros ok g1 H1. cbv beta in H1 |- *.
  destruct ok; [| destruct H1 as (_ & ? & ?); destruct Halloc; [lia | congruence]].
  destruct H1 as (_ & Hc1 & Hs1 & Hcap1 & [Hz | Hroom]); [lia |].
  cbn [negb].
  apply returns_bind.
  eapply returns_weaken.
  - apply (store_bytes_at 0); [lia |].
    eapply room_le; [| exact Hroom].
    rewrite header_bytes_length by reflexivity. lia.
  - intros [] g2 (Hf2 & Hb2 & _). cbv beta.
    apply Hrest.
    + eapply room_same_frame; [exact Hf2 | exact Hroom].
    + unfold wav_header. fold bps. rewrite Hassoc. rewrite Hassoc in Hb2. exact Hb2.
Qed.

(** C3, as stated: the call returns 0 when [bits_per_sample] is neither 16
    nor 24.  It does not: one 8-bit frame is answered with 45. *)
Lemma unsupported_depth_not_refused :
  wasm_audio_buffer_to_wav grant_all (HostMem [F32.half]) 1 1 44100 8
                           g_memory_buffer_init
  <> Some (0, g_memory_buffer_init)
  /\ exists g', wasm_audio_buffer_to_wav grant_all (HostMem [F32.half]) 1 1 44100 8
                                         g_memory_buffer_init = Some (45, g').
Proof.
  split; [vm_compute; discriminate |].
  eexists. vm_compute. reflexivity.
Qed.

(** C3, amended.  For every input float buffer with [length] frames and
    [channels] channels whose sizes fit in the header fields,
    [audio_buffer_to_wav] at 16 or 24 bits per sample writes
    [44 + length*channels*(bits/8)] bytes into the arena, the header and
    then the code of every sample, and returns that total; it returns 0 when
    the arena allocation fails.  At any other bit depth it does not return
    0: it writes the 44-byte header and returns the same total. *)
Theorem audio_buffer_to_wav_total heap_grants cells L C R bits g :
  arena_consistent g -> 0 <= L -> 0 <= C -> 0 <= bits < 65536 ->
  C * (bits / 8) < 65536 ->
  44 + L * C * (bits / 8) < 4294967296 ->
  (capacity g < 44 + L * C * (bits / 8) ->
   heap_grants (44 + L * C * (bits / 8)) = false ->
   wasm_audio_buffer_to_wav heap_grants (HostMem cells) L C R bits g = Some (0, g))
  /\
  (44 + L * C * (bits / 8) <= capacity g
     \/ heap_grants (44 + L * C * (bits / 8)) = true ->
   (bits = 16 \/ bits = 24 ->
    L * C <= Z.of_nat (List.length cells) ->
    Forall (fun x => F32.valid x = true) cells ->
    returns (wasm_audio_buffer_to_wav heap_grants (HostMem cells) L C R bits) g
      (fun r g' =>
         r = 44 + L * C * (bits / 8)
         /\ size g' = 44 + L * C * (bits / 8)
         /\ bytes_at g' 0 (header_bytes (wav_header L C R bits))
         /\ payload_written (sample_code bits) (Z.to_nat (bits / 8)) cells (L * C) g'
         /\ forall i, 0 <= i < 44 + L * C * (bits / 8) -> bcell g' i <> None))
   /\
   (bits <> 16 -> bits <> 24 ->
    returns (wasm_audio_buffer_to_wav heap_grants (HostMem cells) L C R bits) g
      (fun r g' =>
         r = 44 + L * C * (bits / 8) /\ r <> 0
         /\ size g' = 44 + L * C * (bits / 8)
         /\ bytes_at g' 0 (header_bytes (wav_header L C R bits))))).
Proof.
  intros Hcons HL HC Hbits Hblock Hfit.
  assert (Hbps : 0 <= bits / 8) by (apply Z.div_pos; lia).
  assert (HLC : 0 <= L * C) by (apply Z.mul_nonneg_nonneg; lia).
  assert (Hdata : 0 <= L * C * (bits / 8)) by (apply Z.mul_nonneg_nonneg; lia).
  split; [| intro Halloc; split].
  - (* the allocation fails *)
    intros Hcap Hdeny.
    unfold wasm_audio_buffer_to_wav. cbv zeta.
    assert (Hassoc : L * C * (bits / 8) = L * (C * (bits / 8))) by ring.
    assert (Hcb : 0 <= C * (bits / 8)) by (apply Z.mul_nonneg_nonneg; lia).
    rewrite (u16_small (bits / 8)) by (split; [lia | apply Z.div_lt_upper_bound; lia]).
    rewrite (u16_small (C * (bits / 8))) by lia.
    rewrite (u32_small (L * (C * (bits / 8)))) by lia.
    rewrite (u32_small (44 + L * (C * (bits / 8)))) by lia.
    rewrite <- Hassoc.
    unfold bind at 1. unfold reserve, realloc, bind, get.
    destruct (Z.gtb_spec (44 + L * C * (bits / 8)) (capacity g)) as [_ | ?]; [| lia].
    rewrite Hdeny. reflexivity.
  - (* a supported depth *)
    intros Hdepth Hlen Hvalid.
    apply audio_buffer_to_wav_prefix; try assumption.
    intros g2 Hroom Hheader.
    destruct Hdepth as [-> | ->].
    + change (16 / 8) with 2 in *. change (16 =? 16) with true. cbv iota.
      rewrite (u32_small (L * C)) by lia.
      apply returns_bind.
      eapply returns_weaken.
      * apply encode_loop16; [lia | lia | exact Hvalid |].
        eapply room_le; [| exact Hroom]. lia.
      * intros [] g3 (Hf3 & Hh3 & Hp3). cbv beta.
        apply returns_bind, set_size_returns, returns_ret.
        split; [reflexivity |]. split; [reflexivity |].
        assert (Hheader3 : bytes_at g3 0 (header_bytes (wav_header L C R 16))).
        { apply (bytes_at_frame g2); [exact Hheader | lia |].
          intros i Hi. rewrite header_bytes_length in Hi by reflexivity.
          apply Hh3. lia. }
        split; [exact Hheader3 |].
        split; [exact Hp3 |].
        intros i Hi. rewrite bcell_set_size.
        destruct (Z.lt_ge_cases i 44) as [Hlt | Hge].
        -- apply (bytes_at_defined g3 0 _ i Hheader3).
           rewrite header_bytes_length by reflexivity. lia.
        -- apply (payload_written_defined encode_sample16 2 cells (L * C));
             [lia | lia | exact Hp3 | lia].
    + change (24 / 8) with 3 in *. change (24 =? 16) with false.
      change (24 =? 24) with true. cbv iota.
      rewrite (u32_small (L * C)) by lia.
      apply returns_bind.
      eapply returns_weaken.
      * apply encode_loop24; [lia | lia | exact Hvalid | lia |].
        eapply room_le; [| exact Hroom]. lia.
      * intros [] g3 (Hf3 & Hh3 & Hp3). cbv beta.
        apply returns_bind, set_size_returns, returns_ret.
        split; [reflexivity |]. split; [reflexivity |].
        assert (Hheader3 : bytes_at g3 0 (header_bytes (wav_header L C R 24))).
        { apply (bytes_at_frame g2); [exact Hheader | lia |].
          intros i Hi. rewrite header_bytes_length in Hi by reflexivity.
          apply Hh3. lia. }
        split; [exact Hheader3 |].
        split; [exact Hp3 |].
        intros i Hi. rewrite bcell_set_size.
        destruct (Z.lt_ge_cases i 44) as [Hlt | Hge].
        -- apply (bytes_at_defined g3 0 _ i Hheader3).
           rewrite header_bytes_length by reflexivity. lia.
        -- apply (payload_written_defined encode_sample24 3 cells (L * C));
             [lia | lia | exact Hp3 | lia].
  - (* any other depth *)
    intros H16 H24.
    apply audio_buffer_to_wav_prefix; try assumption.
    intros g2 Hroom Hheader.
    destruct (Z.eqb_spec bits 16) as [? | _]; [contradiction |].
    destruct (Z.eqb_spec bits 24) as [? | _]; [contradiction |].
    apply returns_bind, returns_ret.
    apply returns_bind, set_size_returns, returns_ret.
    split; [reflexivity |]. split; [lia |]. split; [reflexivity |].
    exact Hheader.
Qed.

Lemma audio_buffer_to_wav_total_witness :
  let cells := [F32.zero; F32.half; F32.minus_one; F32.one] in
  arena_consistent g_memory_buffer_init
  /\ Forall (fun x => F32.valid x = true) cells
  /\ returns (wasm_audio_buffer_to_wav grant_all (HostMem cells) 4 1 44100 16)
       g_memory_buffer_init
       (fun r g' =>
          r = 44 + 4 * 1 * (16 / 8)
          /\ size g' = 44 + 4 * 1 * (16 / 8)
          /\ bytes_at g' 0 (header_bytes (wav_header 4 1 44100 16))
          /\ payload_written (sample_code 16) (Z.to_nat (16 / 8)) cells (4 * 1) g'
          /\ forall i, 0 <= i < 44 + 4 * 1 * (16 / 8) -> bcell g' i <> None).
Proof.
  intro cells.
  assert (Hvalid : Forall (fun x => F32.valid x = true) cells)
    by (repeat constructor).
  split; [reflexivity |]. split; [exact Hvalid |].
  refine (proj1 (proj2 (audio_buffer_to_wav_total grant_all cells 4 1 44100 16
                          g_memory_buffer_init _ _ _ _ _ _) _) _ _ Hvalid);
    try reflexivity; try (cbn; lia).
  right. reflexivity.
Defined.

(** The image the encoder leaves at a supported depth. *)
Lemma encode_image heap_grants cells L C R bits g :
  arena_consistent g -> 0 <= L -> 0 <= C -> bits = 16 \/ bits = 24 ->
  C * (bits / 8) < 65536 ->
  44 + L * C * (bits / 8) < 4294967296 ->
  44 + L * C * (bits / 8) <= capacity g
    \/ heap_grants (44 + L * C * (bits / 8)) = true ->
  L * C <= Z.of_nat (List.length cells) ->
  Forall (fun x => F32.valid x = true) cells ->
  returns (wasm_audio_buffer_to_wav heap_grants (HostMem cells) L C R bits) g
    (fun r g' =>
       r = 44 + L * C * (bits / 8)
       /\ size g' = 44 + L * C * (bits / 8)
       /\ bytes_at g' 0 (header_bytes (wav_header L C R bits))
       /\ payload_written (sample_code bits) (Z.to_nat (bits / 8)) cells (L * C) g'
       /\ forall i, 0 <= i < 44 + L * C * (bits / 8) -> bcell g' i <> None).
Proof.
  intros Hcons HL HC Hdepth Hblock Hfit Halloc Hlen Hvalid.
  assert (HLC : 0 <= L * C) by (apply Z.mul_nonneg_nonneg; lia).
  assert (Hbits : 0 <= bits < 65536) by (destruct Hdepth as [-> | ->]; lia).
  apply audio_buffer_to_wav_prefix; try assumption.
  intros g2 Hroom Hheader.
  destruct Hdepth as [-> | ->].
  - change (16 / 8) with 2 in *. change (16 =? 16) with true. cbv iota.
    rewrite (u32_small (L * C)) by lia.
    apply returns_bind.
    eapply returns_weaken.
    + apply encode_loop16; [lia | lia | exact Hvalid |].
      eapply room_le; [| exact Hroom]. lia.
    + intros [] g3 (Hf3 & Hh3 & Hp3). cbv beta.
      apply returns_bind, set_size_returns, returns_ret.
      split; [reflexivity |]. split; [reflexivity |].
      assert (Hheader3 : bytes_at g3 0 (header_bytes (wav_header L C R 16))).
      { apply (bytes_at_frame g2); [exact Hheader | lia |].
        intros i Hi. rewrite header_bytes_length in Hi by reflexivity.
        apply Hh3. lia. }
      split; [exact Hheader3 |].
      split; [exact Hp3 |].
      intros i Hi. rewrite bcell_set_size.
      destruct (Z.lt_ge_cases i 44) as [Hlt | Hge].
      * apply (bytes_at_defined g3 0 _ i Hheader3).
        rewrite header_bytes_length by reflexivity. lia.
      * apply (payload_written_defined encode_sample16 2 cells (L * C));
          [lia | lia | exact Hp3 | lia].
  - change (24 / 8) with 3 in *. change (24 =? 16) with false.
    change (24 =? 24) with true. cbv iota.
    rewrite (u32_small (L * C)) by lia.
    apply returns_bind.
    eapply returns_weaken.
    + apply encode_loop24; [lia | lia | exact Hvalid | lia |].
      eapply room_le; [| exact Hroom]. lia.
    + intros [] g3 (Hf3 & Hh3 & Hp3). cbv beta.
      apply returns_bind, set_size_returns, returns_ret.
      split; [reflexivity |]. split; [reflexivity |].
      assert (Hheader3 : bytes_at g3 0 (header_bytes (wav_header L C R 24))).
      { apply (bytes_at_frame g2); [exact Hheader | lia |].
        intros i Hi. rewrite header_bytes_length in Hi by reflexivity.
        apply Hh3. lia. }
      split; [exact Hheader3 |].
      split; [exact Hp3 |].
      intros i Hi. rewrite bcell_set_size.
      destruct (Z.lt_ge_cases i 44) as [Hlt | Hge].
      * apply (bytes_at_defined g3 0 _ i Hheader3).
        rewrite header_bytes_length by reflexivity. lia.
      * apply (payload_written_defined encode_sample24 3 cells (L * C));
          [lia | lia | exact Hp3 | lia].
Qed.

(** ** The quantization of one sample *)

Lemma sample_code_exact bits s :
  bits = 16 \/ bits = 24 -> F32.valid s = true ->
  sample_code bits s = Some (quantize bits (clamp s))
  /\ - 2 ^ (bits - 1) <= quantize bits (clamp s) <= 2 ^ (bits - 1) - 1
  /\ spec_quantize bits (clamp s) <= quantize bits (clamp s)
     <= spec_quantize bits (clamp s) + 1
  /\ (signbit (clamp s) = true -> quantize bits (clamp s) = spec_quantize bits (clamp s)).
Proof.
  intros [-> | ->] Hv.
  - exact (encode_sample16_exact s Hv).
  - exact (encode_sample24_exact s Hv).
Qed.

(** C6, as stated: the code of a non-negative sample is its exact product
    with [2^(B-1) - 1], truncated toward zero.  It is not: the sample
    [8388864 * 2^-24], just above one half, has the exact product
    16383.99998 at 16 bits, which truncates to 16383 (bytes FF 3F); the
    encoder writes 16384 (bytes 00 40). *)
Lemma sample_quantization_refuted :
  F32.valid above_half = true
  /\ clamp above_half = above_half
  /\ spec_quantize 16 (clamp above_half) = 16383
  /\ le_bytes 2 16383 = [255; 63]
  /\ encode_sample16 above_half = Some 16384
  /\ exists g',
       wasm_audio_buffer_to_wav grant_all (HostMem [above_half]) 1 1 44100 16
                                g_memory_buffer_init
       = Some (46, g')
       /\ bcell g' 44 = Some 0 /\ bcell g' 45 = Some 64.
Proof.
  split; [reflexivity |]. split; [reflexivity |]. split; [reflexivity |].
  split; [reflexivity |]. split; [vm_compute; reflexivity |].
  eexists. split; [vm_compute; reflexivity |].
  split; vm_compute; reflexivity.
Qed.

(** C6, amended.  For every float sample the encoder first clamps it to
    [-1, 1] and then quantizes asymmetrically.  A negative sample is scaled
    by 2^(B-1), exactly, and truncated toward zero.  A non-negative sample
    is scaled by 2^(B-1) - 1; the product is rounded to single precision
    (24 significant bits, to nearest, ties to even) and then truncated
    toward zero, so its code is the truncation of the exact product or one
    more.  The bytes of the WAV image at offset 44 + (B/8) * k are the
    little-endian code of sample k.  +1.0 and every sample above it encode
    to the maximum code (0x7FFF at 16 bits), -1.0 and every sample below it
    to the minimum code (0x8000 at 16 bits): values outside [-1, 1] saturate
    and do not wrap. *)
Theorem sample_quantization heap_grants cells L C R bits g :
  arena_consistent g -> 0 <= L -> 0 <= C -> bits = 16 \/ bits = 24 ->
  C * (bits / 8) < 65536 ->
  44 + L * C * (bits / 8) < 4294967296 ->
  44 + L * C * (bits / 8) <= capacity g
    \/ heap_grants (44 + L * C * (bits / 8)) = true ->
  L * C <= Z.of_nat (List.length cells) ->
  Forall (fun x => F32.valid x = true) cells ->
  returns (wasm_audio_buffer_to_wav heap_grants (HostMem cells) L C R bits) g
    (fun _ g' =>
       forall k, 0 <= k < L * C ->
       exists x, nth_error cells (Z.to_nat k) = Some x
         /\ bytes_at g' (44 + bits / 8 * k)
              (le_bytes (Z.to_nat (bits / 8)) (quantize bits (clamp x))))
  /\ (forall s, F32.valid s = true ->
      sample_code bits s = Some (quantize bits (clamp s))
      /\ - 2 ^ (bits - 1) <= quantize bits (clamp s) <= 2 ^ (bits - 1) - 1
      /\ spec_quantize bits (clamp s) <= quantize bits (clamp s)
         <= spec_quantize bits (clamp s) + 1
      /\ (signbit (clamp s) = true ->
          quantize bits (clamp s) = spec_quantize bits (clamp s))
      /\ (SFleb F32.one s = true ->
          clamp s = F32.one /\ quantize bits (clamp s) = 2 ^ (bits - 1) - 1)
      /\ (SFleb s F32.minus_one = true ->
          clamp s = F32.minus_one /\ quantize bits (clamp s) = - 2 ^ (bits - 1))
      /\ (SFltb F32.minus_one s = true -> SFltb s F32.one = true -> clamp s = s))
  /\ le_bytes 2 32767 = [255; 127] /\ le_bytes 2 (-32768) = [0; 128].
Proof.
  intros Hcons HL HC Hdepth Hblock Hfit Halloc Hlen Hvalid.
  split; [| split; [| split; reflexivity]].
  - eapply returns_weaken.
    + apply encode_image; eassumption.
    + intros r g' (_ & _ & _ & Hp & _) k Hk.
      destruct (Hp k Hk) as (x & z & Hx & Hz & Hb).
      exists x. split; [exact Hx |].
      rewrite Forall_forall in Hvalid.
      destruct (sample_code_exact bits x Hdepth (Hvalid x (nth_error_In _ _ Hx)))
        as (Hcode & _).
      assert (Hzq : z = quantize bits (clamp x)) by congruence.
      rewrite <- Hzq.
      replace (bits / 8) with (Z.of_nat (Z.to_nat (bits / 8))) at 1
        by (destruct Hdepth as [-> | ->]; reflexivity).
      exact Hb.
  - intros s Hv.
    destruct (sample_code_exact bits s Hdepth Hv) as (Hcode & Hr & Hs & Hn).
    split; [exact Hcode |]. split; [exact Hr |]. split; [exact Hs |].
    split; [exact Hn |].
    split; [| split].
    + intro H. rewrite (clamp_above s H).
      split; [reflexivity |]. destruct Hdepth as [-> | ->]; reflexivity.
    + intro H. rewrite (clamp_below s H).
      split; [reflexivity |]. destruct Hdepth as [-> | ->]; reflexivity.
    + apply clamp_inside.
Qed.

Lemma sample_quantization_witness :
  let cells := [F32.zero; above_half; F32.minus_one; F32.one] in
  arena_consistent g_memory_buffer_init
  /\ Forall (fun x => F32.valid x = true) cells
  /\ returns (wasm_audio_buffer_to_wav grant_all (HostMem cells) 4 1 44100 16)
       g_memory_buffer_init
       (fun _ g' =>
          forall k, 0 <= k < 4 * 1 ->
          exists x, nth_error cells (Z.to_nat k) = Some x
            /\ bytes_at g' (44 + 16 / 8 * k)
                 (le_bytes (Z.to_nat (16 / 8)) (quantize 16 (clamp x))))
  /\ quantize 16 (clamp above_half) = 16384.
Proof.
  intro cells.
  assert (Hvalid : Forall (fun x => F32.valid x = true) cells)
    by (repeat constructor).
  split; [reflexivity |]. split; [exact Hvalid |].
  split; [| reflexivity].
  refine (proj1 (sample_quantization grant_all cells 4 1 44100 16
                   g_memory_buffer_init _ _ _ _ _ _ _ _ Hvalid));
    try reflexivity; try (cbn; lia).
  right. reflexivity.
Defined.

(** ** WAV decoding *)

Lemma load_bytes_some mem off n :
  0 <= off -> off + Z.of_nat n <= Z.of_nat (List.length mem) ->
  exists bs, load_bytes mem off n = Some bs.
Proof.
  intros Hoff Hlen. unfold load_bytes.
  destruct (Z.leb_spec (off + Z.of_nat n) (Z.of_nat (List.length mem))); [| lia].
  eexists. reflexivity.
Qed.

(** C1, as stated: the call returns 0 unless [bits_per_sample] is 16 or 24
    and [sample_rate] is positive.  It does not: a header of 8 bits per
    sample and sample rate 0 is answered with 4 frames. *)
Lemma wav_validation_refuted :
  field eight_bit_wav 34 2 = Some 8
  /\ field eight_bit_wav 24 4 = Some 0
  /\ exists out g',
       wasm_wav_to_audio_buffer grant_all eight_bit_wav 48 no_output
                                g_memory_buffer_init
       = Some ((4, out), g').
Proof.
  split; [reflexivity |]. split; [reflexivity |].
  eexists. eexists. vm_compute. reflexivity.
Qed.

Lemma store_float_at off v g :
  0 <= off -> room g (4 * (off + 1)) ->
  returns (store_floats off [v]) g
    (fun _ g' =>
       same_frame g g' /\ fcell g' off = Some v
       /\ forall i, 0 <= i -> i <> off -> fcell g' i = fcell g i).
Proof.
  intros Hoff Hroom.
  eapply returns_weaken;
    [apply store_floats_returns; [exact Hoff | right; exact Hroom] |].
  intros [] g' (Hf & Hcells). cbv beta. cbn [List.length] in Hcells.
  split; [exact Hf |]. split.
  - rewrite Hcells by lia.
    destruct (Z.leb_spec off off), (Z.ltb_spec off (off + Z.of_nat 1)); try lia.
    cbn [andb]. replace (Z.to_nat (off - off)) with 0%nat by lia. reflexivity.
  - intros i Hi Hne. rewrite Hcells by lia.
    destruct (Z.leb_spec off i), (Z.ltb_spec i (off + Z.of_nat 1));
      cbn [andb]; try reflexivity; lia.
Qed.

Lemma field_some mem off n :
  0 <= off -> off + Z.of_nat n <= Z.of_nat (List.length mem) ->
  exists v, field mem off n = Some v.
Proof.
  intros Hoff Hlen. unfold field.
  destruct (load_bytes_some mem off n Hoff Hlen) as [bs ->]. eexists. reflexivity.
Qed.

Lemma decode_loop16 wav_data N g1 :
  0 <= N -> 44 + 2 * N <= Z.of_nat (List.length wav_data) ->
  N = 0 \/ room g1 (4 * N) ->
  returns
    (for_loop (Z.to_nat N) 0
       (fun i _ =>
          bs <- lift (load_bytes wav_data (44 + 2 * i) 2) ;;
          store_floats i [decode_sample 32768 32767 (signed 16 (le_value bs))]) tt) g1
    (fun _ g' =>
       same_frame g1 g'
       /\ forall i, 0 <= i < N -> fcell g' i = pcm_sample 16 wav_data i
                                /\ fcell g' i <> None).
Proof.
  intros HN Hlen Hroom.
  eapply returns_weaken.
  - apply (returns_for_loop
             (fun i (_ : unit) g' =>
                same_frame g1 g'
                /\ forall k, 0 <= k < i -> fcell g' k = pcm_sample 16 wav_data k
                                         /\ fcell g' k <> None)).
    + split; [apply same_frame_refl |]. intros k Hk. lia.
    + intros i [] g2 Hi (Hf2 & Hc2). rewrite Z2Nat.id in Hi by lia.
      destruct Hroom as [? | Hroom]; [lia |].
      destruct (load_bytes_some wav_data (44 + 2 * i) 2 ltac:(lia)
                  ltac:(change (Z.of_nat 2) with 2; lia))
        as [bs Hbs].
      apply returns_bind. eapply returns_lift; [exact Hbs |].
      eapply returns_weaken.
      * apply store_float_at; [lia |].
        eapply room_le; [| eapply room_same_frame; [exact Hf2 | exact Hroom]]. lia.
      * intros [] g3 (Hf3 & Hnew & Hkeep). cbv beta.
        split; [eapply same_frame_trans; eassumption |].
        intros k Hk. destruct (Z.eq_dec k i) as [-> | Hne].
        -- rewrite Hnew. unfold pcm_sample. change (16 =? 16) with true. cbv iota.
           rewrite Hbs. split; [reflexivity | discriminate].
        -- rewrite Hkeep by lia. apply Hc2. lia.
  - intros [] g' H. cbv beta. rewrite Z.add_0_l, Z2Nat.id in H by lia. exact H.
Qed.

Lemma decode_loop24 wav_data N g1 :
  0 <= N -> 44 + 3 * N <= Z.of_nat (List.length wav_data) ->
  44 + 3 * N < 4294967296 ->
  N = 0 \/ room g1 (4 * N) ->
  returns
    (for_loop (Z.to_nat N) 0
       (fun i _ =>
          b0 <- lift (field wav_data (44 + u32 (i * 3)) 1) ;;
          b1 <- lift (field wav_data (44 + u32 (i * 3 + 1)) 1) ;;
          b2 <- lift (field wav_data (44 + u32 (i * 3 + 2)) 1) ;;
          let int_sample :=
            Z.lor (Z.lor b0 (Z.shiftl b1 8)) (Z.shiftl (signed 8 b2) 16) in
          store_floats i [decode_sample 8388608 8388607 int_sample]) tt) g1
    (fun _ g' =>
       same_frame g1 g'
       /\ forall i, 0 <= i < N -> fcell g' i = pcm_sample 24 wav_data i
                                /\ fcell g' i <> None).
Proof.
  intros HN Hlen Hfit Hroom.
  eapply returns_weaken.
  - apply (returns_for_loop
             (fun i (_ : unit) g' =>
                same_frame g1 g'
                /\ forall k, 0 <= k < i -> fcell g' k = pcm_sample 24 wav_data k
                                         /\ fcell g' k <> None)).
    + split; [apply same_frame_refl |]. intros k Hk. lia.
    + intros i [] g2 Hi (Hf2 & Hc2). rewrite Z2Nat.id in Hi by lia.
      destruct Hroom as [? | Hroom]; [lia |].
      rewrite !u32_small by lia.
      replace (i * 3) with (3 * i) by lia.
      replace (44 + (3 * i + 1)) with (44 + 3 * i + 1) by lia.
      replace (44 + (3 * i + 2)) with (44 + 3 * i + 2) by lia.
      destruct (field_some wav_data (44 + 3 * i) 1 ltac:(lia)
                  ltac:(change (Z.of_nat 1) with 1; lia))
        as [b0 Hb0].
      destruct (field_some wav_data (44 + 3 * i + 1) 1 ltac:(lia)
                  ltac:(change (Z.of_nat 1) with 1; lia))
        as [b1 Hb1].
      destruct (field_some wav_data (44 + 3 * i + 2) 1 ltac:(lia)
                  ltac:(change (Z.of_nat 1) with 1; lia))
        as [b2 Hb2].
      apply returns_bind. eapply returns_lift; [exact Hb0 |].
      apply returns_bind. eapply returns_lift; [exact Hb1 |].
      apply returns_bind. eapply returns_lift; [exact Hb2 |].
      cbv zeta.
      eapply returns_weaken.
      * apply store_float_at; [lia |].
        eapply room_le; [| eapply room_same_frame; [exact Hf2 | exact Hroom]]. lia.
      * intros [] g3 (Hf3 & Hnew & Hkeep). cbv beta.
        split; [eapply same_frame_trans; eassumption |].
        intros k Hk. destruct (Z.eq_dec k i) as [-> | Hne].
        -- rewrite Hnew. unfold pcm_sample. change (24 =? 16) with false. cbv iota.
           rewrite Hb0, Hb1, Hb2. split; [reflexivity | discriminate].
        -- rewrite Hkeep by lia. apply Hc2. lia.
  - intros [] g' H. cbv beta. rewrite Z.add_0_l, Z2Nat.id in H by lia. exact H.
Qed.

(** The growth step writes no cell of the arena. *)
Lemma reserve_payload heap_grants n g ok g' :
  reserve heap_grants n g = Some (ok, g') -> arena_payload g' = arena_payload g.
Proof.
  unfold reserve, realloc, bind, get, put, ret.
  destruct (n >? capacity g).
  - destruct (heap_grants n); intro H; injection H as _ <-; [| reflexivity].
    unfold arena_payload. cbn [buffer blk_data].
    destruct (buffer g); reflexivity.
  - intro H. injection H as _ <-. reflexivity.
Qed.

(** The decoder up to the growth of the arena, for a header whose tags are
    present. *)
Lemma wav_to_audio_buffer_prefix heap_grants wav_data wav_size output g
    bits ch rate dsz (Q : Z * AudioBuffer -> MemoryBuffer -> Prop) :
  44 <= wav_size -> 44 <= Z.of_nat (List.length wav_data) ->
  magic_ok wav_data = true ->
  field wav_data 34 2 = Some bits -> field wav_data 22 2 = Some ch ->
  field wav_data 24 4 = Some rate -> field wav_data 40 4 = Some dsz ->
  ch * u16 (bits / 8) <> 0 ->
  arena_consistent g ->
  u32 (dsz / (ch * u16 (bits / 8)) * ch * 4) <= capacity g
    \/ heap_grants (u32 (dsz / (ch * u16 (bits / 8)) * ch * 4)) = true ->
  (forall g1,
     size g1 = size g ->
     arena_payload g1 = arena_payload g ->
     u32 (dsz / (ch * u16 (bits / 8)) * ch * 4) = 0
       \/ room g1 (u32 (dsz / (ch * u16 (bits / 8)) * ch * 4)) ->
     returns
       ((if bits =? 16 then
           for_loop (Z.to_nat (u32 (dsz / (ch * u16 (bits / 8)) * ch))) 0
             (fun i _ =>
                bs <- lift (load_bytes wav_data (44 + 2 * i) 2) ;;
                store_floats i [decode_sample 32768 32767 (signed 16 (le_value bs))]) tt
         else if bits =? 24 then
           for_loop (Z.to_nat (u32 (dsz / (ch * u16 (bits / 8)) * ch))) 0
             (fun i _ =>
                b0 <- lift (field wav_data (44 + u32 (i * 3)) 1) ;;
                b1 <- lift (field wav_data (44 + u32 (i * 3 + 1)) 1) ;;
                b2 <- lift (field wav_data (44 + u32 (i * 3 + 2)) 1) ;;
                let int_sample :=
                  Z.lor (Z.lor b0 (Z.shiftl b1 8)) (Z.shiftl (signed 8 b2) 16) in
                store_floats i [decode_sample 8388608 8388607 int_sample]) tt
         else ret tt) ;;
        set_size (u32 (dsz / (ch * u16 (bits / 8)) * ch * 4)) ;;
        ret (dsz / (ch * u16 (bits / 8)),
             {| data := ArenaBase; length := dsz / (ch * u16 (bits / 8));
                num_channels := ch; sample_rate := rate |})) g1 Q) ->
  returns (wasm_wav_to_audio_buffer heap_grants wav_data wav_size output) g Q.
Proof.
  intros Hsize Hlen Hmagic Hbits Hch Hrate Hdsz Hdiv Hcons Halloc Hrest.
  destruct (load_bytes_some wav_data 0 4 ltac:(lia)
              ltac:(change (Z.of_nat 4) with 4; lia)) as [r Hr].
  destruct (load_bytes_some wav_data 8 4 ltac:(lia)
              ltac:(change (Z.of_nat 4) with 4; lia)) as [w Hw].
  destruct (load_bytes_some wav_data 12 4 ltac:(lia)
              ltac:(change (Z.of_nat 4) with 4; lia)) as [f Hf].
  unfold magic_ok in Hmagic. rewrite Hr, Hw, Hf in Hmagic.
  apply andb_prop in Hmagic. destruct Hmagic as [Hmagic Hfmt].
  apply andb_prop in Hmagic. destruct Hmagic as [Hriff Hwave].
  unfold wasm_wav_to_audio_buffer.
  destruct (Z.ltb_spec wav_size 44) as [? | _]; [lia |].
  apply returns_bind. eapply returns_lift; [exact Hr |].
  rewrite Hriff. cbn [negb].
  apply returns_bind. eapply returns_lift; [exact Hw |].
  rewrite Hwave. cbn [negb].
  apply returns_bind. eapply returns_lift; [exact Hf |].
  rewrite Hfmt. cbn [negb].
  apply returns_bind. eapply returns_lift; [exact Hbits |].
  apply returns_bind. eapply returns_lift; [exact Hch |].
  apply returns_bind. eapply returns_lift; [exact Hrate |].
  apply returns_bind. eapply returns_lift; [exact Hdsz |].
  destruct (Z.eqb_spec (ch * u16 (bits / 8)) 0) as [? | _]; [contradiction |].
  apply returns_bind.
  destruct (reserve_returns heap_grants (u32 (dsz / (ch * u16 (bits / 8)) * ch * 4)) g
              ltac:(unfold u32; apply Z.mod_pos_bound; lia) Hcons)
    as (ok & g1 & Hres & H1).
  exists ok, g1. split; [exact Hres |].
  pose proof (reserve_payload _ _ _ _ _ Hres) as Hpay.
  destruct ok; [| destruct H1 as (_ & ? & ?); destruct Halloc; [lia | congruence]].
  destruct H1 as (_ & _ & Hs1 & _ & Hroom).
  cbn [negb]. apply Hrest; assumption.
Qed.

(** C1, amended.  For every byte buffer of size at least 44 passed to
    [wav_to_audio_buffer], the call returns 0 when one of the tags RIFF,
    WAVE and [fmt ] is missing at its canonical offset, and it leaves the
    output descriptor and the arena alone.  With the tags present the fields
    [bits_per_sample], [channels] and [sample_rate] are not validated: for a
    nonzero [channels * (bits/8)] and a granted allocation the call reports
    [data_size / (channels * (bits/8))] frames, whatever the sample rate; at
    16 and 24 bits it decodes the payload; at any other depth it decodes
    nothing: it writes no cell of the arena, whose contents stay what they
    were before the call, so that every float found in it afterwards was
    there before. *)
Theorem wav_validation heap_grants wav_data wav_size output g :
  44 <= wav_size -> 44 <= Z.of_nat (List.length wav_data) ->
  (magic_ok wav_data = false ->
   wasm_wav_to_audio_buffer heap_grants wav_data wav_size output g
   = Some ((0, output), g))
  /\
  (forall bits ch rate dsz,
     magic_ok wav_data = true ->
     field wav_data 34 2 = Some bits -> field wav_data 22 2 = Some ch ->
     field wav_data 24 4 = Some rate -> field wav_data 40 4 = Some dsz ->
     ch * u16 (bits / 8) <> 0 ->
     arena_consistent g ->
     u32 (dsz / (ch * u16 (bits / 8)) * ch * 4) <= capacity g
       \/ heap_grants (u32 (dsz / (ch * u16 (bits / 8)) * ch * 4)) = true ->
     (bits <> 16 -> bits <> 24 ->
      returns (wasm_wav_to_audio_buffer heap_grants wav_data wav_size output) g
        (fun r g' =>
           r = (dsz / (ch * u16 (bits / 8)),
                {| data := ArenaBase; length := dsz / (ch * u16 (bits / 8));
                   num_channels := ch; sample_rate := rate |})
           /\ size g' = u32 (dsz / (ch * u16 (bits / 8)) * ch * 4)
           /\ arena_payload g' = arena_payload g
           /\ forall i x, fcell g' i = Some x ->
                cell_at (float_view (arena_payload g)) (Z.to_nat i) = Some x))
     /\
     (bits = 16 \/ bits = 24 ->
      0 < ch -> 0 <= dsz ->
      dsz / (ch * (bits / 8)) * ch * 4 < 4294967296 ->
      44 + dsz / (ch * (bits / 8)) * ch * (bits / 8) <= Z.of_nat (List.length wav_data) ->
      returns (wasm_wav_to_audio_buffer heap_grants wav_data wav_size output) g
        (fun r g' =>
           r = (dsz / (ch * (bits / 8)),
                {| data := ArenaBase; length := dsz / (ch * (bits / 8));
                   num_channels := ch; sample_rate := rate |})
           /\ size g' = dsz / (ch * (bits / 8)) * ch * 4
           /\ forall i, 0 <= i < dsz / (ch * (bits / 8)) * ch ->
                fcell g' i = pcm_sample bits wav_data i /\ fcell g' i <> None))).
Proof.
  intros Hsize Hlen.
  split.
  - destruct (load_bytes_some wav_data 0 4 ltac:(lia)
                ltac:(change (Z.of_nat 4) with 4; lia)) as [r Hr].
    destruct (load_bytes_some wav_data 8 4 ltac:(lia)
                ltac:(change (Z.of_nat 4) with 4; lia)) as [w Hw].
    destruct (load_bytes_some wav_data 12 4 ltac:(lia)
                ltac:(change (Z.of_nat 4) with 4; lia)) as [f Hf].
    unfold magic_ok. rewrite Hr, Hw, Hf.
    unfold wasm_wav_to_audio_buffer.
    destruct (Z.ltb_spec wav_size 44) as [? | _]; [lia |].
    intro Hmagic. unfold bind at 1. rewrite Hr. cbn [lift].
    destruct (tag_eqb r RIFF); [| reflexivity]. cbn [negb].
    unfold bind at 1. rewrite Hw. cbn [lift].
    destruct (tag_eqb w WAVE); [| reflexivity]. cbn [negb].
    unfold bind at 1. rewrite Hf. cbn [lift].
    destruct (tag_eqb f FMT_); [discriminate Hmagic | reflexivity].
  - intros bits ch rate dsz Hmagic Hbits Hch Hrate Hdsz Hdiv Hcons Halloc.
    split.
    + intros H16 H24.
      apply (wav_to_audio_buffer_prefix heap_grants wav_data wav_size output g
               bits ch rate dsz); try assumption.
      intros g1 Hs1 Hpay Hroom.
      destruct (Z.eqb_spec bits 16) as [? | _]; [contradiction |].
      destruct (Z.eqb_spec bits 24) as [? | _]; [contradiction |].
      apply returns_bind, returns_ret.
      apply returns_bind, set_size_returns, returns_ret.
      split; [reflexivity |]. split; [reflexivity |].
      split; [exact Hpay |].
      intros i x. rewrite <- Hpay.
      unfold fcell, arena_floats, arena_payload. cbn [buffer].
      destruct (buffer g1) as [b |].
      * rewrite cell_at_firstn.
        destruct (Z.to_nat i <? Z.to_nat (blk_size b / 4))%nat;
          [intro H; exact H | discriminate].
      * destruct (Z.to_nat i); discriminate.
    + intros Hdepth Hchpos Hdszpos Hfit Hpayload.
      apply (wav_to_audio_buffer_prefix heap_grants wav_data wav_size output g
               bits ch rate dsz); try assumption.
      intros g1 Hs1 _ Hroom.
      assert (Hbps : u16 (bits / 8) = bits / 8)
        by (destruct Hdepth as [-> | ->]; reflexivity).
      rewrite Hbps in *.
      set (n := dsz / (ch * (bits / 8))) in *.
      assert (Hbpos : 2 <= bits / 8 <= 3)
        by (destruct Hdepth as [-> | ->]; cbn; lia).
      assert (Hn : 0 <= n).
      { unfold n. apply Z.div_pos; [lia |]. apply Z.mul_pos_pos; lia. }
      assert (Hnch : 0 <= n * ch) by (apply Z.mul_nonneg_nonneg; lia).
      rewrite (u32_small (n * ch * 4)) in * by lia.
      rewrite (u32_small (n * ch)) by lia.
      assert (Hroom' : n * ch = 0 \/ room g1 (4 * (n * ch))).
      { destruct Hroom as [? | Hroom]; [left; lia | right].
        eapply room_le; [| exact Hroom]. lia. }
      destruct Hdepth as [-> | ->].
      * change (16 / 8) with 2 in *. change (16 =? 16) with true. cbv iota.
        apply returns_bind.
        eapply returns_weaken; [apply decode_loop16; [lia | lia | exact Hroom'] |].
        intros [] g2 (Hf2 & Hcells). cbv beta.
        apply returns_bind, set_size_returns, returns_ret.
        split; [reflexivity |]. split; [reflexivity |].
        intros i Hi. rewrite fcell_set_size. apply Hcells. exact Hi.
      * change (24 / 8) with 3 in *. change (24 =? 16) with false.
        change (24 =? 24) with true. cbv iota.
        apply returns_bind.
        eapply returns_weaken;
          [apply decode_loop24; [lia | lia | lia | exact Hroom'] |].
        intros [] g2 (Hf2 & Hcells). cbv beta.
        apply returns_bind, set_size_returns, returns_ret.
        split; [reflexivity |]. split; [reflexivity |].
        intros i Hi. rewrite fcell_set_size. apply Hcells. exact Hi.
Qed.

Lemma wav_validation_witness :
  44 <= 48 /\ 44 <= Z.of_nat (List.length eight_bit_wav)
  /\ magic_ok eight_bit_wav = true
  /\ returns (wasm_wav_to_audio_buffer grant_all eight_bit_wav 48 no_output)
       g_memory_buffer_init
       (fun r g' =>
          r = (4 / (1 * u16 (8 / 8)),
               {| data := ArenaBase; length := 4 / (1 * u16 (8 / 8));
                  num_channels := 1; sample_rate := 0 |})
          /\ size g' = u32 (4 / (1 * u16 (8 / 8)) * 1 * 4)
          /\ arena_payload g' = arena_payload g_memory_buffer_init
          /\ forall i x, fcell g' i = Some x ->
               cell_at (float_view (arena_payload g_memory_buffer_init)) (Z.to_nat i)
               = Some x).
Proof.
  assert (H48 : 44 <= 48) by lia.
  assert (Hlen : 44 <= Z.of_nat (List.length eight_bit_wav)) by (cbn; lia).
  split; [exact H48 |]. split; [exact Hlen |]. split; [reflexivity |].
  refine (proj1 (proj2 (wav_validation grant_all eight_bit_wav 48 no_output
                          g_memory_buffer_init H48 Hlen)
                       8 1 0 4 _ _ _ _ _ _ _ _) _ _);
    try reflexivity; try discriminate.
  right. reflexivity.
Defined.

(** ** Resampling to another rate *)

Lemma cast_int_range lo hi x z : cast_int lo hi x = Some z -> lo <= z <= hi.
Proof.
  unfold cast_int. destruct (trunc x) as [t |]; [| discriminate].
  destruct (Z.leb_spec lo t), (Z.leb_spec t hi); cbn [andb]; try discriminate.
  intro Hz. injection Hz as <-. lia.
Qed.

(** No frames come out of an empty source. *)
Lemma resample_length_empty R target T :
  resample_length 0 R target = Some T -> T = 0.
Proof.
  unfold resample_length, to_uint32, cast_int, F64.mul.
  change (F64.of_Z 0) with (S754_zero false).
  destruct (resample_ratio R target) as [s | s | | s m e]; cbn; try discriminate;
    intro H; injection H as <-; reflexivity.
Qed.

Lemma resample_rows cells L C T ratio g1 :
  1 <= L -> 0 <= C -> 0 <= T ->
  L * C <= Z.of_nat (List.length cells) -> L * C < 4294967296 ->
  T * C * 4 < 4294967296 ->
  (forall i, 0 <= i < T -> to_uint32 (F64.div (F64.of_Z i) ratio) <> None) ->
  T * C = 0 \/ room g1 (T * C * 4) ->
  returns
    (for_loop (Z.to_nat C) 0
       (fun ch _ =>
          let src := u32 (ch * L) in
          let dst := u32 (ch * T) in
          for_loop (Z.to_nat T) 0
            (fun i _ =>
               let src_pos := F64.div (F64.of_Z i) ratio in
               src_idx <- lift (to_uint32 src_pos) ;;
               let frac := F64.sub src_pos (F64.of_Z src_idx) in
               if src_idx >=? u32 (L - 1) then
                 x <- load_float (HostMem cells) (src + u32 (L - 1)) ;;
                 store_floats (dst + i) [x]
               else
                 x0 <- load_float (HostMem cells) (src + src_idx) ;;
                 x1 <- load_float (HostMem cells) (src + u32 (src_idx + 1)) ;;
                 store_floats (dst + i)
                   [F64.to_f32
                      (F64.add (F64.mul (F64.of_f32 x0) (F64.sub (F64.of_Z 1) frac))
                               (F64.mul (F64.of_f32 x1) frac))]) tt) tt) g1
    (fun _ g' =>
       same_frame g1 g' /\ forall j, 0 <= j < T * C -> fcell g' j <> None).
Proof.
  intros HL HC HT Hcells Hlc Hfit Hconv Hroom.
  eapply returns_weaken.
  - apply (returns_for_loop
             (fun ch (_ : unit) g' =>
                same_frame g1 g' /\ forall j, 0 <= j < ch * T -> fcell g' j <> None)).
    + split; [apply same_frame_refl |]. intros j Hj. lia.
    + intros ch [] g2 Hch (Hf2 & Hd2). rewrite Z2Nat.id in Hch by lia.
      assert (HchL : 0 <= ch * L /\ ch * L + L <= C * L) by nia.
      assert (HchT : 0 <= ch * T /\ ch * T + T <= C * T) by nia.
      rewrite (Z.mul_comm L C) in Hcells, Hlc.
      rewrite (Z.mul_comm T C) in Hfit, Hroom.
      cbv zeta.
      rewrite (u32_small (ch * L)) by lia.
      rewrite (u32_small (ch * T)) by lia.
      rewrite (u32_small (L - 1)) by lia.
      eapply returns_weaken.
      * apply (returns_for_loop
                 (fun i (_ : unit) g' =>
                    same_frame g1 g'
                    /\ forall j, 0 <= j < ch * T + i -> fcell g' j <> None)).
        -- split; [exact Hf2 |]. intros j Hj. apply Hd2. lia.
        -- intros i [] g3 Hi (Hf3 & Hd3). rewrite Z2Nat.id in Hi by lia.
           destruct (to_uint32 (F64.div (F64.of_Z i) ratio)) as [idx |] eqn:Hidx;
             [| exfalso; apply (Hconv i ltac:(lia)); exact Hidx].
           pose proof (cast_int_range _ _ _ _ Hidx) as Hrange.
           apply returns_bind. eapply returns_lift; [reflexivity |].
           assert (Hstore : room g3 (4 * (ch * T + i + 1))).
           { destruct Hroom as [? | Hroom]; [lia |].
             eapply room_le; [| eapply room_same_frame; [exact Hf3 | exact Hroom]].
             lia. }
           assert (Hnext : forall v g4,
                     same_frame g3 g4 /\ fcell g4 (ch * T + i) = Some v
                     /\ (forall k, 0 <= k -> k <> ch * T + i -> fcell g4 k = fcell g3 k) ->
                     same_frame g1 g4
                     /\ forall j, 0 <= j < ch * T + (i + 1) -> fcell g4 j <> None).
           { intros v g4 (Hf4 & Hnew & Hkeep).
             split; [eapply same_frame_trans; eassumption |].
             intros j Hj. destruct (Z.eq_dec j (ch * T + i)) as [-> | Hne].
             - rewrite Hnew. discriminate.
             - rewrite Hkeep by lia. apply Hd3. lia. }
           destruct (Z.geb_spec idx (L - 1)) as [Hge | Hlt].
           ++ destruct (nth_error cells (Z.to_nat (ch * L + (L - 1)))) as [x |] eqn:Hx;
                [| apply nth_error_None in Hx; lia].
              apply returns_bind. eapply returns_load_float_host; [lia | exact Hx |].
              eapply returns_weaken; [apply store_float_at; [lia | exact Hstore] |].
              intros [] g4 H4. cbv beta. apply (Hnext x). exact H4.
           ++ rewrite (u32_small (idx + 1)) by lia.
              destruct (nth_error cells (Z.to_nat (ch * L + idx))) as [x0 |] eqn:Hx0;
                [| apply nth_error_None in Hx0; lia].
              destruct (nth_error cells (Z.to_nat (ch * L + (idx + 1)))) as [x1 |] eqn:Hx1;
                [| apply nth_error_None in Hx1; lia].
              apply returns_bind. eapply returns_load_float_host; [lia | exact Hx0 |].
              apply returns_bind. eapply returns_load_float_host; [lia | exact Hx1 |].
              eapply returns_weaken; [apply store_float_at; [lia | exact Hstore] |].
              intros [] g4 H4. cbv beta. eapply Hnext. exact H4.
      * intros [] g3 (Hf3 & Hd3). cbv beta.
        rewrite Z.add_0_l, Z2Nat.id in Hd3 by lia.
        split; [exact Hf3 |]. intros j Hj. apply Hd3. lia.
  - intros [] g' (Hf & Hd). cbv beta.
    rewrite Z.add_0_l, Z2Nat.id in Hd by lia.
    split; [exact Hf |]. intros j Hj. apply Hd. lia.
Qed.

(** C8, as stated: the call returns exactly
    [floor(source.length * target_sample_rate / source.sample_rate)], the
    floor of the exact ratio.  It does not: 400 frames at 8000 Hz resampled
    to 18900 Hz give 944 frames, and the exact quotient is 945. *)
Lemma resample_length_not_exact_floor :
  sample_rate silence_400 <> 18900
  /\ (exists out g',
        wasm_resample_audio grant_all silence_400 18900 no_output g_memory_buffer_init
        = Some ((944, out), g'))
  /\ length silence_400 * 18900 / sample_rate silence_400 = 945.
Proof.
  split; [discriminate |]. split; [| reflexivity].
  eexists. eexists. vm_compute. reflexivity.
Qed.

(** C8, amended.  For every source descriptor of host memory and every
    target rate different from the source rate, [resample_audio] returns the
    frame count [T = (uint32)(source.length * ratio)] computed in double
    precision with [ratio = (double)target / source.sample_rate], and it
    defines [T] frames of every channel in the arena; it returns 0 when the
    arena allocation fails.  [T] is the exact floor in the scenario of the
    specification (4 frames from 1000 Hz to 2000 Hz give 8) and can be one
    less than it.  (The sizes fit in 32 bits and the source positions
    [i / ratio] convert to [uint32].) *)
Theorem resample_length_law heap_grants source target output g T :
  host_buffer source ->
  sample_rate source <> target ->
  resample_length (length source) (sample_rate source) target = Some T ->
  length source * num_channels source < 4294967296 ->
  T * num_channels source * 4 < 4294967296 ->
  (forall i, 0 <= i < T -> position_converts (sample_rate source) target i) ->
  arena_consistent g ->
  (capacity g < T * num_channels source * 4 ->
   heap_grants (T * num_channels source * 4) = false ->
   wasm_resample_audio heap_grants source target output g = Some ((0, output), g))
  /\
  (T * num_channels source * 4 <= capacity g
     \/ heap_grants (T * num_channels source * 4) = true ->
   returns (wasm_resample_audio heap_grants source target output) g
     (fun r g' =>
        r = (T, {| data := ArenaBase; length := T;
                   num_channels := num_channels source; sample_rate := target |})
        /\ size g' = T * num_channels source * 4
        /\ forall j, 0 <= j < T * num_channels source -> fcell g' j <> None)).
Proof.
  intros (Hdata & HL & HC & Hcells) Hrate HT Hlc Hfit Hconv Hcons.
  pose proof (cast_int_range _ _ _ _ HT) as HTr.
  assert (HTC : 0 <= T * num_channels source) by (apply Z.mul_nonneg_nonneg; lia).
  unfold wasm_resample_audio.
  destruct (Z.eqb_spec (sample_rate source) target) as [? | _]; [contradiction |].
  split.
  - intros Hcap Hdeny.
    unfold bind at 1. rewrite HT. cbn [lift].
    rewrite (u32_small (T * num_channels source * 4)) by lia.
    unfold bind at 1. unfold reserve, realloc, bind, get.
    destruct (Z.gtb_spec (T * num_channels source * 4) (capacity g)) as [_ | ?]; [| lia].
    rewrite Hdeny. reflexivity.
  - intro Halloc.
    apply returns_bind. eapply returns_lift; [exact HT |].
    rewrite (u32_small (T * num_channels source * 4)) by lia.
    apply returns_bind.
    eapply returns_weaken; [apply reserve_returns; [lia | exact Hcons] |].
    intros ok g1 H1. cbv beta in H1 |- *.
    destruct ok; [| destruct H1 as (_ & ? & ?); destruct Halloc; [lia | congruence]].
    destruct H1 as (_ & _ & _ & _ & Hroom).
    cbn [negb]. rewrite Hdata.
    apply returns_bind.
    destruct (Z.eq_dec T 0) as [HT0 | HT0].
    + (* no output frame: the inner loop never runs *)
      subst T. change (Z.to_nat 0) with 0%nat. cbn [for_loop].
      eapply returns_weaken.
      * apply (returns_for_loop (fun _ (_ : unit) g' => g' = g1)); [reflexivity |].
        intros ch [] g2 _ ->. apply returns_ret. reflexivity.
      * intros [] g2 ->. cbv beta.
        apply returns_bind, set_size_returns, returns_ret.
        split; [reflexivity |]. split; [reflexivity |]. intros j Hj. lia.
    + assert (HL1 : 1 <= length source).
      { destruct (Z.eq_dec (length source) 0) as [Hz | ?]; [| lia].
        rewrite Hz in HT. apply resample_length_empty in HT. contradiction. }
      eapply returns_weaken.
      * apply resample_rows; try assumption; try lia.
        destruct Hroom as [? | Hroom]; [left; lia | right; exact Hroom].
      * intros [] g2 (Hf2 & Hd2). cbv beta.
        apply returns_bind, set_size_returns, returns_ret.
        split; [reflexivity |]. split; [reflexivity |].
        intros j Hj. rewrite fcell_set_size. apply Hd2. exact Hj.
Qed.

Lemma resample_length_law_witness :
  host_buffer zero_one_zero_one
  /\ resample_length 4 1000 2000 = Some 8
  /\ returns (wasm_resample_audio grant_all zero_one_zero_one 2000 no_output)
       g_memory_buffer_init
       (fun r g' =>
          r = (8, {| data := ArenaBase; length := 8;
                     num_channels := 1; sample_rate := 2000 |})
          /\ size g' = 8 * 1 * 4
          /\ forall j, 0 <= j < 8 * 1 -> fcell g' j <> None).
Proof.
  assert (Hhost : host_buffer zero_one_zero_one) by (repeat split; try reflexivity; cbn; lia).
  assert (HT : resample_length 4 1000 2000 = Some 8) by (vm_compute; reflexivity).
  split; [exact Hhost |]. split; [exact HT |].
  refine (proj2 (resample_length_law grant_all zero_one_zero_one 2000 no_output
                   g_memory_buffer_init 8 Hhost _ HT _ _ _ _) _).
  - discriminate.
  - reflexivity.
  - reflexivity.
  - intros i Hi.
    assert (Hcases : i = 0 \/ i = 1 \/ i = 2 \/ i = 3 \/ i = 4 \/ i = 5 \/ i = 6 \/ i = 7)
      by lia.
    destruct Hcases as [-> | [-> | [-> | [-> | [-> | [-> | [-> | ->]]]]]]];
      vm_compute; discriminate.
  - reflexivity.
  - right. reflexivity.
Defined.

(** ** Slice inside the bounds *)

(** X13.  [wasm_slice_audio] with a start frame up to the end of the
    source: the slice is clamped to [min(slice_length, source.length -
    start_sample)] frames, that count is returned, and the frames of every
    channel are copied from [start_sample] on, planar with the clamped
    count as stride. *)
Lemma slice_within_bounds heap_grants source start_sample slice_length g :
  host_buffer source ->
  0 <= start_sample <= length source -> 0 <= slice_length ->
  start_sample + slice_length < 4294967296 ->
  length source < 4294967296 ->
  length source * num_channels source < 4294967296 ->
  Z.min slice_length (length source - start_sample) * num_channels source * 4
    < 4294967296 ->
  arena_consistent g ->
  Z.min slice_length (length source - start_sample) * num_channels source * 4
    <= capacity g
  \/ heap_grants (Z.min slice_length (length source - start_sample)
                  * num_channels source * 4) = true ->
  returns (wasm_slice_audio heap_grants source start_sample slice_length) g
    (fun r g' =>
       r = Z.min slice_length (length source - start_sample)
       /\ size g' = r * num_channels source * 4
       /\ forall c i, 0 <= c < num_channels source -> 0 <= i < r ->
            fcell g' (c * r + i)
            = nth_error (host_cells source)
                        (Z.to_nat (c * length source + start_sample + i))).
Proof.
  intros (Hdata & HL & HC & Hcells) Hstart Hlen Hsum HL32 Hlc Hfit Hcons Halloc.
  set (L := length source) in *. set (C := num_channels source) in *.
  set (n := Z.min slice_length (L - start_sample)) in *.
  assert (Hn : 0 <= n <= L - start_sample) by lia.
  assert (HnC : 0 <= n * C) by (apply Z.mul_nonneg_nonneg; lia).
  unfold wasm_slice_audio. fold L C.
  rewrite (u32_small (start_sample + slice_length)) by lia.
  rewrite (u32_small (L - start_sample)) by lia.
  replace (if start_sample + slice_length >? L then L - start_sample else slice_length)
    with n by (destruct (Z.gtb_spec (start_sample + slice_length) L); lia).
  rewrite (u32_small (n * C * 4)) by lia.
  apply returns_bind.
  eapply returns_weaken; [apply reserve_returns; [lia | exact Hcons] |].
  intros ok g1 H1. cbv beta in H1 |- *.
  destruct ok; [| destruct H1 as (_ & ? & ?); destruct Halloc; [lia | congruence]].
  destruct H1 as (_ & _ & _ & _ & Hroom).
  cbn [negb]. rewrite Hdata.
  apply returns_bind.
  eapply returns_weaken.
  - apply (returns_for_loop
             (fun ch (_ : unit) g' =>
                same_frame g1 g'
                /\ forall c i, 0 <= c < ch -> 0 <= i < n ->
                     fcell g' (c * n + i)
                     = nth_error (host_cells source)
                                 (Z.to_nat (c * L + start_sample + i)))).
    + split; [apply same_frame_refl |]. intros c i Hc. lia.
    + intros ch [] g2 Hch (Hf2 & Hc2). rewrite Z2Nat.id in Hch by lia.
      destruct (planar_rows ch C L HL ltac:(lia)) as [HchL HchL'].
      destruct (planar_rows ch C n ltac:(lia) ltac:(lia)) as [Hchn Hchn'].
      rewrite (Z.mul_comm L C) in Hcells, Hlc.
      rewrite (Z.mul_comm n C) in Hfit, Hroom, HnC.
      rewrite (u32_small (ch * n)) by lia.
      rewrite (u32_small (ch * L)) by lia.
      rewrite (u32_small (n * 4)) by lia.
      rewrite (Z.mul_comm n 4).
      eapply returns_weaken.
      * apply memcpy_floats_host; try lia.
        destruct (Z.eq_dec n 0) as [Hz | Hnz]; [left; exact Hz | right].
        destruct Hroom as [? | Hroom]; [lia |].
        eapply room_le; [| eapply room_same_frame; [exact Hf2 | exact Hroom]]. lia.
      * intros [] g3 (Hf3 & Hc3). cbv beta.
        split; [eapply same_frame_trans; eassumption |].
        intros c i Hc Hi.
        pose proof (planar_row_nonneg c n ltac:(lia) ltac:(lia)) as Hcn.
        rewrite Hc3 by lia.
        destruct (Z.eq_dec c ch) as [-> | Hne].
        -- destruct (Z.leb_spec (ch * n) (ch * n + i)) as [_ | ?]; [| lia].
           destruct (Z.ltb_spec (ch * n + i) (ch * n + n)) as [_ | ?]; [| lia].
           cbn [andb]. f_equal. lia.
        -- destruct (planar_rows c ch n ltac:(lia) ltac:(lia)) as [_ Hrow].
           destruct (Z.leb_spec (ch * n) (c * n + i)) as [? | _]; [lia |].
           cbn [andb]. apply Hc2; lia.
  - intros [] g2 (Hf2 & Hc2). cbv beta.
    rewrite Z.add_0_l, Z2Nat.id in Hc2 by lia.
    apply returns_bind, set_size_returns, returns_ret.
    split; [reflexivity |]. split; [reflexivity |].
    intros c i Hc Hi. rewrite fcell_set_size. apply Hc2; assumption.
Qed.

(** ** The arena invariant across the operations *)

Lemma fp_ret {A} (a : A) : frame_preserving (ret a).
Proof. intros g x g' H. injection H as _ <-. apply same_frame_refl. Qed.

Lemma fp_trap {A} : frame_preserving (@trap A).
Proof. intros g x g' H. discriminate H. Qed.

Lemma fp_lift {A} (o : option A) : frame_preserving (lift o).
Proof.
  intros g x g' H. unfold lift in H. destruct o; [| discriminate H].
  injection H as _ <-. apply same_frame_refl.
Qed.

Lemma fp_get : frame_preserving get.
Proof. intros g x g' H. injection H as _ <-. apply same_frame_refl. Qed.

Lemma fp_bind {A B} (c : M A) (k : A -> M B) :
  frame_preserving c -> (forall a, frame_preserving (k a)) ->
  frame_preserving (bind c k).
Proof.
  intros Hc Hk g b g' H. unfold bind in H.
  destruct (c g) as [[a g1] |] eqn:E; [| discriminate H].
  eapply same_frame_trans; [eapply Hc; exact E | eapply Hk; exact H].
Qed.

Lemma fp_if {A} (b : bool) (c1 c2 : M A) :
  frame_preserving c1 -> frame_preserving c2 ->
  frame_preserving (if b then c1 else c2).
Proof. destruct b; auto. Qed.

Lemma fp_for_loop {S} (body : Z -> S -> M S) :
  (forall i s, frame_preserving (body i s)) ->
  forall n i s, frame_preserving (for_loop n i body s).
Proof.
  intros Hbody. induction n as [| n IH]; intros i s; cbn [for_loop].
  - apply fp_ret.
  - apply fp_bind; [apply Hbody | intro s'; apply IH].
Qed.

Lemma fp_store_bytes off vs : frame_preserving (store_bytes off vs).
Proof.
  intros g x g' H. unfold store_bytes in H.
  destruct vs as [| v vs']; [injection H as _ <-; apply same_frame_refl |].
  unfold bind, get, put, trap in H.
  destruct (buffer g) as [b |] eqn:Hb; [| discriminate H].
  destruct (off + Z.of_nat (List.length (v :: vs')) <=? blk_size b); [| discriminate H].
  injection H as _ <-. unfold same_frame. cbn [size capacity buffer option_map blk_size].
  rewrite Hb. auto.
Qed.

Lemma fp_store_floats off vs : frame_preserving (store_floats off vs).
Proof.
  intros g x g' H. unfold store_floats in H.
  destruct vs as [| v vs']; [injection H as _ <-; apply same_frame_refl |].
  unfold bind, get, put, trap in H.
  destruct (buffer g) as [b |] eqn:Hb; [| discriminate H].
  destruct (4 * (off + Z.of_nat (List.length (v :: vs'))) <=? blk_size b);
    [| discriminate H].
  injection H as _ <-. unfold same_frame. cbn [size capacity buffer option_map blk_size].
  rewrite Hb. auto.
Qed.

Lemma fp_load_floats p off n : frame_preserving (load_floats p off n).
Proof.
  unfold load_floats. apply fp_if; [apply fp_ret |].
  destruct p as [| cells |].
  - apply fp_trap.
  - apply fp_if; [apply fp_ret | apply fp_trap].
  - apply fp_bind; [apply fp_get |]. intro g0.
    apply fp_if; [apply fp_lift | apply fp_trap].
Qed.

Lemma fp_load_float p i : frame_preserving (load_float p i).
Proof.
  unfold load_float. apply fp_bind; [apply fp_load_floats |].
  intros [| x [| y l]]; try apply fp_trap. apply fp_ret.
Qed.

Lemma fp_store_float p i v : frame_preserving (store_float p i v).
Proof.
  unfold store_float. destruct p as [| cells |].
  - apply fp_trap.
  - apply fp_if; [apply fp_ret | apply fp_trap].
  - apply fp_bind; [apply fp_store_floats | intros; apply fp_ret].
Qed.

Lemma fp_memcpy_floats dst src soff nbytes :
  frame_preserving (memcpy_floats dst src soff nbytes).
Proof.
  unfold memcpy_floats. apply fp_bind; [apply fp_load_floats |].
  intro vs. apply fp_store_floats.
Qed.

Lemma fp_merge_total bs C R : forall n i acc,
  frame_preserving (merge_total bs n i C R acc).
Proof.
  induction n as [| n IH]; intros i acc; cbn [merge_total].
  - apply fp_ret.
  - apply fp_bind; [apply fp_lift |]. intro b.
    apply fp_if; [apply fp_ret | apply IH].
Qed.

Create HintDb frame.

#[local] Hint Resolve fp_ret fp_trap fp_lift fp_get fp_store_bytes fp_store_floats
  fp_load_floats fp_load_float fp_store_float fp_memcpy_floats fp_merge_total
  : frame.

Ltac frame :=
  repeat match goal with
  | |- frame_preserving _ => solve [auto with frame]
  | |- frame_preserving (let _ := _ in _) => cbv zeta
  | |- frame_preserving (bind _ _) => apply fp_bind; [| intro]
  | |- frame_preserving (for_loop _ _ _ _) => apply fp_for_loop; intros
  | |- frame_preserving (if _ then _ else _) => apply fp_if
  end.

(** *** Setting the size *)

Lemma ss_set_size {A} n (r : A) : sets_size n (set_size n ;; ret r).
Proof.
  intros g a g' H. unfold set_size, bind, get, put, ret in H.
  injection H as _ <-. cbn. auto.
Qed.

Lemma ss_bind {A B} n (c : M A) (k : A -> M B) :
  frame_preserving c -> (forall a, sets_size n (k a)) -> sets_size n (bind c k).
Proof.
  intros Hc Hk g b g' H. unfold bind in H.
  destruct (c g) as [[a g1] |] eqn:E; [| discriminate H].
  destruct (Hc _ _ _ E) as (Hs & Hcap & Hblk).
  destruct (Hk _ _ _ _ H) as (Hs' & Hcap' & Hblk').
  repeat split; congruence.
Qed.

Lemma same_null (b b' : option block) :
  option_map blk_size b' = option_map blk_size b -> (b' = None <-> b = None).
Proof.
  destruct b, b'; cbn; intro H; split; intro H0; congruence.
Qed.

Lemma arena_invariant_same_frame g g' :
  same_frame g g' -> arena_invariant g -> arena_invariant g'.
Proof.
  intros (Hs & Hc & Hb) (Hsize & Hnull). unfold arena_invariant.
  rewrite Hs, Hc. split; [exact Hsize |].
  rewrite (same_null _ _ Hb). exact Hnull.
Qed.

(** The common shape of the producing operations: grow the arena to [n]
    bytes or return [r0]; write; set [size] to [n]. *)
Lemma reserve_write_invariant {A} heap_grants n (r0 : A) (rest : M A) g a g' :
  0 <= n -> sets_size n rest ->
  (ok <- reserve heap_grants n ;; if negb ok then ret r0 else rest) g = Some (a, g') ->
  arena_invariant g -> arena_invariant g'.
Proof.
  intros Hn Hrest H ((Hs0 & Hs1) & Hnull).
  unfold bind at 1 in H. unfold reserve, realloc, bind, get, put, ret in H.
  destruct (Z.gtb_spec n (capacity g)) as [Hgt | Hle].
  - destruct (heap_grants n).
    + cbn [negb] in H. destruct (Hrest _ _ _ H) as (Hs & Hc & Hb).
      cbn [capacity buffer option_map blk_size] in Hc, Hb.
      unfold arena_invariant. rewrite Hs, Hc. split; [lia |].
      destruct (buffer g'); cbn in Hb; [| discriminate Hb].
      split; intro H0; [discriminate H0 | lia].
    + cbn [negb] in H. injection H as _ <-. split; [lia | exact Hnull].
  - cbn [negb] in H. destruct (Hrest _ _ _ H) as (Hs & Hc & Hb).
    unfold arena_invariant. rewrite Hs, Hc. split; [lia |].
    rewrite (same_null _ _ Hb). exact Hnull.
Qed.

Lemma u32_nonneg x : 0 <= u32 x.
Proof. unfold u32. apply Z.mod_pos_bound. lia. Qed.

Ltac sized :=
  repeat match goal with
  | |- sets_size _ (let _ := _ in _) => cbv zeta
  | |- sets_size _ (bind (set_size _) _) => apply ss_set_size
  | |- sets_size _ (bind _ _) => apply ss_bind; [frame | intro]
  end.

Section Invariant.
Variable heap_grants : Z -> bool.

Lemma audio_buffer_to_wav_invariant audio_data length_ channels rate bits g r g' :
  wasm_audio_buffer_to_wav heap_grants audio_data length_ channels rate bits g
    = Some (r, g') ->
  arena_invariant g -> arena_invariant g'.
Proof.
  unfold wasm_audio_buffer_to_wav. cbv zeta.
  apply reserve_write_invariant; [apply u32_nonneg |]. sized.
Qed.

Lemma slice_audio_invariant source start_sample slice_length g r g' :
  wasm_slice_audio heap_grants source start_sample slice_length g = Some (r, g') ->
  arena_invariant g -> arena_invariant g'.
Proof.
  unfold wasm_slice_audio. cbv zeta.
  apply reserve_write_invariant; [apply u32_nonneg |]. sized.
Qed.

Lemma cross_fade_invariant buffer1 buffer2 fade_length output g r g' :
  wasm_cross_fade heap_grants buffer1 buffer2 fade_length output g = Some (r, g') ->
  arena_invariant g -> arena_invariant g'.
Proof.
  unfold wasm_cross_fade. cbv zeta.
  apply reserve_write_invariant; [apply u32_nonneg |]. sized.
Qed.

Lemma resample_audio_invariant source target output g r g' :
  wasm_resample_audio heap_grants source target output g = Some (r, g') ->
  arena_invariant g -> arena_invariant g'.
Proof.
  unfold wasm_resample_audio. cbv zeta.
  destruct (sample_rate source =? target).
  - intros H Hg. injection H as _ <-. exact Hg.
  - unfold bind at 1. unfold lift at 1.
    destruct (resample_length _ _ _) as [n |]; [| discriminate].
    apply reserve_write_invariant; [apply u32_nonneg |]. sized.
Qed.

Lemma merge_audio_buffers_invariant buffers num_buffers output g r g' :
  wasm_merge_audio_buffers heap_grants buffers num_buffers output g = Some (r, g') ->
  arena_invariant g -> arena_invariant g'.
Proof.
  unfold wasm_merge_audio_buffers. cbv zeta.
  destruct (num_buffers =? 0).
  - intros H Hg. injection H as _ <-. exact Hg.
  - unfold bind at 1. unfold lift at 1.
    destruct (nth_error buffers 0) as [b0 |]; [| discriminate].
    unfold bind at 1.
    destruct (merge_total _ _ _ _ _ _ g) as [[t g1] |] eqn:Et; [| discriminate].
    intros H Hg.
    assert (Hg1 : arena_invariant g1)
      by (eapply arena_invariant_same_frame; [eapply fp_merge_total; exact Et | exact Hg]).
    destruct t as [total |].
    + revert H Hg1. apply reserve_write_invariant; [apply u32_nonneg |]. sized.
    + injection H as _ <-. exact Hg1.
Qed.

Lemma wav_to_audio_buffer_invariant wav_data wav_size output g r g' :
  wasm_wav_to_audio_buffer heap_grants wav_data wav_size output g = Some (r, g') ->
  arena_invariant g -> arena_invariant g'.
Proof.
  unfold wasm_wav_to_audio_buffer. cbv zeta.
  destruct (wav_size <? 44); [intros H Hg; injection H as _ <-; exact Hg |].
  unfold bind at 1. unfold lift at 1.
  destruct (load_bytes wav_data 0 4) as [t1 |]; [| discriminate].
  destruct (negb (tag_eqb t1 RIFF)); [intros H Hg; injection H as _ <-; exact Hg |].
  unfold bind at 1. unfold lift at 1.
  destruct (load_bytes wav_data 8 4) as [t2 |]; [| discriminate].
  destruct (negb (tag_eqb t2 WAVE)); [intros H Hg; injection H as _ <-; exact Hg |].
  unfold bind at 1. unfold lift at 1.
  destruct (load_bytes wav_data 12 4) as [t3 |]; [| discriminate].
  destruct (negb (tag_eqb t3 FMT_)); [intros H Hg; injection H as _ <-; exact Hg |].
  unfold bind at 1. unfold lift at 1.
  destruct (field wav_data 34 2) as [bits |]; [| discriminate].
  unfold bind at 1. unfold lift at 1.
  destruct (field wav_data 22 2) as [channels |]; [| discriminate].
  unfold bind at 1. unfold lift at 1.
  destruct (field wav_data 24 4) as [rate |]; [| discriminate].
  unfold bind at 1. unfold lift at 1.
  destruct (field wav_data 40 4) as [dsize |]; [| discriminate].
  destruct (_ =? 0); [discriminate |].
  apply reserve_write_invariant; [apply u32_nonneg |]. sized.
Qed.

Lemma adjust_volume_invariant buffer_ volume g r g' :
  wasm_adjust_volume buffer_ volume g = Some (r, g') ->
  arena_invariant g -> arena_invariant g'.
Proof.
  intros H. apply arena_invariant_same_frame. revert H.
  unfold wasm_adjust_volume. cbv zeta.
  generalize g r g'. change (frame_preserving
    (p <- for_loop (Z.to_nat (u32 (length buffer_ * num_channels buffer_))) 0
         (fun i p =>
            x <- load_float p i ;;
            store_float p i (fmaxf F32.minus_one (fminf F32.one (F32.mul x volume))))
         (data buffer_) ;;
     ret {| data := p; length := length buffer_;
            num_channels := num_channels buffer_; sample_rate := sample_rate buffer_ |})).
  frame.
Qed.

Lemma init_memory_success_invariant size_ g :
  heap_grants size_ = true -> 0 < size_ ->
  returns (wasm_init_memory heap_grants size_) g
    (fun r g' => r = size_ /\ arena_invariant g').
Proof.
  intros Hh Hpos. unfold returns, wasm_init_memory, bind, get, put, ret, malloc.
  rewrite Hh. eexists _, _. split; [reflexivity |].
  split; [reflexivity |]. unfold arena_invariant. cbn. split; [lia |].
  split; intro H; [discriminate H | lia].
Qed.

End Invariant.

(** * Further properties of the code *)

(** ** The clamp on every float *)

(** Every float that is not a NaN is at or above 1, at or below -1, or
    strictly between the two, in the comparison of the floats. *)
Lemma clamp_cases s :
  is_nan s = false ->
  (SFleb F32.one s = true /\ clamp s = F32.one)
  \/ (SFleb s F32.minus_one = true /\ clamp s = F32.minus_one)
  \/ (SFltb F32.minus_one s = true /\ SFltb s F32.one = true /\ clamp s = s).
Proof.
  intro Hn.
  assert (H : SFleb F32.one s = true \/ SFleb s F32.minus_one = true
              \/ (SFltb F32.minus_one s = true /\ SFltb s F32.one = true)).
  { change F32.one with (S754_finite false 8388608 (-23)).
    change F32.minus_one with (S754_finite true 8388608 (-23)).
    destruct s as [b | b | | sg m e]; try discriminate.
    - right; right. destruct b; split; reflexivity.
    - destruct b; [right; left | left]; reflexivity.
    - unfold SFleb, SFltb. rewrite !SFcompare_finite.
      destruct sg.
      + rewrite (Z.compare_antisym e (-23)).
        rewrite (Z.compare_antisym (Zpos m) 8388608).
        destruct (e ?= -23); cbn [CompOpp];
          [destruct (Zpos m ?= 8388608); cbn [CompOpp] | |]; tauto.
      + rewrite (Z.compare_antisym (-23) e).
        rewrite (Z.compare_antisym 8388608 (Zpos m)).
        destruct (-23 ?= e); cbn [CompOpp];
          [destruct (8388608 ?= Zpos m); cbn [CompOpp] | |]; tauto. }
  destruct H as [H | [H | [H1 H2]]].
  - left. split; [exact H | apply clamp_above, H].
  - right; left. split; [exact H | apply clamp_below, H].
  - right; right. split; [exact H1 |]. split; [exact H2 | apply clamp_inside; assumption].
Qed.

Lemma SFltb_leb x y : SFltb x y = true -> SFleb x y = true.
Proof.
  unfold SFltb, SFleb. destruct (SFcompare x y) as [[| |] |]; congruence.
Qed.

(** X1.  [fmaxf(-1.0f, fminf(1.0f, sample))] on every float, the NaN and
    the infinities included: the result is never a NaN, it compares at or
    above -1 and at or below 1, and clamping twice is clamping once.  A NaN
    sample is clamped to 1.0, so the encoder writes it as the largest
    code. *)
Theorem clamp_total s :
  is_nan (clamp s) = false
  /\ SFleb F32.minus_one (clamp s) = true /\ SFleb (clamp s) F32.one = true
  /\ clamp (clamp s) = clamp s
  /\ (is_nan s = true ->
      clamp s = F32.one
      /\ encode_sample16 s = Some 32767 /\ encode_sample24 s = Some 8388607).
Proof.
  destruct (is_nan s) eqn:Hn.
  - destruct s; try discriminate Hn. repeat split; reflexivity.
  - destruct (clamp_cases s Hn) as [[H ->] | [[H ->] | (H1 & H2 & Hc)]].
    + split; [reflexivity |]. split; [reflexivity |]. split; [reflexivity |].
      split; [reflexivity | discriminate].
    + split; [reflexivity |]. split; [reflexivity |]. split; [reflexivity |].
      split; [reflexivity | discriminate].
    + rewrite !Hc. split; [exact Hn |].
      split; [apply SFltb_leb, H1 |]. split; [apply SFltb_leb, H2 |].
      split; [reflexivity | discriminate].
Qed.

(** ** Sequences of calls *)

Lemma bind_ret_tt {A} (c : M A) g g' :
  (c ;; ret tt) g = Some (tt, g') -> exists a, c g = Some (a, g').
Proof.
  unfold bind, ret. destruct (c g) as [[a g1] |]; [| discriminate].
  intro H. injection H as <-. exists a. reflexivity.
Qed.

Lemma run_invariant heap_grants c g g' :
  init_granted heap_grants c ->
  run heap_grants c g = Some (tt, g') ->
  arena_invariant g -> arena_invariant g'.
Proof.
  intros Hgr Hrun Hg. destruct c; cbn [run] in Hrun.
  - destruct Hgr as [Hpos Hh]. apply bind_ret_tt in Hrun. destruct Hrun as [a Ha].
    destruct (init_memory_success_invariant heap_grants size_ g Hh Hpos)
      as (a' & g1 & H1 & _ & Hinv).
    rewrite Ha in H1. injection H1 as _ <-. exact Hinv.
  - apply bind_ret_tt in Hrun. destruct Hrun as [a Ha].
    injection Ha as _ <-. exact Hg.
  - destruct (arena_invariant_cleanup g) as (g1 & H1 & Hinv).
    rewrite Hrun in H1. injection H1 as <-. exact Hinv.
  - apply bind_ret_tt in Hrun. destruct Hrun as [a Ha].
    eapply audio_buffer_to_wav_invariant; eassumption.
  - apply bind_ret_tt in Hrun. destruct Hrun as [a Ha].
    eapply wav_to_audio_buffer_invariant; eassumption.
  - apply bind_ret_tt in Hrun. destruct Hrun as [a Ha].
    eapply slice_audio_invariant; eassumption.
  - apply bind_ret_tt in Hrun. destruct Hrun as [a Ha].
    eapply merge_audio_buffers_invariant; eassumption.
  - apply bind_ret_tt in Hrun. destruct Hrun as [a Ha].
    eapply resample_audio_invariant; eassumption.
  - apply bind_ret_tt in Hrun. destruct Hrun as [a Ha].
    eapply adjust_volume_invariant; eassumption.
  - apply bind_ret_tt in Hrun. destruct Hrun as [a Ha].
    eapply cross_fade_invariant; eassumption.
  - apply bind_ret_tt in Hrun. destruct Hrun as [a Ha].
    injection Ha as _ <-. exact Hg.
Qed.

(** X2.  The arena invariant ([size <= capacity], the storage pointer null
    exactly when the capacity is 0) holds after every sequence of calls of
    the exported functions that starts in a state where it holds, the
    initial state for one, provided that no call of [wasm_init_memory] in
    the sequence is refused or asks for 0 bytes. *)
Theorem arena_invariant_all_calls heap_grants cs : forall g g',
  arena_invariant g ->
  Forall (init_granted heap_grants) cs ->
  run_all heap_grants cs g = Some (tt, g') ->
  arena_invariant g'.
Proof.
  induction cs as [| c cs IH]; intros g g' Hg Hall Hrun.
  - injection Hrun as <-. exact Hg.
  - cbn [run_all] in Hrun. unfold bind in Hrun.
    destruct (run heap_grants c g) as [[[] g1] |] eqn:Hc; [| discriminate Hrun].
    inversion Hall as [| c' cs' Hgr Hall']; subst.
    apply (IH g1 g'); [| exact Hall' | exact Hrun].
    eapply run_invariant; eassumption.
Qed.

Lemma arena_invariant_all_calls_witness :
  let cs := [SliceAudio (mono [F32.zero; F32.one; F32.zero; F32.one] 1000) 1 2;
             InitMemory 1024;
             AudioBufferToWav (HostMem [F32.half]) 1 1 8000 16;
             GetBufferSize] in
  arena_invariant g_memory_buffer_init
  /\ Forall (init_granted grant_all) cs
  /\ exists g', run_all grant_all cs g_memory_buffer_init = Some (tt, g')
                /\ size g' = 46 /\ capacity g' = 1024 /\ arena_invariant g'.
Proof.
  intro cs.
  assert (Hall : Forall (init_granted grant_all) cs).
  { repeat constructor. }
  split; [exact arena_invariant_init |]. split; [exact Hall |].
  eexists. split; [vm_compute; reflexivity |].
  split; [reflexivity |]. split; [reflexivity |].
  eapply (arena_invariant_all_calls grant_all cs g_memory_buffer_init);
    [exact arena_invariant_init | exact Hall | vm_compute; reflexivity].
Defined.

(** ** Growth of the arena *)

Lemma arena_consistent_same_frame g g' :
  same_frame g g' -> arena_consistent g -> arena_consistent g'.
Proof.
  intros (_ & Hc & Hb). unfold arena_consistent. rewrite Hc.
  destruct (buffer g) as [b |], (buffer g') as [b' |]; cbn in Hb;
    try discriminate; [| tauto].
  injection Hb as ->. tauto.
Qed.

Lemma reserve_write_consistent {A} heap_grants n (r0 : A) (rest : M A) g a g' :
  0 <= n -> sets_size n rest ->
  (ok <- reserve heap_grants n ;; if negb ok then ret r0 else rest) g = Some (a, g') ->
  arena_consistent g -> arena_consistent g'.
Proof.
  intros Hn Hrest H Hcons.
  unfold bind at 1 in H. unfold reserve, realloc, bind, get, put, ret in H.
  destruct (Z.gtb_spec n (capacity g)) as [Hgt | Hle].
  - destruct (heap_grants n).
    + cbn [negb] in H. destruct (Hrest _ _ _ H) as (Hs & Hc & Hb).
      cbn [capacity buffer option_map blk_size] in Hc, Hb.
      unfold arena_consistent.
      destruct (buffer g') as [b' |]; cbn in Hb; [| discriminate Hb].
      injection Hb as ->. lia.
    + cbn [negb] in H. injection H as _ <-. exact Hcons.
  - cbn [negb] in H. destruct (Hrest _ _ _ H) as (Hs & Hc & Hb).
    apply (arena_consistent_same_frame
             {| buffer := buffer g; size := size g'; capacity := capacity g |}).
    + unfold same_frame. cbn [size capacity buffer]. auto.
    + exact Hcons.
Qed.

Lemma reserve_write_growth {A} heap_grants n (r0 : A) (rest : M A) g a g' :
  0 <= n -> sets_size n rest ->
  (ok <- reserve heap_grants n ;; if negb ok then ret r0 else rest) g = Some (a, g') ->
  arena_invariant g -> arena_consistent g ->
  capacity g' = Z.max (capacity g) (size g') /\ arena_consistent g'.
Proof.
  intros Hn Hrest H ((Hs0 & Hs1) & _) Hcons.
  split; [| exact (reserve_write_consistent heap_grants n r0 rest g a g' Hn Hrest H Hcons)].
  unfold bind at 1 in H. unfold reserve, realloc, bind, get, put, ret in H.
  destruct (Z.gtb_spec n (capacity g)) as [Hgt | Hle].
  - destruct (heap_grants n).
    + cbn [negb] in H. destruct (Hrest _ _ _ H) as (Hs & Hc & Hb).
      cbn [capacity buffer option_map blk_size] in Hc, Hb. lia.
    + cbn [negb] in H. injection H as _ <-. lia.
  - cbn [negb] in H. destruct (Hrest _ _ _ H) as (Hs & Hc & Hb). lia.
Qed.

Lemma audio_buffer_to_wav_consistent heap_grants p L C R bits g r g' :
  wasm_audio_buffer_to_wav heap_grants p L C R bits g = Some (r, g') ->
  arena_consistent g -> arena_consistent g'.
Proof.
  unfold wasm_audio_buffer_to_wav. cbv zeta. intros Ha Hcons.
  eapply reserve_write_consistent; [apply u32_nonneg | | exact Ha | exact Hcons].
  sized.
Qed.

Lemma merge_total_state bs C R : forall n i acc g t g1,
  merge_total bs n i C R acc g = Some (t, g1) -> g1 = g.
Proof.
  induction n as [| n IH]; intros i acc g t g1; cbn [merge_total].
  - intro H. injection H as _ <-. reflexivity.
  - unfold bind, lift. destruct (nth_error bs i) as [b |]; [| discriminate].
    destruct (_ || _); [intro H; injection H as _ <-; reflexivity | apply IH].
Qed.

(** X3.  A producing operation never shrinks the arena and never records
    more capacity than the block holds: from a state that satisfies the
    invariant, whenever one of the six producing calls returns, the
    capacity is the larger of the old capacity and the new [size] (so it
    grows exactly to fit, and stays as it was after a failure), and it is
    backed by the allocated block. *)
Theorem arena_grows_to_fit heap_grants c g g' :
  producing c = true ->
  run heap_grants c g = Some (tt, g') ->
  arena_invariant g -> arena_consistent g ->
  capacity g' = Z.max (capacity g) (size g') /\ arena_consistent g'.
Proof.
  intros Hp Hrun Hg Hcons.
  assert (Hid : capacity g = Z.max (capacity g) (size g))
    by (destruct Hg as [[? ?] _]; lia).
  destruct c; try discriminate Hp; cbn [run] in Hrun;
    apply bind_ret_tt in Hrun; destruct Hrun as [a Ha]; revert Ha.
  - unfold wasm_audio_buffer_to_wav. cbv zeta. intro Ha.
    eapply reserve_write_growth; [apply u32_nonneg | | exact Ha | exact Hg | exact Hcons].
    sized.
  - unfold wasm_wav_to_audio_buffer. cbv zeta.
    destruct (wav_size <? 44); [intro H; injection H as _ <-; tauto |].
    unfold bind at 1. unfold lift at 1.
    destruct (load_bytes wav_data 0 4) as [t1 |]; [| discriminate].
    destruct (negb (tag_eqb t1 RIFF)); [intro H; injection H as _ <-; tauto |].
    unfold bind at 1. unfold lift at 1.
    destruct (load_bytes wav_data 8 4) as [t2 |]; [| discriminate].
    destruct (negb (tag_eqb t2 WAVE)); [intro H; injection H as _ <-; tauto |].
    unfold bind at 1. unfold lift at 1.
    destruct (load_bytes wav_data 12 4) as [t3 |]; [| discriminate].
    destruct (negb (tag_eqb t3 FMT_)); [intro H; injection H as _ <-; tauto |].
    unfold bind at 1. unfold lift at 1.
    destruct (field wav_data 34 2) as [bits |]; [| discriminate].
    unfold bind at 1. unfold lift at 1.
    destruct (field wav_data 22 2) as [channels |]; [| discriminate].
    unfold bind at 1. unfold lift at 1.
    destruct (field wav_data 24 4) as [rate |]; [| discriminate].
    unfold bind at 1. unfold lift at 1.
    destruct (field wav_data 40 4) as [dsize |]; [| discriminate].
    destruct (_ =? 0); [discriminate |].
    intro Ha.
    eapply reserve_write_growth; [apply u32_nonneg | | exact Ha | exact Hg | exact Hcons].
    sized.
  - unfold wasm_slice_audio. cbv zeta. intro Ha.
    eapply reserve_write_growth; [apply u32_nonneg | | exact Ha | exact Hg | exact Hcons].
    sized.
  - unfold wasm_merge_audio_buffers. cbv zeta.
    destruct (num_buffers =? 0); [intro H; injection H as _ <-; tauto |].
    unfold bind at 1. unfold lift at 1.
    destruct (nth_error buffers 0) as [b0 |]; [| discriminate].
    unfold bind at 1.
    destruct (merge_total _ _ _ _ _ _ g) as [[t g1] |] eqn:Et; [| discriminate].
    pose proof (merge_total_state _ _ _ _ _ _ _ _ _ Et) as Hg1.
    subst g1. destruct t as [total |]; [| intro H; injection H as _ <-; tauto].
    intro Ha.
    eapply reserve_write_growth; [apply u32_nonneg | | exact Ha | exact Hg | exact Hcons].
    sized.
  - unfold wasm_resample_audio. cbv zeta.
    destruct (sample_rate source =? target_sample_rate);
      [intro H; injection H as _ <-; tauto |].
    unfold bind at 1. unfold lift at 1.
    destruct (resample_length _ _ _) as [n |]; [| discriminate].
    intro Ha.
    eapply reserve_write_growth; [apply u32_nonneg | | exact Ha | exact Hg | exact Hcons].
    sized.
  - unfold wasm_cross_fade. cbv zeta. intro Ha.
    eapply reserve_write_growth; [apply u32_nonneg | | exact Ha | exact Hg | exact Hcons].
    sized.
Qed.

Lemma arena_grows_to_fit_witness :
  let c := SliceAudio five_frames 1 3 in
  producing c = true
  /\ arena_invariant arena_1024 /\ arena_consistent arena_1024
  /\ exists g', run grant_all c arena_1024 = Some (tt, g')
                /\ size g' = 12 /\ capacity g' = 1024 /\ arena_consistent g'.
Proof.
  intro c.
  assert (Hinv : arena_invariant arena_1024).
  { unfold arena_invariant. cbn. split; [lia | split; intro H; [discriminate H | lia]]. }
  assert (Hcons : arena_consistent arena_1024) by (unfold arena_consistent; cbn; lia).
  split; [reflexivity |]. split; [exact Hinv |]. split; [exact Hcons |].
  eexists. split; [vm_compute; reflexivity |].
  split; [reflexivity |]. split; [reflexivity |].
  eapply (proj2 (arena_grows_to_fit grant_all c arena_1024 _ eq_refl
                   ltac:(vm_compute; reflexivity) Hinv Hcons)).
Defined.

(** ** A refused allocation *)

Lemma reserve_refused {A} heap_grants n (r0 : A) (rest : M A) g :
  capacity g < n -> heap_grants n = false ->
  (ok <- reserve heap_grants n ;; if negb ok then ret r0 else rest) g = Some (r0, g).
Proof.
  intros Hcap Hdeny. unfold bind at 1. unfold reserve, realloc, bind, get.
  destruct (Z.gtb_spec n (capacity g)) as [_ | ?]; [| lia].
  rewrite Hdeny. reflexivity.
Qed.

(** X4.  When the result does not fit the arena and the allocator refuses
    to grow it, [wasm_slice_audio], [wasm_merge_audio_buffers],
    [wasm_cross_fade] and [wasm_wav_to_audio_buffer] return 0 and leave the
    arena (block, size, capacity) and the output descriptor as they were. *)
Theorem allocation_refused_returns_zero heap_grants g :
  (forall source start_sample slice_length,
     0 <= start_sample <= length source -> 0 <= slice_length ->
     start_sample + slice_length < 4294967296 ->
     length source < 4294967296 -> 0 <= num_channels source ->
     let n := Z.min slice_length (length source - start_sample)
              * num_channels source * 4 in
     n < 4294967296 -> capacity g < n -> heap_grants n = false ->
     wasm_slice_audio heap_grants source start_sample slice_length g = Some (0, g))
  /\
  (forall bs C R output,
     bs <> [] ->
     Forall (fun b => host_buffer b /\ num_channels b = C /\ sample_rate b = R) bs ->
     total_frames bs < 4294967296 ->
     let n := total_frames bs * C * 4 in
     n < 4294967296 -> capacity g < n -> heap_grants n = false ->
     wasm_merge_audio_buffers heap_grants bs (Z.of_nat (List.length bs)) output g
     = Some ((0, output), g))
  /\
  (forall buffer1 buffer2 fade_length output,
     0 <= length buffer1 + length buffer2 - fade_length < 4294967296 ->
     0 <= num_channels buffer1 ->
     let n := (length buffer1 + length buffer2 - fade_length)
              * num_channels buffer1 * 4 in
     n < 4294967296 -> capacity g < n -> heap_grants n = false ->
     wasm_cross_fade heap_grants buffer1 buffer2 fade_length output g
     = Some ((0, output), g))
  /\
  (forall wav_data wav_size output bits ch rate dsz,
     44 <= wav_size -> 44 <= Z.of_nat (List.length wav_data) ->
     magic_ok wav_data = true ->
     field wav_data 34 2 = Some bits -> field wav_data 22 2 = Some ch ->
     field wav_data 24 4 = Some rate -> field wav_data 40 4 = Some dsz ->
     ch * u16 (bits / 8) <> 0 ->
     let n := u32 (dsz / (ch * u16 (bits / 8)) * ch * 4) in
     capacity g < n -> heap_grants n = false ->
     wasm_wav_to_audio_buffer heap_grants wav_data wav_size output g
     = Some ((0, output), g)).
Proof.
  split; [| split; [| split]].
  - intros source start_sample slice_length Hstart Hlen Hsum HL HC n Hfit Hcap Hdeny.
    assert (Hn : 0 <= Z.min slice_length (length source - start_sample)) by lia.
    assert (HnC : 0 <= n) by (unfold n; apply Z.mul_nonneg_nonneg;
                              [apply Z.mul_nonneg_nonneg |]; lia).
    unfold wasm_slice_audio.
    rewrite (u32_small (start_sample + slice_length)) by lia.
    rewrite (u32_small (length source - start_sample)) by lia.
    replace (if start_sample + slice_length >? length source
             then length source - start_sample else slice_length)
      with (Z.min slice_length (length source - start_sample))
      by (destruct (Z.gtb_spec (start_sample + slice_length) (length source)); lia).
    fold n. rewrite (u32_small n) by lia.
    apply reserve_refused; assumption.
  - intros bs C R output Hne Hall Htot n Hfit Hcap Hdeny.
    assert (Hhost : Forall host_buffer bs).
    { eapply Forall_impl; [| exact Hall]. intros x (Hx & _). exact Hx. }
    pose proof (total_frames_nonneg bs Hhost) as Hpos.
    destruct bs as [| b0 rest]; [contradiction |].
    assert (HC0 : num_channels b0 = C /\ sample_rate b0 = R /\ 0 <= C).
    { inversion Hall as [| ? ? (Hh & HC' & HR') _]; subst.
      destruct Hh as (_ & _ & ? & _). auto. }
    destruct HC0 as (HC0 & HR0 & HCpos).
    unfold wasm_merge_audio_buffers.
    destruct (Z.eqb_spec (Z.of_nat (List.length (b0 :: rest))) 0) as [Hz | _];
      [cbn [List.length] in Hz; lia |].
    unfold bind at 1. cbn [nth_error lift]. rewrite HC0, HR0.
    unfold bind at 1. rewrite Nat2Z.id.
    rewrite (merge_total_uniform (b0 :: rest) C R g (List.length (b0 :: rest)) 0 0);
      [| lia | exact Hall | reflexivity | exact Htot].
    rewrite Nat.add_0_l, offset_of_all. fold n.
    assert (HnC : 0 <= n) by (unfold n; apply Z.mul_nonneg_nonneg;
                              [apply Z.mul_nonneg_nonneg |]; lia).
    rewrite (u32_small n) by lia.
    apply reserve_refused; assumption.
  - intros buffer1 buffer2 fade_length output HT HC n Hfit Hcap Hdeny.
    assert (HnC : 0 <= n) by (unfold n; apply Z.mul_nonneg_nonneg;
                              [apply Z.mul_nonneg_nonneg |]; lia).
    unfold wasm_cross_fade. cbv zeta.
    rewrite (u32_small (length buffer1 + length buffer2 - fade_length)) by lia.
    fold n. rewrite (u32_small n) by lia.
    apply reserve_refused; assumption.
  - intros wav_data wav_size output bits ch rate dsz Hsize Hlen Hmagic Hbits Hch
           Hrate Hdsz Hdiv n Hcap Hdeny.
    destruct (load_bytes_some wav_data 0 4 ltac:(lia)
                ltac:(change (Z.of_nat 4) with 4; lia)) as [r Hr].
    destruct (load_bytes_some wav_data 8 4 ltac:(lia)
                ltac:(change (Z.of_nat 4) with 4; lia)) as [w Hw].
    destruct (load_bytes_some wav_data 12 4 ltac:(lia)
                ltac:(change (Z.of_nat 4) with 4; lia)) as [f Hf].
    unfold magic_ok in Hmagic. rewrite Hr, Hw, Hf in Hmagic.
    apply andb_prop in Hmagic. destruct Hmagic as [Hmagic Hfmt].
    apply andb_prop in Hmagic. destruct Hmagic as [Hriff Hwave].
    unfold wasm_wav_to_audio_buffer.
    destruct (Z.ltb_spec wav_size 44) as [? | _]; [lia |].
    unfold bind at 1. unfold lift at 1. rewrite Hr, Hriff. cbn [negb].
    unfold bind at 1. unfold lift at 1. rewrite Hw, Hwave. cbn [negb].
    unfold bind at 1. unfold lift at 1. rewrite Hf, Hfmt. cbn [negb].
    unfold bind at 1. unfold lift at 1. rewrite Hbits.
    unfold bind at 1. unfold lift at 1. rewrite Hch.
    unfold bind at 1. unfold lift at 1. rewrite Hrate.
    unfold bind at 1. unfold lift at 1. rewrite Hdsz.
    destruct (Z.eqb_spec (ch * u16 (bits / 8)) 0) as [? | _]; [contradiction |].
    cbv zeta. fold n. apply reserve_refused; assumption.
Qed.

Lemma allocation_refused_returns_zero_witness :
  wasm_slice_audio heap_exhausted three_frames 1 5 g_memory_buffer_init
    = Some (0, g_memory_buffer_init)
  /\ wasm_merge_audio_buffers heap_exhausted [three_frames; five_frames] 2 no_output
       g_memory_buffer_init = Some ((0, no_output), g_memory_buffer_init)
  /\ wasm_cross_fade heap_exhausted three_frames five_frames 2 no_output
       g_memory_buffer_init = Some ((0, no_output), g_memory_buffer_init)
  /\ wasm_wav_to_audio_buffer heap_exhausted eight_bit_wav 48 no_output
       g_memory_buffer_init = Some ((0, no_output), g_memory_buffer_init).
Proof.
  destruct (allocation_refused_returns_zero heap_exhausted g_memory_buffer_init)
    as (Hslice & Hmerge & Hfade & Hwav).
  split; [| split; [| split]].
  - apply Hslice; cbn; try lia; reflexivity.
  - apply (Hmerge [three_frames; five_frames] 1 44100 no_output);
      try (cbn; lia); try reflexivity; try discriminate.
    repeat constructor; cbn; lia.
  - apply Hfade; cbn; try lia; reflexivity.
  - apply (Hwav eight_bit_wav 48 no_output 8 1 0 4);
      try reflexivity; try (cbn; lia); try discriminate.
Defined.

(** ** A header without channels or with fewer than 8 bits per sample *)

(** X5.  [wasm_wav_to_audio_buffer] divides [data_size] by
    [num_channels * (bits_per_sample / 8)] without a check: on an input
    with the three tags in place whose header announces 0 channels or fewer
    than 8 bits per sample the division is by zero, which is undefined (a
    trap on WebAssembly); the call does not return 0. *)
Theorem wav_zero_block_size_undefined heap_grants wav_data wav_size output g bits ch :
  44 <= wav_size -> 44 <= Z.of_nat (List.length wav_data) ->
  magic_ok wav_data = true ->
  field wav_data 34 2 = Some bits -> field wav_data 22 2 = Some ch ->
  ch = 0 \/ 0 <= bits < 8 ->
  wasm_wav_to_audio_buffer heap_grants wav_data wav_size output g = None.
Proof.
  intros Hsize Hlen Hmagic Hbits Hch Hzero.
  destruct (load_bytes_some wav_data 0 4 ltac:(lia)
              ltac:(change (Z.of_nat 4) with 4; lia)) as [r Hr].
  destruct (load_bytes_some wav_data 8 4 ltac:(lia)
              ltac:(change (Z.of_nat 4) with 4; lia)) as [w Hw].
  destruct (load_bytes_some wav_data 12 4 ltac:(lia)
              ltac:(change (Z.of_nat 4) with 4; lia)) as [f Hf].
  destruct (field_some wav_data 24 4 ltac:(lia)
              ltac:(change (Z.of_nat 4) with 4; lia)) as [rate Hrate].
  destruct (field_some wav_data 40 4 ltac:(lia)
              ltac:(change (Z.of_nat 4) with 4; lia)) as [dsz Hdsz].
  unfold magic_ok in Hmagic. rewrite Hr, Hw, Hf in Hmagic.
  apply andb_prop in Hmagic. destruct Hmagic as [Hmagic Hfmt].
  apply andb_prop in Hmagic. destruct Hmagic as [Hriff Hwave].
  unfold wasm_wav_to_audio_buffer.
  destruct (Z.ltb_spec wav_size 44) as [? | _]; [lia |].
  unfold bind at 1. unfold lift at 1. rewrite Hr, Hriff. cbn [negb].
  unfold bind at 1. unfold lift at 1. rewrite Hw, Hwave. cbn [negb].
  unfold bind at 1. unfold lift at 1. rewrite Hf, Hfmt. cbn [negb].
  unfold bind at 1. unfold lift at 1. rewrite Hbits.
  unfold bind at 1. unfold lift at 1. rewrite Hch.
  unfold bind at 1. unfold lift at 1. rewrite Hrate.
  unfold bind at 1. unfold lift at 1. rewrite Hdsz.
  assert (Hz : ch * u16 (bits / 8) = 0).
  { destruct Hzero as [-> | Hb]; [reflexivity |].
    rewrite (Z.div_small bits 8) by lia. apply Z.mul_0_r. }
  rewrite Hz. reflexivity.
Qed.

Lemma wav_zero_block_size_undefined_witness :
  magic_ok no_channel_wav = true
  /\ field no_channel_wav 22 2 = Some 0
  /\ wasm_wav_to_audio_buffer grant_all no_channel_wav 48 no_output
       g_memory_buffer_init = None.
Proof.
  split; [reflexivity |]. split; [reflexivity |].
  apply (wav_zero_block_size_undefined grant_all no_channel_wav 48 no_output
           g_memory_buffer_init 16 0);
    try reflexivity; try (cbn; lia).
Defined.

(** ** A fresh arena *)

Lemma fcell_indeterminate n i :
  fcell {| buffer := Some {| blk_size := n; blk_data := Indeterminate |};
           size := 0; capacity := n |} i = None.
Proof.
  unfold fcell, cell_at, arena_floats. cbn [buffer blk_size blk_data float_view].
  rewrite firstn_nil. destruct (Z.to_nat i); reflexivity.
Qed.

Lemma bcell_indeterminate n i :
  bcell {| buffer := Some {| blk_size := n; blk_data := Indeterminate |};
           size := 0; capacity := n |} i = None.
Proof.
  unfold bcell, cell_at, arena_bytes. cbn [buffer blk_size blk_data byte_view].
  rewrite firstn_nil. destruct (Z.to_nat i); reflexivity.
Qed.

(** X6.  A granted [wasm_init_memory] of a nonzero size returns that size
    and starts a fresh arena from any state, a state that violates the
    invariant included: the capacity is the size asked for, [size] is 0,
    the invariant holds, what an earlier call had left in the arena is
    gone (no cell of the new block has a defined value), and
    [wasm_get_buffer_size] then answers 0. *)
Theorem init_memory_fresh heap_grants size_ g :
  heap_grants size_ = true -> 0 < size_ ->
  returns (wasm_init_memory heap_grants size_) g
    (fun r g' =>
       r = size_ /\ size g' = 0 /\ capacity g' = size_
       /\ arena_invariant g' /\ arena_consistent g'
       /\ (forall i, fcell g' i = None) /\ (forall i, bcell g' i = None)
       /\ wasm_get_buffer_size g' = Some (0, g')).
Proof.
  intros Hh Hpos. unfold returns, wasm_init_memory, bind, get, put, ret, malloc.
  rewrite Hh. eexists _, _. split; [reflexivity |].
  split; [reflexivity |]. split; [reflexivity |]. split; [reflexivity |].
  split.
  { unfold arena_invariant. cbn. split; [lia |].
    split; intro H; [discriminate H | lia]. }
  split; [unfold arena_consistent; cbn; lia |].
  split; [apply fcell_indeterminate |].
  split; [apply bcell_indeterminate | reflexivity].
Qed.

Lemma init_memory_fresh_witness :
  grant_16MiB 4096 = true
  /\ returns (wasm_init_memory grant_16MiB 4096)
       {| buffer := None; size := 64; capacity := 1024 |}
       (fun r g' =>
          r = 4096 /\ size g' = 0 /\ capacity g' = 4096
          /\ arena_invariant g' /\ arena_consistent g'
          /\ (forall i, fcell g' i = None) /\ (forall i, bcell g' i = None)
          /\ wasm_get_buffer_size g' = Some (0, g')).
Proof.
  split; [reflexivity |].
  apply (init_memory_fresh grant_16MiB 4096); [reflexivity | lia].
Defined.

(** ** A slice inside the bounds, on five frames *)

Lemma slice_within_bounds_witness :
  host_buffer five_frames
  /\ returns (wasm_slice_audio grant_all five_frames 3 4) g_memory_buffer_init
       (fun r g' =>
          r = 2 /\ size g' = 8
          /\ fcell g' 0 = Some (F32.of_Z 7) /\ fcell g' 1 = Some (F32.of_Z 8)).
Proof.
  assert (Hh : host_buffer five_frames) by (repeat split; try reflexivity; cbn; lia).
  split; [exact Hh |].
  eapply returns_weaken.
  - apply (slice_within_bounds grant_all five_frames 3 4 g_memory_buffer_init Hh);
      try (cbn; lia); try reflexivity.
    right. reflexivity.
  - intros r g' (Hr & Hs & Hcells). cbv beta.
    change (Z.min 4 (length five_frames - 3)) with 2 in Hr. subst r.
    split; [reflexivity |]. split; [exact Hs |].
    split.
    + apply (Hcells 0 0); cbn; lia.
    + apply (Hcells 0 1); cbn; lia.
Defined.

(** ** Volume *)

Lemma scaled_prefix_length volume k cells :
  List.length (scaled_prefix volume k cells) = List.length cells.
Proof.
  unfold scaled_prefix. rewrite length_app, length_map, length_firstn, length_skipn. lia.
Qed.

Lemma scaled_prefix_step volume k cells x :
  nth_error cells k = Some x ->
  nth_error (scaled_prefix volume k cells) k = Some x
  /\ firstn k (scaled_prefix volume k cells)
       ++ clamp (F32.mul x volume) :: skipn (S k) (scaled_prefix volume k cells)
     = scaled_prefix volume (S k) cells.
Proof.
  intro Hx.
  assert (Hk : (k < List.length cells)%nat) by (apply nth_error_Some; congruence).
  assert (Hlen : List.length (map (fun x => clamp (F32.mul x volume)) (firstn k cells)) = k)
    by (rewrite length_map, length_firstn; lia).
  unfold scaled_prefix. split.
  - rewrite nth_error_app2 by lia. rewrite Hlen, Nat.sub_diag.
    rewrite nth_error_skipn, Nat.add_0_r. exact Hx.
  - rewrite firstn_app, Hlen, Nat.sub_diag, firstn_O, app_nil_r.
    rewrite firstn_all2 by lia.
    rewrite skipn_app, Hlen.
    rewrite (skipn_all2 (map _ _)) by lia.
    replace (S k - k)%nat with 1%nat by lia.
    rewrite skipn_skipn. cbn [app]. replace (1 + k)%nat with (S k) by lia.
    assert (Hf : firstn (S k) cells = firstn k cells ++ [x]).
    { clear Hlen. revert k Hx Hk. induction cells as [| c cells IH]; intros k Hx Hk.
      - cbn in Hk. lia.
      - destruct k as [| k].
        + cbn in Hx. injection Hx as ->. reflexivity.
        + cbn [firstn app]. f_equal. apply IH; [exact Hx | cbn in Hk; lia]. }
    rewrite Hf, map_app, <- app_assoc. reflexivity.
Qed.

Lemma adjust_volume_loop volume cells g : forall n k,
  (k + n <= List.length cells)%nat ->
  for_loop n (Z.of_nat k)
    (fun i p =>
       x <- load_float p i ;;
       store_float p i (fmaxf F32.minus_one (fminf F32.one (F32.mul x volume))))
    (HostMem (scaled_prefix volume k cells)) g
  = Some (HostMem (scaled_prefix volume (k + n) cells), g).
Proof.
  induction n as [| n IH]; intros k Hk.
  - rewrite Nat.add_0_r. reflexivity.
  - cbn [for_loop].
    destruct (nth_error cells k) as [x |] eqn:Hx;
      [| apply nth_error_None in Hx; lia].
    destruct (scaled_prefix_step volume k cells x Hx) as [Hnth Hstep].
    unfold bind at 1. unfold bind at 1.
    rewrite (load_float_host _ (Z.of_nat k) g x) by (try lia; rewrite Nat2Z.id; exact Hnth).
    unfold store_float. rewrite scaled_prefix_length.
    destruct (Z.ltb_spec (Z.of_nat k) (Z.of_nat (List.length cells))) as [_ | ?]; [| lia].
    unfold ret. rewrite Nat2Z.id.
    change (fmaxf F32.minus_one (fminf F32.one (F32.mul x volume)))
      with (clamp (F32.mul x volume)).
    rewrite Hstep.
    replace (Z.of_nat k + 1) with (Z.of_nat (S k)) by lia.
    replace (k + S n)%nat with (S k + n)%nat by lia.
    apply IH. lia.
Qed.

(** X7.  [wasm_adjust_volume] on a buffer of host memory that holds its
    [length * num_channels] samples: each of these samples [x] is replaced
    by [fmaxf(-1, fminf(1, x * volume))], in place; the samples behind
    them, the fields of the descriptor and the arena are left as they
    were. *)
Theorem adjust_volume_host cells L C R volume g :
  0 <= L * C < 4294967296 ->
  L * C <= Z.of_nat (List.length cells) ->
  wasm_adjust_volume
    {| data := HostMem cells; length := L; num_channels := C; sample_rate := R |}
    volume g
  = Some ({| data := HostMem (map (fun x => clamp (F32.mul x volume))
                                  (firstn (Z.to_nat (L * C)) cells)
                              ++ skipn (Z.to_nat (L * C)) cells);
             length := L; num_channels := C; sample_rate := R |}, g).
Proof.
  intros Hn Hlen. unfold wasm_adjust_volume. cbv zeta.
  cbn [data length num_channels sample_rate].
  rewrite (u32_small (L * C)) by lia.
  pose proof (adjust_volume_loop volume cells g (Z.to_nat (L * C)) 0 ltac:(lia)) as Hloop.
  unfold scaled_prefix at 1 in Hloop. cbn [firstn map skipn app Z.of_nat] in Hloop.
  set (loop := for_loop _ _ _ _) in *. unfold bind. rewrite Hloop. reflexivity.
Qed.

Lemma adjust_volume_host_witness :
  wasm_adjust_volume (mono [F32.half; F32.one; F32.minus_one] 8000) (F32.of_Z 2)
    g_memory_buffer_init
  = Some (mono [F32.one; F32.one; F32.minus_one] 8000, g_memory_buffer_init).
Proof.
  apply (adjust_volume_host [F32.half; F32.one; F32.minus_one] 3 1 8000 (F32.of_Z 2)
           g_memory_buffer_init); cbn; lia.
Defined.

(** *** In the arena *)

Lemma fcell_nth g i x :
  fcell g i = Some x -> nth_error (arena_floats g) (Z.to_nat i) = Some (Some x).
Proof.
  unfold fcell, cell_at.
  destruct (nth_error (arena_floats g) (Z.to_nat i)) as [c |]; [| discriminate].
  intros ->. reflexivity.
Qed.

Lemma fcell_room g i x : 0 <= i -> fcell g i = Some x -> room g (4 * (i + 1)).
Proof.
  intros Hi Hx. apply fcell_nth in Hx.
  assert (Hlt : (Z.to_nat i < List.length (arena_floats g))%nat)
    by (apply nth_error_Some; congruence).
  unfold arena_floats in Hlt. unfold room.
  destruct (buffer g) as [b |]; [| cbn in Hlt; lia].
  exists b. split; [reflexivity |].
  rewrite length_firstn in Hlt.
  assert (Hq : i + 1 <= blk_size b / 4) by lia.
  pose proof (Z.mul_div_le (blk_size b) 4 ltac:(lia)). lia.
Qed.

Lemma load_float_arena g i x :
  0 <= i -> fcell g i = Some x -> load_float ArenaBase i g = Some (x, g).
Proof.
  intros Hi Hx. apply fcell_nth in Hx.
  assert (Hlt : (Z.to_nat i < List.length (arena_floats g))%nat)
    by (apply nth_error_Some; congruence).
  unfold load_float, load_floats. change (1 =? 0) with false. cbv iota.
  unfold bind, get.
  destruct (Z.leb_spec (i + 1) (Z.of_nat (List.length (arena_floats g)))) as [_ | ?];
    [| lia].
  change (Z.to_nat 1) with 1%nat.
  destruct (skipn (Z.to_nat i) (arena_floats g)) as [| y rest] eqn:E.
  - apply (f_equal (@List.length _)) in E. rewrite length_skipn in E. cbn in E. lia.
  - assert (Hy : nth_error (skipn (Z.to_nat i) (arena_floats g)) 0 = Some y)
      by (rewrite E; reflexivity).
    rewrite nth_error_skipn, Nat.add_0_r, Hx in Hy. injection Hy as <-.
    reflexivity.
Qed.

(** X8.  [wasm_adjust_volume] on a descriptor whose data pointer is the
    arena base, as the producing operations return it: the first
    [length * num_channels] floats of the arena, which have to be defined,
    are replaced in place by [fmaxf(-1, fminf(1, x * volume))]; the floats
    behind them and the size and the capacity of the arena are left as they
    were. *)
Theorem adjust_volume_in_place L C R volume g :
  0 <= L * C < 4294967296 ->
  (forall i, 0 <= i < L * C -> fcell g i <> None) ->
  returns
    (wasm_adjust_volume
       {| data := ArenaBase; length := L; num_channels := C; sample_rate := R |}
       volume) g
    (fun r g' =>
       r = {| data := ArenaBase; length := L; num_channels := C; sample_rate := R |}
       /\ size g' = size g /\ capacity g' = capacity g
       /\ forall i, 0 <= i ->
            fcell g' i
            = if i <? L * C
              then option_map (fun x => clamp (F32.mul x volume)) (fcell g i)
              else fcell g i).
Proof.
  intros Hn Hdef. unfold wasm_adjust_volume. cbv zeta.
  cbn [data length num_channels sample_rate].
  rewrite (u32_small (L * C)) by lia.
  apply returns_bind.
  eapply returns_weaken.
  - apply (returns_for_loop
             (fun k p g' =>
                p = ArenaBase /\ same_frame g g'
                /\ forall i, 0 <= i ->
                     fcell g' i
                     = if i <? k
                       then option_map (fun x => clamp (F32.mul x volume)) (fcell g i)
                       else fcell g i)).
    + split; [reflexivity |]. split; [apply same_frame_refl |].
      intros i Hi. destruct (Z.ltb_spec i 0); [lia | reflexivity].
    + intros k p g1 Hk (-> & Hf1 & Hc1). rewrite Z2Nat.id in Hk by lia.
      destruct (fcell g k) as [x |] eqn:Hx; [| exfalso; apply (Hdef k); [lia | exact Hx]].
      assert (Hx1 : fcell g1 k = Some x).
      { rewrite Hc1 by lia. destruct (Z.ltb_spec k k); [lia | exact Hx]. }
      apply returns_bind.
      exists x, g1. split; [apply load_float_arena; [lia | exact Hx1] |].
      unfold store_float. apply returns_bind.
      eapply returns_weaken;
        [apply store_float_at; [lia | eapply fcell_room; [| exact Hx1]; lia] |].
      intros [] g2 (Hf2 & Hk2 & Hother). cbv beta. apply returns_ret.
      split; [reflexivity |]. split; [eapply same_frame_trans; eassumption |].
      intros i Hi.
      destruct (Z.eq_dec i k) as [-> | Hne].
      * rewrite Hk2. destruct (Z.ltb_spec k (k + 1)); [| lia].
        rewrite Hx. reflexivity.
      * rewrite Hother by assumption. rewrite Hc1 by assumption.
        destruct (Z.ltb_spec i k), (Z.ltb_spec i (k + 1)); try lia; reflexivity.
  - intros p g' (-> & (Hs & Hc & _) & Hcells). cbv beta.
    apply returns_ret. rewrite Z.add_0_l, Z2Nat.id in Hcells by lia.
    repeat split; assumption.
Qed.

Lemma adjust_volume_in_place_witness :
  let g := {| buffer := Some {| blk_size := 8;
                                blk_data := Samples [Some F32.half; Some F32.minus_one] |};
              size := 8; capacity := 8 |} in
  returns
    (wasm_adjust_volume
       {| data := ArenaBase; length := 2; num_channels := 1; sample_rate := 8000 |}
       (F32.of_Z 2)) g
    (fun r g' =>
       size g' = 8 /\ capacity g' = 8
       /\ fcell g' 0 = Some F32.one /\ fcell g' 1 = Some F32.minus_one).
Proof.
  intro g.
  eapply returns_weaken.
  - apply (adjust_volume_in_place 2 1 8000 (F32.of_Z 2) g); [lia |].
    intros i Hi.
    assert (Hc : i = 0 \/ i = 1) by lia.
    destruct Hc as [-> | ->]; discriminate.
  - intros r g' (_ & Hs & Hc & Hcells). cbv beta.
    split; [exact Hs |]. split; [exact Hc |].
    split; [apply (Hcells 0); lia | apply (Hcells 1); lia].
Defined.

Lemma all_codes_spec P : forall n v,
  all_codes n v P = true ->
  forall z, v <= z < v + Z.of_nat n -> P z = true.
Proof.
  induction n as [| n IH]; intros v H z Hz.
  - cbn in Hz. lia.
  - cbn [all_codes] in H. apply andb_prop in H. destruct H as [Hv Hrest].
    destruct (Z.eq_dec z v) as [-> | Hne]; [exact Hv |].
    apply (IH (v + 1) Hrest). lia.
Qed.

Lemma round_trips16_all :
  all_codes (Z.to_nat 65536) (-32768) round_trips16 = true.
Proof. vm_compute. reflexivity. Qed.

(** X9.  Decoding a 16-bit sample and encoding it again gives the sample
    back: for every code [v] of [int16], the float
    [(float)v / (v < 0 ? 0x8000 : 0x7FFF)] that the decoder computes is a
    finite float of [-1, 1], and the encoder turns it into [v] again. *)
Theorem sample16_round_trip v :
  -32768 <= v <= 32767 ->
  F32.valid (decode_sample 32768 32767 v) = true
  /\ is_nan (decode_sample 32768 32767 v) = false
  /\ SFleb F32.minus_one (decode_sample 32768 32767 v) = true
  /\ SFleb (decode_sample 32768 32767 v) F32.one = true
  /\ encode_sample16 (decode_sample 32768 32767 v) = Some v.
Proof.
  intro Hv.
  pose proof (all_codes_spec round_trips16 (Z.to_nat 65536) (-32768)
                round_trips16_all v) as H.
  rewrite Z2Nat.id in H by lia. specialize (H ltac:(lia)).
  unfold round_trips16 in H. cbv zeta in H.
  apply andb_prop in H. destruct H as [H Henc].
  apply andb_prop in H. destruct H as [H Hhi].
  apply andb_prop in H. destruct H as [H Hlo].
  apply andb_prop in H. destruct H as [Hvalid Hnan].
  apply negb_true_iff in Hnan.
  repeat split; try assumption.
  destruct (encode_sample16 (decode_sample 32768 32767 v)) as [z |];
    [| discriminate Henc].
  apply Z.eqb_eq in Henc. subst z. reflexivity.
Qed.

Lemma sample16_round_trip_witness :
  F32.valid (decode_sample 32768 32767 (-12345)) = true
  /\ is_nan (decode_sample 32768 32767 (-12345)) = false
  /\ SFleb F32.minus_one (decode_sample 32768 32767 (-12345)) = true
  /\ SFleb (decode_sample 32768 32767 (-12345)) F32.one = true
  /\ encode_sample16 (decode_sample 32768 32767 (-12345)) = Some (-12345).
Proof. apply (sample16_round_trip (-12345)). lia. Defined.

(** ** Crossfade *)

(** A planar index determines its row and its column. *)
Lemma planar_unique T c p c' p' :
  0 <= p < T -> 0 <= p' < T -> c * T + p = c' * T + p' -> c = c' /\ p = p'.
Proof.
  intros Hp Hp' Heq.
  assert (Hc : (c * T + p) / T = c)
    by (rewrite Z.div_add_l, Z.div_small by lia; lia).
  assert (Hc' : (c' * T + p') / T = c')
    by (rewrite Z.div_add_l, Z.div_small by lia; lia).
  rewrite Heq in Hc. assert (c = c') by congruence. subst c'. lia.
Qed.

(** A loop over the channels that copies [n] floats of every row of a
    planar host buffer of stride [Ls] into a planar arena buffer of stride
    [T]. *)
Lemma copy_rows cells (D S : Z -> Z) nb n C T Ls doff soff g1 :
  0 <= C -> 0 <= n -> 0 <= doff -> doff + n <= T -> 0 <= soff -> soff + n <= Ls ->
  Ls * C <= Z.of_nat (List.length cells) ->
  (forall ch, 0 <= ch < C -> D ch = ch * T + doff /\ S ch = ch * Ls + soff) ->
  (0 < C -> nb = 4 * n) ->
  n = 0 \/ C = 0 \/ room g1 (T * C * 4) ->
  returns
    (for_loop (Z.to_nat C) 0
       (fun ch _ => memcpy_floats (D ch) (HostMem cells) (S ch) nb) tt) g1
    (fun _ g' =>
       same_frame g1 g'
       /\ (forall c i, 0 <= c < C -> 0 <= i < n ->
             fcell g' (c * T + doff + i)
             = nth_error cells (Z.to_nat (c * Ls + soff + i)))
       /\ (forall j, 0 <= j ->
             (forall c, 0 <= c < C -> ~ (c * T + doff <= j < c * T + doff + n)) ->
             fcell g' j = fcell g1 j)).
Proof.
  intros HC Hn Hdoff Hdn Hsoff Hsn Hcells HDS Hnb Hroom.
  assert (HT : 0 <= T) by lia. assert (HLs : 0 <= Ls) by lia.
  eapply returns_weaken.
  - apply (returns_for_loop
             (fun ch (_ : unit) g' =>
                same_frame g1 g'
                /\ (forall c i, 0 <= c < ch -> 0 <= i < n ->
                      fcell g' (c * T + doff + i)
                      = nth_error cells (Z.to_nat (c * Ls + soff + i)))
                /\ (forall j, 0 <= j ->
                      (forall c, 0 <= c < ch -> ~ (c * T + doff <= j < c * T + doff + n)) ->
                      fcell g' j = fcell g1 j))).
    + split; [apply same_frame_refl |]. split; [intros; lia | reflexivity].
    + intros ch [] g2 Hch (Hf2 & Hc2 & Hu2). rewrite Z2Nat.id in Hch by lia.
      destruct (HDS ch ltac:(lia)) as [-> ->]. rewrite (Hnb ltac:(lia)).
      destruct (planar_rows ch C T HT ltac:(lia)) as [HchT HchT'].
      destruct (planar_rows ch C Ls HLs ltac:(lia)) as [HchL HchL'].
      rewrite (Z.mul_comm Ls C) in Hcells.
      eapply returns_weaken.
      * apply memcpy_floats_host; try lia.
        destruct Hroom as [Hz | [? | Hroom]]; [left; exact Hz | lia | right].
        eapply room_le; [| eapply room_same_frame; [exact Hf2 | exact Hroom]].
        rewrite (Z.mul_comm T C). lia.
      * intros [] g3 (Hf3 & Hc3). cbv beta.
        split; [eapply same_frame_trans; eassumption |]. split.
        -- intros c i Hc Hi.
           pose proof (planar_row_nonneg c T HT ltac:(lia)) as HcT.
           rewrite Hc3 by lia.
           destruct (Z.eq_dec c ch) as [-> | Hne].
           ++ destruct (Z.leb_spec (ch * T + doff) (ch * T + doff + i)) as [_ | ?]; [| lia].
              destruct (Z.ltb_spec (ch * T + doff + i) (ch * T + doff + n)) as [_ | ?];
                [| lia].
              cbn [andb]. f_equal. lia.
           ++ destruct (planar_rows c ch T HT ltac:(lia)) as [_ Hrow].
              destruct (Z.leb_spec (ch * T + doff) (c * T + doff + i)) as [? | _]; [lia |].
              cbn [andb]. apply Hc2; lia.
        -- intros j Hj Hout. rewrite Hc3 by lia.
           pose proof (Hout ch ltac:(lia)) as Hnot.
           destruct (Z.leb_spec (ch * T + doff) j), (Z.ltb_spec j (ch * T + doff + n));
             cbn [andb]; try lia; apply Hu2; try assumption; intros c Hc; apply Hout; lia.
  - intros [] g2 (Hf2 & Hc2 & Hu2). cbv beta.
    rewrite Z.add_0_l, Z2Nat.id in Hc2, Hu2 by lia.
    repeat split; try apply Hf2; assumption.
Qed.

(** The fade loop: for every frame [i] of the fade and every channel, the
    mix of the two sources is stored at column [h + i]. *)
Lemma fade_rows cells1 cells2 C T L1 L2 h F g1 :
  0 <= C -> 0 <= h -> 0 <= F -> h + F <= L1 -> F <= L2 -> h + F <= T ->
  L1 * C <= Z.of_nat (List.length cells1) ->
  L2 * C <= Z.of_nat (List.length cells2) ->
  L1 * C < 4294967296 -> L2 * C < 4294967296 -> T * C < 4294967296 ->
  F = 0 \/ C = 0 \/ room g1 (T * C * 4) ->
  returns
    (for_loop (Z.to_nat F) 0
       (fun i _ =>
          for_loop (Z.to_nat C) 0
            (fun ch _ =>
               src1 <- load_float (HostMem cells1) (u32 (ch * L1) + h + i) ;;
               src2 <- load_float (HostMem cells2) (u32 (ch * L2) + i) ;;
               store_floats (u32 (ch * T) + h + i)
                 [F32.add (F32.mul src1 (F32.div (F32.of_Z i) (F32.of_Z F)))
                          (F32.mul src2 (F32.sub F32.one
                                           (F32.div (F32.of_Z i) (F32.of_Z F))))]) tt) tt)
    g1
    (fun _ g' =>
       same_frame g1 g'
       /\ (forall c i, 0 <= c < C -> 0 <= i < F ->
             exists a b,
               nth_error cells1 (Z.to_nat (c * L1 + h + i)) = Some a
               /\ nth_error cells2 (Z.to_nat (c * L2 + i)) = Some b
               /\ fcell g' (c * T + h + i) = Some (fade_mix a b i F))
       /\ (forall j, 0 <= j ->
             (forall c i, 0 <= c < C -> 0 <= i < F -> j <> c * T + h + i) ->
             fcell g' j = fcell g1 j)).
Proof.
  intros HC Hh HF HhF HFL2 HhT Hcells1 Hcells2 H1 H2 H3 Hroom.
  assert (HT : 0 <= T) by lia.
  assert (HL1 : 0 <= L1) by lia. assert (HL2 : 0 <= L2) by lia.
  rewrite (Z.mul_comm L1 C) in Hcells1, H1.
  rewrite (Z.mul_comm L2 C) in Hcells2, H2.
  set (P := fun (k : Z) (kc : Z) (g' : MemoryBuffer) =>
         same_frame g1 g'
         /\ (forall c i, 0 <= c < C -> 0 <= i < F ->
               i < k \/ (i = k /\ c < kc) ->
               exists a b,
                 nth_error cells1 (Z.to_nat (c * L1 + h + i)) = Some a
                 /\ nth_error cells2 (Z.to_nat (c * L2 + i)) = Some b
                 /\ fcell g' (c * T + h + i) = Some (fade_mix a b i F))
         /\ (forall j, 0 <= j ->
               (forall c i, 0 <= c < C -> 0 <= i < F ->
                  i < k \/ (i = k /\ c < kc) -> j <> c * T + h + i) ->
               fcell g' j = fcell g1 j)).
  eapply returns_weaken.
  - apply (returns_for_loop (fun k (_ : unit) g' => P k 0 g')).
    + unfold P. split; [apply same_frame_refl |].
      split; [intros; lia | reflexivity].
    + intros k [] g2 Hk HP. rewrite Z2Nat.id in Hk by lia.
      eapply returns_weaken.
      * apply (returns_for_loop (fun kc (_ : unit) g' => P k kc g')); [exact HP |].
        intros ch [] g3 Hch (Hf3 & Hc3 & Hu3). rewrite Z2Nat.id in Hch by lia.
        destruct (planar_rows ch C T HT ltac:(lia)) as [HchT HchT'].
        destruct (planar_rows ch C L1 HL1 ltac:(lia)) as [HchL1 HchL1'].
        destruct (planar_rows ch C L2 HL2 ltac:(lia)) as [HchL2 HchL2'].
        rewrite (Z.mul_comm T C) in H3.
        rewrite (u32_small (ch * L1)) by lia.
        rewrite (u32_small (ch * L2)) by lia.
        rewrite (u32_small (ch * T)) by lia.
        destruct (nth_error cells1 (Z.to_nat (ch * L1 + h + k))) as [a |] eqn:Ha;
          [| apply nth_error_None in Ha; lia].
        destruct (nth_error cells2 (Z.to_nat (ch * L2 + k))) as [b |] eqn:Hb;
          [| apply nth_error_None in Hb; lia].
        apply returns_bind.
        apply (returns_load_float_host cells1 _ a); [lia | exact Ha |].
        apply returns_bind.
        apply (returns_load_float_host cells2 _ b); [lia | exact Hb |].
        eapply returns_weaken.
        -- apply store_float_at; [lia |].
           destruct Hroom as [? | [? | Hroom]]; [lia | lia |].
           eapply room_le; [| eapply room_same_frame; [exact Hf3 | exact Hroom]].
           rewrite (Z.mul_comm T C). lia.
        -- intros [] g4 (Hf4 & Hnew & Hother). cbv beta. unfold P.
           split; [eapply same_frame_trans; eassumption |]. split.
           ++ intros c i Hc Hi Hdone.
              destruct (Z.eq_dec i k) as [-> | Hik].
              ** destruct (Z.eq_dec c ch) as [-> | Hcc].
                 --- exists a, b. split; [exact Ha |]. split; [exact Hb |]. exact Hnew.
                 --- destruct (Hc3 c k Hc Hi ltac:(lia)) as (a' & b' & Ha' & Hb' & Hcell).
                     exists a', b'. split; [exact Ha' |]. split; [exact Hb' |].
                     pose proof (planar_row_nonneg c T HT ltac:(lia)) as HcT.
                     rewrite Hother; [exact Hcell | lia |].
                     intro Heq.
                     destruct (planar_unique T c (h + k) ch (h + k)
                                 ltac:(lia) ltac:(lia) ltac:(lia)). contradiction.
              ** destruct (Hc3 c i Hc Hi ltac:(lia)) as (a' & b' & Ha' & Hb' & Hcell).
                 exists a', b'. split; [exact Ha' |]. split; [exact Hb' |].
                 pose proof (planar_row_nonneg c T HT ltac:(lia)) as HcT.
                 rewrite Hother; [exact Hcell | lia |].
                 intro Heq.
                 destruct (planar_unique T c (h + i) ch (h + k)
                             ltac:(lia) ltac:(lia) ltac:(lia)). lia.
           ++ intros j Hj Hout.
              rewrite Hother; [| exact Hj | apply (Hout ch k); lia].
              apply Hu3; [exact Hj |].
              intros c i Hc Hi Hdone. apply Hout; try assumption. lia.
      * intros [] g3 (Hf3 & Hc3 & Hu3). cbv beta. unfold P.
        rewrite Z.add_0_l, Z2Nat.id in Hc3, Hu3 by lia.
        split; [exact Hf3 |]. split.
        -- intros c i Hc Hi Hdone. apply Hc3; try assumption. lia.
        -- intros j Hj Hout. apply Hu3; [exact Hj |].
           intros c i Hc Hi Hdone. apply Hout; try assumption. lia.
  - intros [] g2 (Hf2 & Hc2 & Hu2). cbv beta.
    rewrite Z.add_0_l, Z2Nat.id in Hc2, Hu2 by lia.
    split; [exact Hf2 |]. split.
    + intros c i Hc Hi. apply Hc2; try assumption. lia.
    + intros j Hj Hout. apply Hu2; [exact Hj |].
      intros c i Hc Hi _. apply Hout; assumption.
Qed.

(** X10.  [wasm_cross_fade] on two planar buffers of host memory, for a
    fade no longer than either buffer: the call returns
    [length1 + length2 - fade_length] frames, with the channel count and
    the sample rate of the first buffer, and every channel of the result
    is the first buffer without its last [fade_length] frames, then the
    fade, then the second buffer without its first [fade_length] frames.
    Frame [i] of the fade is [src1 * (i / fade_length)
    + src2 * (1 - i / fade_length)] in single precision: the weight of the
    first buffer grows from 0 and the weight of the second buffer falls
    from 1.  With [fade_length = 0] the result is the concatenation of the
    two buffers. *)
Theorem cross_fade_layout heap_grants buffer1 buffer2 fade_length output g :
  host_buffer buffer1 ->
  data buffer2 = HostMem (host_cells buffer2) ->
  length buffer2 * num_channels buffer1 <= Z.of_nat (List.length (host_cells buffer2)) ->
  0 <= fade_length <= length buffer1 -> fade_length <= length buffer2 ->
  length buffer1 + length buffer2 - fade_length < 4294967296 ->
  length buffer1 * num_channels buffer1 < 4294967296 ->
  length buffer2 * num_channels buffer1 < 4294967296 ->
  (length buffer1 + length buffer2 - fade_length) * num_channels buffer1 * 4
    < 4294967296 ->
  arena_consistent g ->
  (length buffer1 + length buffer2 - fade_length) * num_channels buffer1 * 4
    <= capacity g
  \/ heap_grants ((length buffer1 + length buffer2 - fade_length)
                  * num_channels buffer1 * 4) = true ->
  returns (wasm_cross_fade heap_grants buffer1 buffer2 fade_length output) g
    (fun r g' =>
       let T := length buffer1 + length buffer2 - fade_length in
       let h := length buffer1 - fade_length in
       r = (T, {| data := ArenaBase; length := T;
                  num_channels := num_channels buffer1;
                  sample_rate := sample_rate buffer1 |})
       /\ size g' = T * num_channels buffer1 * 4
       /\ forall c, 0 <= c < num_channels buffer1 ->
            (forall p, 0 <= p < h ->
               fcell g' (c * T + p)
               = nth_error (host_cells buffer1) (Z.to_nat (c * length buffer1 + p)))
            /\ (forall i, 0 <= i < fade_length ->
                  exists a b,
                    nth_error (host_cells buffer1)
                              (Z.to_nat (c * length buffer1 + h + i)) = Some a
                    /\ nth_error (host_cells buffer2)
                                 (Z.to_nat (c * length buffer2 + i)) = Some b
                    /\ fcell g' (c * T + h + i) = Some (fade_mix a b i fade_length))
            /\ (forall q, 0 <= q < length buffer2 - fade_length ->
                  fcell g' (c * T + length buffer1 + q)
                  = nth_error (host_cells buffer2)
                              (Z.to_nat (c * length buffer2 + fade_length + q)))).
Proof.
  intros (Hdata1 & HL1 & HC & Hcells1) Hdata2 Hcells2 HF HFL2 HT32 H1 H2 Hfit Hcons Halloc.
  set (L1 := length buffer1) in *. set (L2 := length buffer2) in *.
  set (C := num_channels buffer1) in *. set (F := fade_length) in *.
  set (T := L1 + L2 - F) in *. set (h := L1 - F) in *.
  assert (HT : 0 <= T) by lia.
  assert (HTC : 0 <= T * C) by (apply Z.mul_nonneg_nonneg; lia).
  assert (HTC32 : T * C < 4294967296) by lia.
  unfold wasm_cross_fade. cbv zeta. fold L1 L2 C F.
  change (L1 + L2 - F) with T.
  rewrite (u32_small T) by lia.
  rewrite (u32_small (T * C * 4)) by lia.
  change (L1 - F) with h.
  rewrite (u32_small h) by lia.
  replace (u32 (h + F)) with L1 by (rewrite u32_small; lia).
  rewrite (u32_small (L2 - F)) by lia.
  rewrite Hdata1, Hdata2.
  apply returns_bind.
  eapply returns_weaken; [apply reserve_returns; [lia | exact Hcons] |].
  intros ok g1 Hr1. cbv beta in Hr1 |- *.
  destruct ok; [| destruct Hr1 as (_ & ? & ?); destruct Halloc; [lia | congruence]].
  destruct Hr1 as (_ & _ & _ & _ & Hroom).
  cbn [negb].
  assert (Hroom1 : T = 0 \/ C = 0 \/ room g1 (T * C * 4)).
  { destruct Hroom as [Hz | Hroom]; [| right; right; exact Hroom].
    destruct (Z.eq_dec C 0) as [? | HC0]; [right; left; assumption |].
    left. destruct (Z.eq_dec T 0) as [? | HT0]; [assumption |].
    assert (0 < T * C) by (apply Z.mul_pos_pos; lia). lia. }
  assert (Hrows : forall L, 0 <= L -> L * C < 4294967296 ->
            forall ch, 0 <= ch < C -> u32 (ch * L) = ch * L).
  { intros L HL HLC ch Hch. destruct (planar_rows ch C L HL ltac:(lia)) as [? ?].
    rewrite (Z.mul_comm L C) in HLC. apply u32_small. lia. }
  assert (Hx4 : forall n, 0 <= n <= T -> 0 < C -> u32 (n * 4) = 4 * n).
  { intros n Hn HC0. rewrite u32_small; [lia |].
    assert (T * 1 <= T * C) by (apply Z.mul_le_mono_nonneg_l; lia). lia. }
  (* the head of the first buffer *)
  apply returns_bind.
  eapply returns_weaken.
  { apply (copy_rows (host_cells buffer1) (fun ch => u32 (ch * T))
             (fun ch => u32 (ch * L1)) (u32 (h * 4)) h C T L1 0 0 g1); try lia.
    - intros ch Hch. rewrite (Hrows T), (Hrows L1) by lia. lia.
    - apply Hx4. lia.
    - destruct Hroom1 as [? | [? | ?]]; [left; lia | auto | auto]. }
  intros [] g2 (Hf2 & Hc2 & Hu2). cbv beta.
  (* the fade *)
  apply returns_bind.
  eapply returns_weaken.
  { apply (fade_rows (host_cells buffer1) (host_cells buffer2) C T L1 L2 h F g2);
      try lia.
    destruct Hroom1 as [? | [? | Hr]]; [left; lia | auto |].
    right; right. eapply room_same_frame; [exact Hf2 | exact Hr]. }
  intros [] g3 (Hf3 & Hc3 & Hu3). cbv beta.
  (* the tail of the second buffer *)
  apply returns_bind.
  eapply returns_weaken.
  { apply (copy_rows (host_cells buffer2) (fun ch => u32 (ch * T) + L1)
             (fun ch => u32 (ch * L2) + F) (u32 ((L2 - F) * 4)) (L2 - F)
             C T L2 L1 F g3); try lia.
    - intros ch Hch. rewrite (Hrows T), (Hrows L2) by lia. lia.
    - apply Hx4. lia.
    - destruct Hroom1 as [? | [? | Hr]]; [left; lia | auto |].
      right; right.
      eapply room_same_frame; [exact Hf3 |].
      eapply room_same_frame; [exact Hf2 | exact Hr]. }
  intros [] g4 (Hf4 & Hc4 & Hu4). cbv beta.
  apply returns_bind, set_size_returns, returns_ret.
  split; [reflexivity |]. split; [reflexivity |].
  intros c Hc.
  pose proof (planar_row_nonneg c T HT ltac:(lia)) as HcT.
  split; [| split].
  - intros p Hp. rewrite fcell_set_size.
    rewrite Hu4; [| lia |].
    + rewrite Hu3; [| lia |].
      * rewrite <- (Z.add_0_r (c * T)), <- (Z.add_0_r (c * L1)). apply Hc2; lia.
      * intros c' i Hc' Hi Heq.
        destruct (planar_unique T c p c' (h + i) ltac:(lia) ltac:(lia) ltac:(lia)). lia.
    + intros c' Hc' Hin.
      destruct (planar_unique T c p c' (c * T + p - c' * T)
                  ltac:(lia) ltac:(lia) ltac:(lia)). lia.
  - intros i Hi.
    destruct (Hc3 c i Hc Hi) as (a & b & Ha & Hb & Hcell).
    exists a, b. split; [exact Ha |]. split; [exact Hb |].
    rewrite fcell_set_size.
    rewrite Hu4; [exact Hcell | lia |].
    intros c' Hc' Hin.
    destruct (planar_unique T c (h + i) c' (c * T + (h + i) - c' * T)
                ltac:(lia) ltac:(lia) ltac:(lia)). lia.
  - intros q Hq. rewrite fcell_set_size. apply Hc4; assumption.
Qed.

Lemma cross_fade_layout_witness :
  host_buffer three_frames
  /\ returns (wasm_cross_fade grant_all three_frames five_frames 2 no_output)
       g_memory_buffer_init
       (fun r g' =>
          fst r = 6 /\ size g' = 24
          /\ fcell g' 0 = Some (F32.of_Z 1)
          /\ fcell g' 1 = Some (fade_mix (F32.of_Z 2) (F32.of_Z 4) 0 2)
          /\ fcell g' 2 = Some (fade_mix (F32.of_Z 3) (F32.of_Z 5) 1 2)
          /\ fcell g' 3 = Some (F32.of_Z 6)
          /\ fcell g' 5 = Some (F32.of_Z 8)).
Proof.
  assert (Hh : host_buffer three_frames) by (repeat split; try reflexivity; cbn; lia).
  split; [exact Hh |].
  eapply returns_weaken.
  - apply (cross_fade_layout grant_all three_frames five_frames 2 no_output
             g_memory_buffer_init Hh); try reflexivity; try (cbn; lia).
    right. reflexivity.
  - intros r g' (Hr & Hs & Hcells). cbv beta.
    destruct (Hcells 0 ltac:(cbn; lia)) as (Hhead & Hfade & Htail).
    split; [rewrite Hr; reflexivity |]. split; [exact Hs |].
    split; [apply (Hhead 0); cbn; lia |].
    split.
    { destruct (Hfade 0 ltac:(lia)) as (a & b & Ha & Hb & Hc).
      cbn in Ha, Hb. injection Ha as <-. injection Hb as <-. exact Hc. }
    split.
    { destruct (Hfade 1 ltac:(lia)) as (a & b & Ha & Hb & Hc).
      cbn in Ha, Hb. injection Ha as <-. injection Hb as <-. exact Hc. }
    split; [apply (Htail 0); cbn; lia | apply (Htail 2); cbn; lia].
Defined.

(** ** The encoder and the decoder together *)

(** *** Fields *)

Lemma le_value_le_bytes n : forall x,
  le_value (le_bytes n x) = x mod 2 ^ (8 * Z.of_nat n).
Proof.
  induction n as [| n IH]; intro x.
  - cbn [le_bytes le_value]. change (2 ^ (8 * Z.of_nat 0)) with 1.
    rewrite Z.mod_1_r. reflexivity.
  - cbn [le_bytes le_value]. rewrite IH.
    change 255 with (Z.ones 8). rewrite Z.land_ones by lia.
    rewrite Z.shiftr_div_pow2 by lia.
    replace (8 * Z.of_nat (S n)) with (8 + 8 * Z.of_nat n) by lia.
    rewrite Z.pow_add_r by lia.
    rewrite Z.rem_mul_r; [| lia | apply Z.pow_pos_nonneg; lia].
    change (2 ^ 8) with 256. reflexivity.
Qed.

Lemma le_value_le_bytes_small n x :
  0 <= x < 2 ^ (8 * Z.of_nat n) -> le_value (le_bytes n x) = x.
Proof. intro H. rewrite le_value_le_bytes. apply Z.mod_small. exact H. Qed.

(** The two bytes of a 16-bit code, read back as [int16_t]. *)
Lemma signed16_le_bytes z :
  -32768 <= z <= 32767 -> signed 16 (le_value (le_bytes 2 z)) = z.
Proof.
  intro Hz. rewrite le_value_le_bytes.
  change (2 ^ (8 * Z.of_nat 2)) with 65536. unfold signed.
  change (2 ^ (16 - 1)) with 32768. change (2 ^ 16) with 65536.
  destruct (Z_lt_le_dec z 0) as [Hneg | Hpos].
  - assert (Hm : z mod 65536 = z + 65536).
    { symmetry. apply (Z.mod_unique _ _ (-1)); lia. }
    rewrite Hm. destruct (Z.ltb_spec (z + 65536) 32768); lia.
  - rewrite Z.mod_small by lia. destruct (Z.ltb_spec z 32768); lia.
Qed.

(** The three bytes of a 24-bit code, put together as the decoder does. *)
Lemma int24_le_bytes z :
  -8388608 <= z <= 8388607 ->
  Z.lor (Z.lor (Z.land z 255) (Z.shiftl (Z.land (Z.shiftr z 8) 255) 8))
        (Z.shiftl (signed 8 (Z.land (Z.shiftr z 16) 255)) 16) = z.
Proof.
  intro Hz.
  assert (Hq : signed 8 (Z.land (Z.shiftr z 16) 255) = z / 65536).
  { change 255 with (Z.ones 8). rewrite Z.land_ones by lia.
    rewrite Z.shiftr_div_pow2 by lia. change (2 ^ 16) with 65536.
    change (2 ^ 8) with 256. unfold signed.
    change (2 ^ (8 - 1)) with 128. change (2 ^ 8) with 256.
    assert (Hr : -128 <= z / 65536 <= 127).
    { split; [apply Z.div_le_lower_bound; lia |].
      assert (z / 65536 < 128) by (apply Z.div_lt_upper_bound; lia). lia. }
    destruct (Z_lt_le_dec (z / 65536) 0) as [Hneg | Hpos].
    - assert (Hm : (z / 65536) mod 256 = z / 65536 + 256).
      { symmetry. apply (Z.mod_unique _ _ (-1)); lia. }
      rewrite Hm. destruct (Z.ltb_spec (z / 65536 + 256) 128); lia.
    - rewrite Z.mod_small by lia. destruct (Z.ltb_spec (z / 65536) 128); lia. }
  rewrite Hq. change 255 with (Z.ones 8).
  rewrite !Z.land_ones by lia. rewrite Z.shiftr_div_pow2 by lia.
  change 65536 with (2 ^ 16).
  apply Z.bits_inj'. intros n Hn.
  rewrite !Z.lor_spec, !Z.shiftl_spec by lia.
  destruct (Z_lt_le_dec n 8) as [H8 | H8].
  - rewrite Z.mod_pow2_bits_low by lia.
    rewrite (Z.testbit_neg_r _ (n - 8)) by lia.
    rewrite (Z.testbit_neg_r _ (n - 16)) by lia.
    rewrite !orb_false_r. reflexivity.
  - rewrite (Z.mod_pow2_bits_high z 8 n) by lia. cbn [orb].
    destruct (Z_lt_le_dec n 16) as [H16 | H16].
    + rewrite Z.mod_pow2_bits_low by lia.
      rewrite (Z.testbit_neg_r _ (n - 16)) by lia.
      rewrite orb_false_r, Z.div_pow2_bits by lia. f_equal. lia.
    + rewrite (Z.mod_pow2_bits_high _ 8 (n - 8)) by lia. cbn [orb].
      rewrite Z.div_pow2_bits by lia. f_equal. lia.
Qed.

(** *** The header read back *)

Lemma header_fields L C R bits rest :
  0 <= C < 65536 -> 0 <= R < 4294967296 -> 0 <= bits < 65536 ->
  0 <= L * (C * (bits / 8)) < 4294967296 ->
  magic_ok (header_bytes (wav_header L C R bits) ++ rest) = true
  /\ field (header_bytes (wav_header L C R bits) ++ rest) 34 2 = Some bits
  /\ field (header_bytes (wav_header L C R bits) ++ rest) 22 2 = Some C
  /\ field (header_bytes (wav_header L C R bits) ++ rest) 24 4 = Some R
  /\ field (header_bytes (wav_header L C R bits) ++ rest) 40 4
     = Some (L * (C * (bits / 8))).
Proof.
  intros HC HR Hbits Hdata.
  assert (Hlen : 44 <= Z.of_nat (List.length (header_bytes (wav_header L C R bits) ++ rest))).
  { rewrite length_app, header_bytes_length by reflexivity. lia. }
  pose proof (le_value_le_bytes_small 2 bits ltac:(change (2 ^ (8 * Z.of_nat 2)) with 65536; lia))
    as Hb.
  pose proof (le_value_le_bytes_small 2 C ltac:(change (2 ^ (8 * Z.of_nat 2)) with 65536; lia))
    as Hc.
  pose proof (le_value_le_bytes_small 4 R
                ltac:(change (2 ^ (8 * Z.of_nat 4)) with 4294967296; lia)) as Hr.
  pose proof (le_value_le_bytes_small 4 (L * (C * (bits / 8)))
                ltac:(change (2 ^ (8 * Z.of_nat 4)) with 4294967296; lia)) as Hd.
  unfold magic_ok, field, load_bytes.
  repeat match goal with
         | |- context [?a + Z.of_nat ?n <=? ?l] =>
             destruct (Z.leb_spec (a + Z.of_nat n) l) as [_ | Hbad];
             [| exfalso; revert Hbad; cbn [Z.of_nat Pos.of_succ_nat Pos.succ]; lia]
         end.
  unfold header_bytes, wav_header.
  cbn [riff file_size wave fmt fmt_size audio_format hdr_channels hdr_sample_rate
       byte_rate block_align bits_per_sample data_tag data_size
       RIFF WAVE FMT_ DATA le_bytes app].
  change (Z.to_nat 0) with 0%nat. change (Z.to_nat 8) with 8%nat.
  change (Z.to_nat 12) with 12%nat. change (Z.to_nat 34) with 34%nat.
  change (Z.to_nat 22) with 22%nat. change (Z.to_nat 24) with 24%nat.
  change (Z.to_nat 40) with 40%nat.
  cbn [skipn firstn].
  cbn [le_bytes] in Hb, Hc, Hr, Hd.
  rewrite Hb, Hc, Hr, Hd.
  repeat split; reflexivity.
Qed.

(** *** The image of the arena *)

Lemma defined_firstn {A} (l : list (option A)) : forall k,
  (forall i, (i < k)%nat -> cell_at l i <> None) ->
  exists r, defined (firstn k l) = Some r /\ List.length r = k
            /\ forall i, (i < k)%nat -> cell_at l i = nth_error r i.
Proof.
  revert l. intros l k. revert l.
  induction k as [| k IH]; intros l Hdef.
  - exists []. repeat split. intros i Hi. lia.
  - destruct l as [| c l].
    + exfalso. apply (Hdef 0%nat); [lia | reflexivity].
    + destruct c as [a |]; [| exfalso; apply (Hdef 0%nat); [lia | reflexivity]].
      destruct (IH l) as (r & Hr & Hlen & Hnth).
      { intros i Hi. apply (Hdef (S i)). lia. }
      exists (a :: r). cbn [firstn defined]. rewrite Hr.
      split; [reflexivity |]. split; [cbn; lia |].
      intros [| i] Hi; [reflexivity |]. apply (Hnth i). lia.
Qed.

Lemma arena_image_defined g n :
  0 <= n -> (forall i, 0 <= i < n -> bcell g i <> None) ->
  exists wav, arena_image g n = Some wav
              /\ Z.of_nat (List.length wav) = n
              /\ forall i, 0 <= i < n -> bcell g i = nth_error wav (Z.to_nat i).
Proof.
  intros Hn Hdef.
  destruct (defined_firstn (arena_bytes g) (Z.to_nat n)) as (wav & Hw & Hlen & Hnth).
  { intros i Hi. specialize (Hdef (Z.of_nat i) ltac:(lia)).
    unfold bcell in Hdef. rewrite Nat2Z.id in Hdef. exact Hdef. }
  exists wav. split; [exact Hw |]. split; [lia |].
  intros i Hi. apply Hnth. lia.
Qed.

Lemma nth_error_ext {A} (l1 l2 : list A) :
  (forall i, nth_error l1 i = nth_error l2 i) -> l1 = l2.
Proof.
  revert l2. induction l1 as [| a l1 IH]; intros [| b l2] H.
  - reflexivity.
  - discriminate (H 0%nat).
  - discriminate (H 0%nat).
  - pose proof (H 0%nat) as H0. cbn in H0. injection H0 as ->.
    f_equal. apply IH. intro i. apply (H (S i)).
Qed.

(** The bytes that stand at an offset of the arena are found at that
    offset of its image. *)
Lemma image_bytes g n wav off bs :
  (forall i, 0 <= i < n -> bcell g i = nth_error wav (Z.to_nat i)) ->
  0 <= off -> off + Z.of_nat (List.length bs) <= n ->
  Z.of_nat (List.length wav) = n ->
  bytes_at g off bs ->
  firstn (List.length bs) (skipn (Z.to_nat off) wav) = bs.
Proof.
  intros Himg Hoff Hlen Hwav Hb. apply nth_error_ext. intro i.
  destruct (Nat.lt_ge_cases i (List.length bs)) as [Hi | Hi].
  - rewrite nth_error_firstn_skipn by exact Hi.
    rewrite <- (Hb i Hi), Himg by lia. f_equal. lia.
  - rewrite (proj2 (nth_error_None bs i)) by exact Hi.
    apply nth_error_None. rewrite length_firstn. lia.
Qed.

Lemma image_load_bytes g n wav off bs :
  (forall i, 0 <= i < n -> bcell g i = nth_error wav (Z.to_nat i)) ->
  0 <= off -> off + Z.of_nat (List.length bs) <= n ->
  Z.of_nat (List.length wav) = n ->
  bytes_at g off bs ->
  load_bytes wav off (List.length bs) = Some bs.
Proof.
  intros Himg Hoff Hlen Hwav Hb. unfold load_bytes.
  destruct (Z.leb_spec (off + Z.of_nat (List.length bs)) (Z.of_nat (List.length wav)));
    [| lia].
  f_equal. eapply image_bytes; eassumption.
Qed.

(** *** The two halves *)

(** The buffer the decoder leaves at a supported depth. *)
Lemma decode_supported heap_grants wav_data wav_size output g bits ch rate dsz :
  44 <= wav_size -> 44 <= Z.of_nat (List.length wav_data) ->
  magic_ok wav_data = true ->
  field wav_data 34 2 = Some bits -> field wav_data 22 2 = Some ch ->
  field wav_data 24 4 = Some rate -> field wav_data 40 4 = Some dsz ->
  arena_consistent g ->
  bits = 16 \/ bits = 24 -> 0 < ch -> 0 <= dsz ->
  dsz / (ch * (bits / 8)) * ch * 4 < 4294967296 ->
  44 + dsz / (ch * (bits / 8)) * ch * (bits / 8) <= Z.of_nat (List.length wav_data) ->
  dsz / (ch * (bits / 8)) * ch * 4 <= capacity g
    \/ heap_grants (dsz / (ch * (bits / 8)) * ch * 4) = true ->
  returns (wasm_wav_to_audio_buffer heap_grants wav_data wav_size output) g
    (fun r g' =>
       r = (dsz / (ch * (bits / 8)),
            {| data := ArenaBase; length := dsz / (ch * (bits / 8));
               num_channels := ch; sample_rate := rate |})
       /\ size g' = dsz / (ch * (bits / 8)) * ch * 4
       /\ forall i, 0 <= i < dsz / (ch * (bits / 8)) * ch ->
            fcell g' i = pcm_sample bits wav_data i).
Proof.
  intros Hsize Hlen Hmagic Hbits Hch Hrate Hdsz Hcons Hdepth Hchpos Hdszpos Hfit
         Hpayload Halloc.
  assert (Hbps : u16 (bits / 8) = bits / 8)
    by (destruct Hdepth as [-> | ->]; reflexivity).
  assert (Hbpos : 2 <= bits / 8 <= 3)
    by (destruct Hdepth as [-> | ->]; cbn; lia).
  set (n := dsz / (ch * (bits / 8))) in *.
  assert (Hn : 0 <= n).
  { unfold n. apply Z.div_pos; [lia |]. apply Z.mul_pos_pos; lia. }
  assert (Hnch : 0 <= n * ch) by (apply Z.mul_nonneg_nonneg; lia).
  apply (wav_to_audio_buffer_prefix heap_grants wav_data wav_size output g
           bits ch rate dsz); try assumption.
  - rewrite Hbps. intro Hz. apply Z.mul_eq_0 in Hz. lia.
  - rewrite Hbps. fold n. rewrite (u32_small (n * ch * 4)) by lia. exact Halloc.
  - intros g1 Hs1 _ Hroom. rewrite Hbps in *. fold n in Hroom |- *.
    rewrite (u32_small (n * ch * 4)) in * by lia.
    rewrite (u32_small (n * ch)) by lia.
    assert (Hroom' : n * ch = 0 \/ room g1 (4 * (n * ch))).
    { destruct Hroom as [? | Hroom]; [left; lia | right].
      eapply room_le; [| exact Hroom]. lia. }
    destruct Hdepth as [-> | ->].
    + change (16 / 8) with 2 in *. change (16 =? 16) with true. cbv iota.
      apply returns_bind.
      eapply returns_weaken; [apply decode_loop16; [lia | lia | exact Hroom'] |].
      intros [] g2 (Hf2 & Hcells). cbv beta.
      apply returns_bind, set_size_returns, returns_ret.
      split; [reflexivity |]. split; [reflexivity |].
      intros i Hi. rewrite fcell_set_size. apply Hcells. exact Hi.
    + change (24 / 8) with 3 in *. change (24 =? 16) with false.
      change (24 =? 24) with true. cbv iota.
      apply returns_bind.
      eapply returns_weaken;
        [apply decode_loop24; [lia | lia | lia | exact Hroom'] |].
      intros [] g2 (Hf2 & Hcells). cbv beta.
      apply returns_bind, set_size_returns, returns_ret.
      split; [reflexivity |]. split; [reflexivity |].
      intros i Hi. rewrite fcell_set_size. apply Hcells. exact Hi.
Qed.

Lemma image_field1 g n wav i b :
  (forall i, 0 <= i < n -> bcell g i = nth_error wav (Z.to_nat i)) ->
  Z.of_nat (List.length wav) = n -> 0 <= i < n ->
  bcell g i = Some b -> field wav i 1 = Some b.
Proof.
  intros Himg Hwav Hi Hb. unfold field.
  pose proof (image_load_bytes g n wav i [b] Himg) as Hload.
  cbn [List.length] in Hload. rewrite Hload; try lia.
  - cbn [le_value]. f_equal. lia.
  - intros [| j] Hj; [| cbn in Hj; lia].
    cbn [Z.of_nat nth_error]. rewrite Z.add_0_r. exact Hb.
Qed.

(** X11.  Encoding and decoding compose.  When [wasm_audio_buffer_to_wav]
    has encoded [L] frames of [C] channels at 16 or 24 bits and the host
    hands the bytes it finds in the arena to [wasm_wav_to_audio_buffer],
    the decoder reports the same frame count, channel count and sample
    rate, and sample [i] of its output is the float of the code of sample
    [i] of the input, [code / 2^(B-1)] for a negative code and
    [code / (2^(B-1) - 1)] otherwise.  At 16 bits encoding that float again
    gives the same code: after one pass through the codec the samples are
    stable. *)
Theorem wav_round_trip heap_grants cells L C R bits output g :
  arena_consistent g -> 0 <= L -> 0 < C -> bits = 16 \/ bits = 24 ->
  C * (bits / 8) < 65536 -> 0 <= R < 4294967296 ->
  44 + L * C * (bits / 8) < 4294967296 -> L * C * 4 < 4294967296 ->
  L * C <= Z.of_nat (List.length cells) ->
  Forall (fun x => F32.valid x = true) cells ->
  heap_grants (44 + L * C * (bits / 8)) = true -> heap_grants (L * C * 4) = true ->
  exists g1 wav,
    wasm_audio_buffer_to_wav heap_grants (HostMem cells) L C R bits g
    = Some (44 + L * C * (bits / 8), g1)
    /\ arena_image g1 (44 + L * C * (bits / 8)) = Some wav
    /\ returns
         (wasm_wav_to_audio_buffer heap_grants wav (44 + L * C * (bits / 8)) output) g1
         (fun r g2 =>
            r = (L, {| data := ArenaBase; length := L; num_channels := C;
                       sample_rate := R |})
            /\ size g2 = L * C * 4
            /\ forall i, 0 <= i < L * C ->
                 exists x z,
                   nth_error cells (Z.to_nat i) = Some x
                   /\ sample_code bits x = Some z
                   /\ fcell g2 i = Some (sample_value bits z)
                   /\ (bits = 16 -> encode_sample16 (sample_value bits z) = Some z)).
Proof.
  intros Hcons HL HC Hdepth Hblock HR Hfit Hfit4 Hlen Hvalid Hgrant1 Hgrant2.
  assert (Hw : 2 <= bits / 8 <= 3) by (destruct Hdepth as [-> | ->]; cbn; lia).
  assert (HLC : 0 <= L * C) by (apply Z.mul_nonneg_nonneg; lia).
  assert (HCw : 0 < C * (bits / 8)) by (apply Z.mul_pos_pos; lia).
  assert (Hassoc : L * C * (bits / 8) = L * (C * (bits / 8))) by ring.
  set (total := 44 + L * C * (bits / 8)) in *.
  destruct (encode_image heap_grants cells L C R bits g Hcons HL ltac:(lia) Hdepth
              Hblock Hfit (or_intror Hgrant1) Hlen Hvalid)
    as (r & g1 & Henc & -> & Hs1 & Hheader & Hpayload & Hdef).
  pose proof (audio_buffer_to_wav_consistent _ _ _ _ _ _ _ _ _ Henc Hcons) as Hcons1.
  assert (Htotal : 44 <= total).
  { unfold total. assert (0 <= L * C * (bits / 8)) by (apply Z.mul_nonneg_nonneg; lia). lia. }
  destruct (arena_image_defined g1 total ltac:(lia) Hdef) as (wav & Himg & Hwlen & Hnth).
  exists g1, wav. split; [exact Henc |]. split; [exact Himg |].
  (* the header *)
  assert (Hhead : firstn 44 (skipn 0 wav) = header_bytes (wav_header L C R bits)).
  { rewrite <- (header_bytes_length (wav_header L C R bits)) at 1 by reflexivity.
    apply (image_bytes g1 total wav 0); try assumption; try lia;
      try (rewrite header_bytes_length by reflexivity; lia). }
  cbn [skipn] in Hhead.
  assert (Hwav : wav = header_bytes (wav_header L C R bits) ++ skipn 44 wav)
    by (rewrite <- Hhead; symmetry; apply firstn_skipn).
  assert (Hbits : 0 <= bits < 65536) by (destruct Hdepth as [-> | ->]; lia).
  destruct (header_fields L C R bits (skipn 44 wav) ltac:(lia) HR Hbits ltac:(lia))
    as (Hmagic & Hfbits & Hfch & Hfrate & Hfdsz).
  rewrite <- Hwav in Hmagic, Hfbits, Hfch, Hfrate, Hfdsz.
  assert (Hframes : L * (C * (bits / 8)) / (C * (bits / 8)) = L)
    by (apply Z.div_mul; lia).
  eapply returns_weaken.
  - apply (decode_supported heap_grants wav total output g1 bits C R
             (L * (C * (bits / 8)))); try assumption; try lia;
      rewrite Hframes; try lia.
    right. exact Hgrant2.
  - intros r g2 (Hr & Hs2 & Hcells). cbv beta. rewrite Hframes in Hr, Hs2, Hcells.
    split; [exact Hr |]. split; [exact Hs2 |].
    intros i Hi. rewrite (Hcells i Hi).
    destruct (Hpayload i Hi) as (x & z & Hx & Hz & Hb).
    exists x, z. split; [exact Hx |]. split; [exact Hz |].
    assert (Hxv : F32.valid x = true).
    { rewrite Forall_forall in Hvalid. apply Hvalid. eapply nth_error_In. exact Hx. }
    destruct Hdepth as [-> | ->].
    + change (Z.to_nat (16 / 8)) with 2%nat in Hb.
      change (Z.of_nat 2) with 2 in Hb.
      change (sample_code 16 x) with (encode_sample16 x) in Hz.
      assert (Hzr : -32768 <= z <= 32767) by (apply (cast_int_range _ _ _ _ Hz)).
      unfold pcm_sample, sample_value. change (16 =? 16) with true. cbv iota.
      pose proof (image_load_bytes g1 total wav (44 + 2 * i) (le_bytes 2 z) Hnth
                    ltac:(lia)) as Hload.
      cbn [le_bytes List.length] in Hload.
      rewrite Hload; [| unfold total; change (16 / 8) with 2; lia | exact Hwlen | exact Hb].
      change [Z.land z 255; Z.land (Z.shiftr z 8) 255] with (le_bytes 2 z).
      rewrite signed16_le_bytes by exact Hzr.
      split; [reflexivity |]. intros _.
      pose proof (all_codes_spec round_trips16 (Z.to_nat 65536) (-32768)
                    round_trips16_all z) as Hrt.
      rewrite Z2Nat.id in Hrt by lia. specialize (Hrt ltac:(lia)).
      unfold round_trips16 in Hrt. cbv zeta in Hrt.
      apply andb_prop in Hrt. destruct Hrt as [_ Hrt].
      destruct (encode_sample16 (decode_sample 32768 32767 z)) as [z' |];
        [| discriminate Hrt].
      apply Z.eqb_eq in Hrt. subst z'. reflexivity.
    + change (Z.to_nat (24 / 8)) with 3%nat in Hb.
      change (Z.of_nat 3) with 3 in Hb.
      change (sample_code 24 x) with (encode_sample24 x) in Hz.
      destruct (encode_sample24_defined x Hxv) as (z' & Hz' & _ & Hzr).
      rewrite Hz in Hz'. injection Hz' as <-.
      unfold pcm_sample, sample_value. change (24 =? 16) with false. cbv iota.
      assert (Hin : 44 + 3 * i + 3 <= total)
        by (unfold total; change (24 / 8) with 3; lia).
      rewrite (image_field1 g1 total wav (44 + 3 * i) (Z.land z 255) Hnth Hwlen);
        [| lia | rewrite <- (Z.add_0_r (44 + 3 * i)); apply (Hb 0%nat); cbn; lia].
      rewrite (image_field1 g1 total wav (44 + 3 * i + 1)
                 (Z.land (Z.shiftr z 8) 255) Hnth Hwlen);
        [| lia | apply (Hb 1%nat); cbn; lia].
      rewrite (image_field1 g1 total wav (44 + 3 * i + 2)
                 (Z.land (Z.shiftr (Z.shiftr z 8) 8) 255) Hnth Hwlen);
        [| lia | apply (Hb 2%nat); cbn; lia].
      rewrite Z.shiftr_shiftr by lia. change (8 + 8) with 16.
      rewrite int24_le_bytes by lia.
      split; [reflexivity | discriminate].
Qed.

Lemma wav_round_trip_witness :
  let cells := [F32.half; F32.minus_one] in
  Forall (fun x => F32.valid x = true) cells
  /\ exists g1 wav,
       wasm_audio_buffer_to_wav grant_all (HostMem cells) 2 1 8000 16
         g_memory_buffer_init = Some (48, g1)
       /\ arena_image g1 48 = Some wav
       /\ returns (wasm_wav_to_audio_buffer grant_all wav 48 no_output) g1
            (fun r g2 =>
               r = (2, {| data := ArenaBase; length := 2; num_channels := 1;
                          sample_rate := 8000 |})
               /\ size g2 = 8
               /\ fcell g2 0 = Some (sample_value 16 16383)
               /\ fcell g2 1 = Some (sample_value 16 (-32768))).
Proof.
  intro cells.
  assert (Hvalid : Forall (fun x => F32.valid x = true) cells)
    by (repeat constructor).
  split; [exact Hvalid |].
  destruct (wav_round_trip grant_all cells 2 1 8000 16 no_output g_memory_buffer_init)
    as (g1 & wav & Henc & Himg & Hdec);
    try reflexivity; try (cbn; lia); try exact Hvalid.
  exists g1, wav. split; [exact Henc |]. split; [exact Himg |].
  eapply returns_weaken; [exact Hdec |].
  intros r g2 (Hr & Hs & Hcells). cbv beta.
  split; [exact Hr |]. split; [exact Hs |].
  split.
  - destruct (Hcells 0 ltac:(lia)) as (x & z & Hx & Hz & Hc & _).
    cbn in Hx. injection Hx as <-. vm_compute in Hz. injection Hz as <-. exact Hc.
  - destruct (Hcells 1 ltac:(lia)) as (x & z & Hx & Hz & Hc & _).
    cbn in Hx. injection Hx as <-. vm_compute in Hz. injection Hz as <-. exact Hc.
Defined.

(** ** The samples of a resampled buffer *)

Lemma resample_values cells L C T ratio g1 :
  1 <= L -> 0 <= C -> 0 <= T ->
  L * C <= Z.of_nat (List.length cells) -> L * C < 4294967296 ->
  T * C * 4 < 4294967296 ->
  (forall i, 0 <= i < T -> to_uint32 (F64.div (F64.of_Z i) ratio) <> None) ->
  T * C = 0 \/ room g1 (T * C * 4) ->
  returns
    (for_loop (Z.to_nat C) 0
       (fun ch _ =>
          let src := u32 (ch * L) in
          let dst := u32 (ch * T) in
          for_loop (Z.to_nat T) 0
            (fun i _ =>
               let src_pos := F64.div (F64.of_Z i) ratio in
               src_idx <- lift (to_uint32 src_pos) ;;
               let frac := F64.sub src_pos (F64.of_Z src_idx) in
               if src_idx >=? u32 (L - 1) then
                 x <- load_float (HostMem cells) (src + u32 (L - 1)) ;;
                 store_floats (dst + i) [x]
               else
                 x0 <- load_float (HostMem cells) (src + src_idx) ;;
                 x1 <- load_float (HostMem cells) (src + u32 (src_idx + 1)) ;;
                 store_floats (dst + i)
                   [F64.to_f32
                      (F64.add (F64.mul (F64.of_f32 x0) (F64.sub (F64.of_Z 1) frac))
                               (F64.mul (F64.of_f32 x1) frac))]) tt) tt) g1
    (fun _ g' =>
       same_frame g1 g'
       /\ forall c i, 0 <= c < C -> 0 <= i < T ->
            fcell g' (c * T + i) = interpolated cells L ratio c i
            /\ fcell g' (c * T + i) <> None).
Proof.
  intros HL HC HT Hcells Hlc Hfit Hconv Hroom.
  set (P := fun (n : Z) (g' : MemoryBuffer) =>
         same_frame g1 g'
         /\ forall c i, 0 <= c < C -> 0 <= i < T -> c * T + i < n ->
              fcell g' (c * T + i) = interpolated cells L ratio c i
              /\ fcell g' (c * T + i) <> None).
  eapply returns_weaken.
  - apply (returns_for_loop (fun ch (_ : unit) g' => P (ch * T) g')).
    + split; [apply same_frame_refl |]. intros c i Hc Hi Hlt.
      pose proof (planar_row_nonneg c T HT ltac:(lia)). lia.
    + intros ch [] g2 Hch HP2. rewrite Z2Nat.id in Hch by lia.
      destruct (planar_rows ch C L ltac:(lia) ltac:(lia)) as [HchL HchL'].
      destruct (planar_rows ch C T HT ltac:(lia)) as [HchT HchT'].
      rewrite (Z.mul_comm L C) in Hcells, Hlc.
      rewrite (Z.mul_comm T C) in Hfit, Hroom.
      cbv zeta.
      rewrite (u32_small (ch * L)) by lia.
      rewrite (u32_small (ch * T)) by lia.
      rewrite (u32_small (L - 1)) by lia.
      eapply returns_weaken.
      * apply (returns_for_loop (fun i (_ : unit) g' => P (ch * T + i) g')).
        -- rewrite Z.add_0_r. exact HP2.
        -- intros i [] g3 Hi (Hf3 & Hd3). rewrite Z2Nat.id in Hi by lia.
           destruct (to_uint32 (F64.div (F64.of_Z i) ratio)) as [idx |] eqn:Hidx;
             [| exfalso; apply (Hconv i ltac:(lia)); exact Hidx].
           pose proof (cast_int_range _ _ _ _ Hidx) as Hrange.
           apply returns_bind. eapply returns_lift; [reflexivity |].
           assert (Hstore : room g3 (4 * (ch * T + i + 1))).
           { destruct Hroom as [? | Hroom]; [lia |].
             eapply room_le; [| eapply room_same_frame; [exact Hf3 | exact Hroom]].
             lia. }
           assert (Hnext : forall v g4,
                     interpolated cells L ratio ch i = Some v ->
                     same_frame g3 g4 /\ fcell g4 (ch * T + i) = Some v
                     /\ (forall k, 0 <= k -> k <> ch * T + i -> fcell g4 k = fcell g3 k) ->
                     P (ch * T + (i + 1)) g4).
           { intros v g4 Hv (Hf4 & Hnew & Hkeep).
             split; [eapply same_frame_trans; eassumption |].
             intros c j Hc Hj Hlt.
             pose proof (planar_row_nonneg c T HT ltac:(lia)) as HcT.
             destruct (Z.eq_dec (c * T + j) (ch * T + i)) as [Heq | Hne].
             - destruct (planar_unique T c j ch i ltac:(lia) ltac:(lia) Heq) as [-> ->].
               rewrite Hnew, Hv. split; [reflexivity | discriminate].
             - rewrite Hkeep by lia. apply Hd3; try assumption. lia. }
           destruct (Z.geb_spec idx (L - 1)) as [Hge | Hlt].
           ++ destruct (nth_error cells (Z.to_nat (ch * L + (L - 1)))) as [x |] eqn:Hx;
                [| apply nth_error_None in Hx; lia].
              apply returns_bind. eapply returns_load_float_host; [lia | exact Hx |].
              eapply returns_weaken; [apply store_float_at; [lia | exact Hstore] |].
              intros [] g4 H4. cbv beta. apply (Hnext x); [| exact H4].
              unfold interpolated. cbv zeta. rewrite Hidx.
              destruct (Z.geb_spec idx (L - 1)); [exact Hx | lia].
           ++ rewrite (u32_small (idx + 1)) by lia.
              destruct (nth_error cells (Z.to_nat (ch * L + idx))) as [x0 |] eqn:Hx0;
                [| apply nth_error_None in Hx0; lia].
              destruct (nth_error cells (Z.to_nat (ch * L + (idx + 1)))) as [x1 |] eqn:Hx1;
                [| apply nth_error_None in Hx1; lia].
              apply returns_bind. eapply returns_load_float_host; [lia | exact Hx0 |].
              apply returns_bind. eapply returns_load_float_host; [lia | exact Hx1 |].
              eapply returns_weaken; [apply store_float_at; [lia | exact Hstore] |].
              intros [] g4 H4. cbv beta. eapply Hnext; [| exact H4].
              unfold interpolated. cbv zeta. rewrite Hidx.
              destruct (Z.geb_spec idx (L - 1)); [lia |].
              rewrite Hx0, Hx1. reflexivity.
      * intros [] g3 HP3. cbv beta.
        rewrite Z.add_0_l, Z2Nat.id in HP3 by lia.
        replace ((ch + 1) * T) with (ch * T + T) by ring. exact HP3.
  - intros [] g' (Hf & Hd). cbv beta.
    rewrite Z.add_0_l, Z2Nat.id in Hd by lia.
    split; [exact Hf |]. intros c i Hc Hi. apply Hd; try assumption.
    destruct (planar_rows c C T HT ltac:(lia)) as [_ Hrow]. lia.
Qed.

(** X12.  [wasm_resample_audio] to another rate, on a buffer of host
    memory: frame [i] of channel [c] of the result, at index
    [c * T + i] of the arena, is computed from the source position
    [i / ratio] in double precision.  When the integral part of the
    position is at or behind the last frame of the source the result
    repeats that last frame ([src_idx >= length - 1]); otherwise it is
    [(float)(src[idx] * (1 - frac) + src[idx + 1] * frac)].  A source of a
    single frame is therefore resampled to copies of that frame. *)
Theorem resample_samples heap_grants source target output g T :
  host_buffer source ->
  sample_rate source <> target ->
  resample_length (length source) (sample_rate source) target = Some T ->
  length source * num_channels source < 4294967296 ->
  T * num_channels source * 4 < 4294967296 ->
  (forall i, 0 <= i < T -> position_converts (sample_rate source) target i) ->
  arena_consistent g ->
  T * num_channels source * 4 <= capacity g
    \/ heap_grants (T * num_channels source * 4) = true ->
  returns (wasm_resample_audio heap_grants source target output) g
    (fun r g' =>
       r = (T, {| data := ArenaBase; length := T;
                  num_channels := num_channels source; sample_rate := target |})
       /\ forall c i, 0 <= c < num_channels source -> 0 <= i < T ->
            fcell g' (c * T + i)
            = interpolated (host_cells source) (length source)
                (resample_ratio (sample_rate source) target) c i
            /\ fcell g' (c * T + i) <> None
            /\ (length source = 1 ->
                fcell g' (c * T + i) = nth_error (host_cells source) (Z.to_nat c))).
Proof.
  intros (Hdata & HL & HC & Hcells) Hrate HT Hlc Hfit Hconv Hcons Halloc.
  pose proof (cast_int_range _ _ _ _ HT) as HTr.
  assert (HTC : 0 <= T * num_channels source) by (apply Z.mul_nonneg_nonneg; lia).
  unfold wasm_resample_audio.
  destruct (Z.eqb_spec (sample_rate source) target) as [? | _]; [contradiction |].
  apply returns_bind. eapply returns_lift; [exact HT |].
  rewrite (u32_small (T * num_channels source * 4)) by lia.
  apply returns_bind.
  eapply returns_weaken; [apply reserve_returns; [lia | exact Hcons] |].
  intros ok g1 H1. cbv beta in H1 |- *.
  destruct ok; [| destruct H1 as (_ & ? & ?); destruct Halloc; [lia | congruence]].
  destruct H1 as (_ & _ & _ & _ & Hroom).
  cbn [negb]. rewrite Hdata.
  apply returns_bind.
  destruct (Z.eq_dec T 0) as [HT0 | HT0].
  - (* no output frame: the inner loop never runs *)
    subst T. change (Z.to_nat 0) with 0%nat. cbn [for_loop].
    eapply returns_weaken.
    + apply (returns_for_loop (fun _ (_ : unit) g' => g' = g1)); [reflexivity |].
      intros ch [] g2 _ ->. apply returns_ret. reflexivity.
    + intros [] g2 ->. cbv beta.
      apply returns_bind, set_size_returns, returns_ret.
      split; [reflexivity |]. intros c i Hc Hi. lia.
  - assert (HL1 : 1 <= length source).
    { destruct (Z.eq_dec (length source) 0) as [Hz | ?]; [| lia].
      rewrite Hz in HT. apply resample_length_empty in HT. contradiction. }
    eapply returns_weaken.
    + apply resample_values; try assumption; try lia.
      destruct Hroom as [? | Hroom]; [left; lia | right; exact Hroom].
    + intros [] g2 (Hf2 & Hd2). cbv beta.
      apply returns_bind, set_size_returns, returns_ret.
      split; [reflexivity |].
      intros c i Hc Hi. rewrite !fcell_set_size.
      destruct (Hd2 c i Hc Hi) as [Hval Hdef].
      split; [exact Hval |]. split; [exact Hdef |].
      intro Hone. rewrite Hval. unfold interpolated. cbv zeta.
      destruct (to_uint32 _) as [idx |] eqn:Hidx;
        [| exfalso; apply (Hconv i Hi); exact Hidx].
      pose proof (cast_int_range _ _ _ _ Hidx) as Hrange.
      rewrite Hone.
      destruct (Z.geb_spec idx (1 - 1)); [| lia].
      f_equal. lia.
Qed.

Lemma resample_samples_witness :
  host_buffer zero_one_zero_one
  /\ returns (wasm_resample_audio grant_all zero_one_zero_one 2000 no_output)
       g_memory_buffer_init
       (fun r g' =>
          fst r = 8
          /\ fcell g' 0 = Some (F32.of_Z 0) /\ fcell g' 1 = Some F32.half
          /\ fcell g' 2 = Some (F32.of_Z 1) /\ fcell g' 3 = Some F32.half
          /\ fcell g' 6 = Some (F32.of_Z 1) /\ fcell g' 7 = Some (F32.of_Z 1)).
Proof.
  assert (Hhost : host_buffer zero_one_zero_one) by (repeat split; try reflexivity; cbn; lia).
  assert (HT : resample_length 4 1000 2000 = Some 8) by (vm_compute; reflexivity).
  split; [exact Hhost |].
  eapply returns_weaken.
  - refine (resample_samples grant_all zero_one_zero_one 2000 no_output
              g_memory_buffer_init 8 Hhost _ HT _ _ _ _ _).
    + discriminate.
    + reflexivity.
    + reflexivity.
    + intros i Hi.
      assert (Hcases : i = 0 \/ i = 1 \/ i = 2 \/ i = 3 \/ i = 4 \/ i = 5 \/ i = 6 \/ i = 7)
        by lia.
      destruct Hcases as [-> | [-> | [-> | [-> | [-> | [-> | [-> | ->]]]]]]];
        vm_compute; discriminate.
    + reflexivity.
    + right. reflexivity.
  - intros r g' (Hr & Hcells). cbv beta.
    split; [rewrite Hr; reflexivity |].
    pose proof (fun i Hi => proj1 (Hcells 0 i ltac:(cbn; lia) Hi)) as Hc.
    cbn [Z.mul Z.add] in Hc.
    split; [rewrite (Hc 0) by lia; vm_compute; reflexivity |].
    split; [rewrite (Hc 1) by lia; vm_compute; reflexivity |].
    split; [rewrite (Hc 2) by lia; vm_compute; reflexivity |].
    split; [rewrite (Hc 3) by lia; vm_compute; reflexivity |].
    split; [rewrite (Hc 6) by lia; vm_compute; reflexivity |].
    rewrite (Hc 7) by lia; vm_compute; reflexivity.
Defined.

(** ** Reads past the end of the input *)

Lemma for_loop_split {St} (body : Z -> St -> M St) : forall n m i s g,
  for_loop (n + m) i body s g
  = match for_loop n i body s g with
    | Some (s', g') => for_loop m (i + Z.of_nat n) body s' g'
    | None => None
    end.
Proof.
  induction n as [| n IH]; intros m i s g.
  - cbn [for_loop Nat.add Z.of_nat]. unfold ret. rewrite Z.add_0_r. reflexivity.
  - cbn [for_loop Nat.add]. unfold bind.
    destruct (body i s g) as [[s1 g1] |]; [| reflexivity].
    rewrite IH. replace (i + 1 + Z.of_nat n) with (i + Z.of_nat (S n)) by lia.
    reflexivity.
Qed.

Lemma load_bytes_none mem off n :
  Z.of_nat (List.length mem) < off + Z.of_nat n -> load_bytes mem off n = None.
Proof.
  intro H. unfold load_bytes.
  destruct (Z.leb_spec (off + Z.of_nat n) (Z.of_nat (List.length mem))); [lia | reflexivity].
Qed.

Lemma field_none mem off n :
  Z.of_nat (List.length mem) < off + Z.of_nat n -> field mem off n = None.
Proof. intro H. unfold field. rewrite load_bytes_none by exact H. reflexivity. Qed.

(** X14.  [wasm_wav_to_audio_buffer] trusts the [data_size] of the header:
    it is compared neither with [wav_size] nor with anything else.  On a
    16-bit or 24-bit file that is shorter than its header announces, the
    decoding loop reads past the end of the input buffer, which is
    undefined; the call does not return 0. *)
Theorem wav_payload_past_end heap_grants wav_data wav_size output g bits ch rate dsz :
  44 <= wav_size -> 44 <= Z.of_nat (List.length wav_data) ->
  magic_ok wav_data = true ->
  field wav_data 34 2 = Some bits -> field wav_data 22 2 = Some ch ->
  field wav_data 24 4 = Some rate -> field wav_data 40 4 = Some dsz ->
  bits = 16 \/ bits = 24 -> 0 < ch -> 0 <= dsz ->
  dsz / (ch * (bits / 8)) * ch * 4 < 4294967296 ->
  Z.of_nat (List.length wav_data) < 44 + dsz / (ch * (bits / 8)) * ch * (bits / 8) ->
  arena_consistent g ->
  dsz / (ch * (bits / 8)) * ch * 4 <= capacity g
    \/ heap_grants (dsz / (ch * (bits / 8)) * ch * 4) = true ->
  wasm_wav_to_audio_buffer heap_grants wav_data wav_size output g = None.
Proof.
  intros Hsize Hlen Hmagic Hbits Hch Hrate Hdsz Hdepth Hchpos Hdszpos Hfit Hshort
         Hcons Halloc.
  assert (Hbps : u16 (bits / 8) = bits / 8)
    by (destruct Hdepth as [-> | ->]; reflexivity).
  assert (Hw : 2 <= bits / 8 <= 3) by (destruct Hdepth as [-> | ->]; cbn; lia).
  set (w := bits / 8) in *.
  set (n := dsz / (ch * w)) in *.
  assert (Hn : 0 <= n).
  { unfold n. apply Z.div_pos; [lia |]. apply Z.mul_pos_pos; lia. }
  assert (HN : 0 <= n * ch) by (apply Z.mul_nonneg_nonneg; lia).
  (* the whole samples the input holds *)
  set (len := Z.of_nat (List.length wav_data)) in *.
  set (k := (len - 44) / w).
  assert (Hk : 0 <= k /\ 44 + w * k <= len /\ len < 44 + w * (k + 1)).
  { pose proof (Z.div_mod (len - 44) w ltac:(lia)) as Hdm.
    pose proof (Z.mod_pos_bound (len - 44) w ltac:(lia)) as Hmod.
    fold k in Hdm. split; [apply Z.div_pos; lia | lia]. }
  assert (HkN : k < n * ch).
  { destruct (Z_lt_le_dec k (n * ch)) as [? | Hge]; [assumption |].
    assert (w * (n * ch) <= w * k) by (apply Z.mul_le_mono_nonneg_l; lia). lia. }
  destruct (load_bytes_some wav_data 0 4 ltac:(lia)
              ltac:(change (Z.of_nat 4) with 4; lia)) as [r Hr].
  destruct (load_bytes_some wav_data 8 4 ltac:(lia)
              ltac:(change (Z.of_nat 4) with 4; lia)) as [wv Hwv].
  destruct (load_bytes_some wav_data 12 4 ltac:(lia)
              ltac:(change (Z.of_nat 4) with 4; lia)) as [f Hf].
  unfold magic_ok in Hmagic. rewrite Hr, Hwv, Hf in Hmagic.
  apply andb_prop in Hmagic. destruct Hmagic as [Hmagic Hfmt].
  apply andb_prop in Hmagic. destruct Hmagic as [Hriff Hwave].
  unfold wasm_wav_to_audio_buffer.
  destruct (Z.ltb_spec wav_size 44) as [? | _]; [lia |].
  unfold bind at 1. unfold lift at 1. rewrite Hr, Hriff. cbn [negb].
  unfold bind at 1. unfold lift at 1. rewrite Hwv, Hwave. cbn [negb].
  unfold bind at 1. unfold lift at 1. rewrite Hf, Hfmt. cbn [negb].
  unfold bind at 1. unfold lift at 1. rewrite Hbits.
  unfold bind at 1. unfold lift at 1. rewrite Hch.
  unfold bind at 1. unfold lift at 1. rewrite Hrate.
  unfold bind at 1. unfold lift at 1. rewrite Hdsz.
  cbv zeta. fold w. rewrite Hbps. fold n.
  destruct (Z.eqb_spec (ch * w) 0) as [Hz | _];
    [apply Z.mul_eq_0 in Hz; lia |].
  rewrite (u32_small (n * ch * 4)) by lia.
  rewrite (u32_small (n * ch)) by lia.
  destruct (reserve_returns heap_grants (n * ch * 4) g ltac:(lia) Hcons)
    as (ok & g1 & Hres & Hok).
  unfold bind at 1. rewrite Hres.
  destruct ok; [| destruct Hok as (_ & ? & ?); destruct Halloc; [lia | congruence]].
  destruct Hok as (_ & _ & _ & _ & Hroom).
  cbn [negb].
  assert (Hroomk : k = 0 \/ room g1 (4 * k)).
  { destruct Hroom as [? | Hroom]; [lia | right].
    eapply room_le; [| exact Hroom]. lia. }
  unfold bind at 1.
  replace (Z.to_nat (n * ch)) with (Z.to_nat k + Z.to_nat (n * ch - k))%nat by lia.
  destruct (Z.to_nat (n * ch - k)) as [| m] eqn:Hm; [lia |].
  destruct Hdepth as [H16 | H24].
  - subst bits. change (16 =? 16) with true. cbv iota.
    change (16 / 8) with 2 in *. subst w.
    rewrite for_loop_split.
    destruct (decode_loop16 wav_data k g1 ltac:(lia) ltac:(lia) Hroomk)
      as ([] & g2 & Hloop & _).
    rewrite Hloop. rewrite Z.add_0_l, Z2Nat.id by lia.
    cbn [for_loop]. unfold bind at 1. unfold bind at 1. unfold lift at 1.
    rewrite load_bytes_none by (change (Z.of_nat 2) with 2; lia).
    reflexivity.
  - subst bits. change (24 =? 16) with false. change (24 =? 24) with true. cbv iota.
    change (24 / 8) with 3 in *. subst w.
    rewrite for_loop_split.
    destruct (decode_loop24 wav_data k g1 ltac:(lia) ltac:(lia) ltac:(lia) Hroomk)
      as ([] & g2 & Hloop & _).
    cbv zeta in Hloop.
    rewrite Hloop. rewrite Z.add_0_l, Z2Nat.id by lia.
    cbn [for_loop].
    rewrite (u32_small (k * 3)), (u32_small (k * 3 + 1)), (u32_small (k * 3 + 2)) by lia.
    unfold bind at 1. unfold bind at 1. unfold lift at 1.
    destruct (field wav_data (44 + k * 3) 1) as [b0 |]; [| reflexivity].
    unfold bind at 1. unfold lift at 1.
    destruct (field wav_data (44 + (k * 3 + 1)) 1) as [b1 |]; [| reflexivity].
    unfold bind at 1. unfold lift at 1.
    rewrite field_none by (change (Z.of_nat 1) with 1; lia).
    reflexivity.
Qed.

Lemma wav_payload_past_end_witness :
  magic_ok truncated_wav = true
  /\ field truncated_wav 40 4 = Some 8
  /\ Z.of_nat (List.length truncated_wav) = 46
  /\ wasm_wav_to_audio_buffer grant_all truncated_wav 46 no_output
       g_memory_buffer_init = None.
Proof.
  split; [reflexivity |]. split; [reflexivity |]. split; [reflexivity |].
  apply (wav_payload_past_end grant_all truncated_wav 46 no_output
           g_memory_buffer_init 16 1 8000 8);
    try reflexivity; try (cbn; lia).
  right. reflexivity.
Defined.

(** X15.  [wasm_cross_fade] does not compare [fade_length] with the length
    of the first buffer.  When the fade is longer than the first buffer,
    [buffer1->length - fade_length] wraps around to almost 2^32 frames and
    the first copy reads far past the end of the first buffer, which is
    undefined; the call does not return 0. *)
Theorem cross_fade_fade_too_long heap_grants buffer1 buffer2 fade_length output g :
  host_buffer buffer1 -> 0 < num_channels buffer1 ->
  length buffer1 < fade_length <= length buffer1 + length buffer2 ->
  fade_length - length buffer1 < 1073741824 ->
  Z.of_nat (List.length (host_cells buffer1))
    < 1073741824 - (fade_length - length buffer1) ->
  (length buffer1 + length buffer2 - fade_length) * num_channels buffer1 * 4
    < 4294967296 ->
  arena_consistent g ->
  (length buffer1 + length buffer2 - fade_length) * num_channels buffer1 * 4
    <= capacity g
  \/ heap_grants ((length buffer1 + length buffer2 - fade_length)
                  * num_channels buffer1 * 4) = true ->
  wasm_cross_fade heap_grants buffer1 buffer2 fade_length output g = None.
Proof.
  intros (Hdata1 & HL1 & _ & _) HC HF Hd Hcells Hfit Hcons Halloc.
  set (L1 := length buffer1) in *. set (L2 := length buffer2) in *.
  set (C := num_channels buffer1) in *. set (F := fade_length) in *.
  set (T := L1 + L2 - F) in *.
  assert (HT : 0 <= T) by lia.
  assert (HTC : 0 <= T * C) by (apply Z.mul_nonneg_nonneg; lia).
  assert (HT32 : T < 4294967296).
  { assert (T * 1 <= T * C) by (apply Z.mul_le_mono_nonneg_l; lia). lia. }
  unfold wasm_cross_fade. cbv zeta. fold L1 L2 C F.
  change (L1 + L2 - F) with T.
  rewrite (u32_small T) by lia.
  rewrite (u32_small (T * C * 4)) by lia.
  destruct (reserve_returns heap_grants (T * C * 4) g ltac:(lia) Hcons)
    as (ok & g1 & Hres & Hok).
  unfold bind at 1. rewrite Hres.
  destruct ok; [| destruct Hok as (_ & ? & ?); destruct Halloc; [lia | congruence]].
  cbn [negb].
  assert (Hhead : u32 (L1 - F) = L1 - F + 4294967296).
  { unfold u32. symmetry. apply (Z.mod_unique _ _ (-1)); lia. }
  assert (Hbytes : u32 (u32 (L1 - F) * 4) = 4 * (1073741824 - (F - L1))).
  { rewrite Hhead. unfold u32. symmetry.
    apply (Z.mod_unique _ _ 3); lia. }
  rewrite Hbytes, Hdata1.
  unfold bind at 1.
  destruct (Z.to_nat C) as [| m] eqn:Hm; [lia |].
  cbn [for_loop]. unfold bind at 1.
  unfold memcpy_floats at 1. unfold bind at 1.
  unfold load_floats.
  rewrite (Z.mul_comm 4), Z.div_mul by lia.
  destruct (Z.eqb_spec (1073741824 - (F - L1)) 0) as [? | _]; [lia |].
  change (u32 (0 * L1)) with 0.
  destruct (Z.leb_spec (0 + (1073741824 - (F - L1)))
              (Z.of_nat (List.length (host_cells buffer1)))) as [? | _]; [lia |].
  reflexivity.
Qed.

Lemma cross_fade_fade_too_long_witness :
  host_buffer three_frames
  /\ wasm_cross_fade grant_all three_frames five_frames 4 no_output
       g_memory_buffer_init = None.
Proof.
  assert (Hh : host_buffer three_frames) by (repeat split; try reflexivity; cbn; lia).
  split; [exact Hh |].
  apply (cross_fade_fade_too_long grant_all three_frames five_frames 4 no_output
           g_memory_buffer_init Hh); try (cbn; lia); try reflexivity.
  right. reflexivity.
Defined.

(** ** Writes past the end of the arena *)

Lemma store_bytes_outside off vs g n :
  option_map blk_size (buffer g) = Some n -> vs <> [] ->
  n < off + Z.of_nat (List.length vs) ->
  store_bytes off vs g = None.
Proof.
  intros Hb Hvs Hout. unfold store_bytes.
  destruct vs as [| v vs']; [contradiction |].
  unfold bind, get. destruct (buffer g) as [b |]; [| reflexivity].
  cbn in Hb. injection Hb as Hb. rewrite Hb.
  destruct (Z.leb_spec (off + Z.of_nat (List.length (v :: vs'))) n); [lia | reflexivity].
Qed.

(** X16.  [wasm_audio_buffer_to_wav] computes the size of the payload
    from a 16-bit [block_align].  At 16 bits and 32768 channels or more,
    [num_channels * 2] wraps around, the arena is sized for the wrapped
    value, and the encoding loop, which still runs over
    [length * num_channels] samples, writes past the end of the block it
    has just allocated: the call is undefined, whatever the input
    samples. *)
Theorem wav_block_align_wraps heap_grants audio_data L C R g :
  32768 <= C < 65536 -> 1 <= L ->
  44 + L * (2 * C - 65536) < 4294967296 -> L * C < 4294967296 ->
  buffer g = None -> capacity g = 0 ->
  heap_grants (44 + L * (2 * C - 65536)) = true ->
  wasm_audio_buffer_to_wav heap_grants audio_data L C R 16 g = None.
Proof.
  intros HC HL Hfit HLC Hnull Hcap Hgrant.
  set (k := L * (C - 32768)).
  assert (Hk : 0 <= k) by (apply Z.mul_nonneg_nonneg; lia).
  assert (Hk2 : L * (2 * C - 65536) = 2 * k) by (unfold k; ring).
  assert (HkN : k < L * C).
  { unfold k. apply Z.mul_lt_mono_pos_l; lia. }
  unfold wasm_audio_buffer_to_wav. cbv zeta.
  change (u16 (16 / 8)) with 2.
  assert (Hba : u16 (C * 2) = 2 * C - 65536).
  { unfold u16. symmetry. apply (Z.mod_unique _ _ 1); lia. }
  rewrite Hba. rewrite Hk2 in *.
  rewrite (u32_small (2 * k)) by lia.
  rewrite (u32_small (44 + 2 * k)) by lia.
  rewrite (u32_small (L * C)) by lia.
  unfold bind at 1. unfold reserve, realloc, bind at 1, get.
  rewrite Hcap, Hnull, Hgrant.
  destruct (Z.gtb_spec (44 + 2 * k) 0) as [_ | ?]; [| lia].
  unfold bind at 1, put at 1, ret at 1. cbn [negb].
  set (g1 := {| buffer := Some {| blk_size := 44 + 2 * k; blk_data := Indeterminate |};
                size := size g; capacity := 44 + 2 * k |}).
  unfold bind at 1.
  destruct (store_bytes 0 _ g1) as [[[] g2] |] eqn:Hhdr; [| reflexivity].
  assert (Hf2 : option_map blk_size (buffer g2) = Some (44 + 2 * k)).
  { apply fp_store_bytes in Hhdr. destruct Hhdr as (_ & _ & Hb). exact Hb. }
  change (16 =? 16) with true. cbv iota.
  unfold bind at 1.
  replace (Z.to_nat (L * C)) with (Z.to_nat k + Z.to_nat (L * C - k))%nat by lia.
  destruct (Z.to_nat (L * C - k)) as [| m] eqn:Hm; [lia |].
  rewrite for_loop_split.
  destruct (for_loop (Z.to_nat k) 0 _ tt g2) as [[[] g3] |] eqn:Hloop; [| reflexivity].
  assert (Hf3 : option_map blk_size (buffer g3) = Some (44 + 2 * k)).
  { revert Hloop. match goal with |- ?c g2 = _ -> _ => assert (Hfp : frame_preserving c) end.
    { frame. }
    intro Hloop. apply Hfp in Hloop. destruct Hloop as (_ & _ & Hb). congruence. }
  rewrite Z.add_0_l, Z2Nat.id by lia.
  cbn [for_loop]. unfold bind at 1. unfold bind at 1.
  destruct (load_float audio_data k g3) as [[x g4] |] eqn:Hload; [| reflexivity].
  assert (Hf4 : option_map blk_size (buffer g4) = Some (44 + 2 * k)).
  { apply fp_load_float in Hload. destruct Hload as (_ & _ & Hb). congruence. }
  unfold bind at 1. unfold lift at 1.
  destruct (encode_sample16 x) as [v |]; [| reflexivity].
  rewrite (store_bytes_outside _ _ g4 (44 + 2 * k) Hf4);
    [reflexivity | discriminate | cbn [le_bytes List.length]; lia].
Qed.

Lemma wav_block_align_wraps_witness :
  wasm_audio_buffer_to_wav grant_all (HostMem [F32.half]) 1 32768 44100 16
    g_memory_buffer_init = None.
Proof.
  apply (wav_block_align_wraps grant_all (HostMem [F32.half]) 1 32768 44100
           g_memory_buffer_init); try reflexivity; lia.
Defined.

(** ** Degenerate rates and volumes *)

(** X17.  [wasm_resample_audio] does not check the sample rate of the
    source.  When it is 0 and the target rate is not, the operand of the
    conversion to [uint32_t], [source->length * ((double)target / 0)], is an
    infinity or a NaN: it has no integral part, no [uint32_t] is its
    truncation, and the conversion is undefined behaviour.  The embedding
    gives undefined behaviour no outcome, so it has none for the call; what
    a build returns there is not fixed by the source. *)
Theorem resample_zero_source_rate_undefined heap_grants source target output g :
  sample_rate source = 0 -> target <> 0 ->
  let scaled := F64.mul (F64.of_Z (length source))
                        (resample_ratio (sample_rate source) target) in
  (scaled = S754_nan \/ exists s, scaled = S754_infinity s)
  /\ trunc scaled = None
  /\ resample_length (length source) (sample_rate source) target = None
  /\ wasm_resample_audio heap_grants source target output g = None.
Proof.
  intros Hrate Htarget scaled.
  assert (Hscaled : scaled = S754_nan \/ exists s, scaled = S754_infinity s).
  { unfold scaled, resample_ratio, F64.div, F64.mul. rewrite Hrate.
    change (F64.of_Z 0) with (S754_zero false).
    destruct (F64.of_Z target) as [s | s | | s m e];
      destruct (F64.of_Z (length source)) as [s' | s' | | s' m' e'];
      cbn; eauto. }
  assert (Htrunc : trunc scaled = None)
    by (destruct Hscaled as [-> | [s ->]]; reflexivity).
  assert (Hlen : resample_length (length source) (sample_rate source) target = None).
  { unfold resample_length, to_uint32, cast_int. fold scaled. rewrite Htrunc.
    reflexivity. }
  split; [exact Hscaled |]. split; [exact Htrunc |]. split; [exact Hlen |].
  unfold wasm_resample_audio.
  destruct (Z.eqb_spec (sample_rate source) target) as [? | _]; [congruence |].
  unfold bind at 1. rewrite Hlen. reflexivity.
Qed.

Lemma resample_zero_source_rate_undefined_witness :
  sample_rate rate_zero_frames = 0 /\ 8000 <> 0
  /\ (let scaled := F64.mul (F64.of_Z (length rate_zero_frames))
                            (resample_ratio (sample_rate rate_zero_frames) 8000) in
      (scaled = S754_nan \/ exists s, scaled = S754_infinity s)
      /\ trunc scaled = None
      /\ resample_length (length rate_zero_frames) (sample_rate rate_zero_frames) 8000
         = None
      /\ wasm_resample_audio grant_all rate_zero_frames 8000 no_output
                             g_memory_buffer_init
         = None).
Proof.
  split; [reflexivity |]. split; [discriminate |].
  apply (resample_zero_source_rate_undefined grant_all rate_zero_frames 8000);
    [reflexivity | discriminate].
Defined.

Lemma map_ext_const {A B} (f : A -> B) (b : B) (l : list A) :
  (forall a, f a = b) -> map f l = repeat b (List.length l).
Proof.
  intro H. induction l as [| a l IH]; [reflexivity |].
  cbn [map List.length repeat]. rewrite H, IH. reflexivity.
Qed.

(** X18.  [wasm_adjust_volume] with a NaN volume: every product
    [x * volume] is a NaN, which [fminf(1.0f, .)] turns into 1.0, so each
    of the [length * num_channels] samples of the buffer becomes exactly
    +1.0, whatever it was. *)
Theorem adjust_volume_nan cells L C R g :
  0 <= L * C < 4294967296 ->
  L * C <= Z.of_nat (List.length cells) ->
  wasm_adjust_volume
    {| data := HostMem cells; length := L; num_channels := C; sample_rate := R |}
    S754_nan g
  = Some ({| data := HostMem (repeat F32.one (Z.to_nat (L * C))
                              ++ skipn (Z.to_nat (L * C)) cells);
             length := L; num_channels := C; sample_rate := R |}, g).
Proof.
  intros Hn Hlen. unfold wasm_adjust_volume. cbv zeta.
  cbn [data length num_channels sample_rate].
  rewrite (u32_small (L * C)) by lia.
  pose proof (adjust_volume_loop S754_nan cells g (Z.to_nat (L * C)) 0 ltac:(lia))
    as Hloop.
  unfold scaled_prefix at 1 in Hloop. cbn [firstn map skipn app Z.of_nat] in Hloop.
  set (loop := for_loop _ _ _ _) in *. unfold bind. rewrite Hloop.
  unfold scaled_prefix, ret. cbn [Nat.add].
  rewrite (map_ext_const _ F32.one).
  - rewrite length_firstn, Nat.min_l by lia. reflexivity.
  - intro x. destruct x; reflexivity.
Qed.

Lemma adjust_volume_nan_witness :
  wasm_adjust_volume (mono [F32.half; F32.zero; F32.minus_one] 8000) S754_nan
    g_memory_buffer_init
  = Some (mono [F32.one; F32.one; F32.one] 8000, g_memory_buffer_init).
Proof.
  apply (adjust_volume_nan [F32.half; F32.zero; F32.minus_one] 3 1 8000
           g_memory_buffer_init); cbn; lia.
Defined.
